(** * Document signing workflow: token service, lifecycle controller,
      signature collection, audit trail.

    A shallow embedding of the controllers, services and models of the
    document e-signature backend, and the properties of its signing
    workflow. *)

From Stdlib Require Import ZArith Lia.
From Stdlib Require Import Ascii String.
From Stdlib.Strings Require Import Byte.
From stdpp Require Import base option list gmap strings pretty sorting.

Local Open Scope Z_scope.

(** ** [crypto.createHash('sha256')]

    The controllers hash uploaded files and signing tokens with Node's
    SHA-256 and take the digest in lowercase hexadecimal.  The hash is
    written out (FIPS 180-4) on 32-bit words carried as [Z] with their
    wrap-around, so that digests can be evaluated on concrete inputs. *)
Module SHA256.

Definition mask32 : Z := 0xFFFFFFFF.
Definition add32 (a b : Z) : Z := Z.land (a + b) mask32.
Definition not32 (a : Z) : Z := Z.lxor a mask32.
Definition rotr (n x : Z) : Z :=
  Z.lor (Z.shiftr x n) (Z.land (Z.shiftl x (32 - n)) mask32).

Definition Ch (x y z : Z) : Z := Z.lxor (Z.land x y) (Z.land (not32 x) z).
Definition Maj (x y z : Z) : Z :=
  Z.lxor (Z.lxor (Z.land x y) (Z.land x z)) (Z.land y z).
Definition Sigma0 (x : Z) : Z := Z.lxor (Z.lxor (rotr 2 x) (rotr 13 x)) (rotr 22 x).
Definition Sigma1 (x : Z) : Z := Z.lxor (Z.lxor (rotr 6 x) (rotr 11 x)) (rotr 25 x).
Definition sigma0 (x : Z) : Z := Z.lxor (Z.lxor (rotr 7 x) (rotr 18 x)) (Z.shiftr x 3).
Definition sigma1 (x : Z) : Z := Z.lxor (Z.lxor (rotr 17 x) (rotr 19 x)) (Z.shiftr x 10).

(** The constants are derived as the standard defines them: the first 32
    bits of the fractional parts of the cube roots ([K]) and of the
    square roots ([H0]) of the first primes. *)
Definition is_prime (p : Z) : bool :=
  forallb (fun d => negb (p mod Z.of_nat d =? 0)) (seq 2 (Z.to_nat p - 2)).

Definition primes (n : nat) : list Z :=
  take n (filter (fun p => is_prime p = true) (Z.of_nat <$> seq 2 310)).

(** The integer cube root, one bit at a time from bit [b - 1] down. *)
Fixpoint cube_root (b : nat) (x n : Z) : Z :=
  match b with
  | O => x
  | S b' =>
    let y := x + Z.shiftl 1 (Z.of_nat b') in
    cube_root b' (if y * y * y <=? n then y else x) n
  end.

Definition K : list Z :=
  Eval vm_compute in
    (fun p => Z.land (cube_root 36 0 (Z.shiftl p 96)) mask32) <$> primes 64.

Definition H0 : list Z :=
  Eval vm_compute in
    (fun p => Z.land (Z.sqrt (Z.shiftl p 64)) mask32) <$> primes 8.

(** Padding: a [0x80] byte, zero bytes up to 56 modulo 64, then the
    message length in bits as a 64-bit big-endian integer. *)
Fixpoint be_bytes (n : nat) (x : Z) : list Z :=
  match n with
  | O => []
  | S n' => Z.land (Z.shiftr x (8 * Z.of_nat n')) 0xFF :: be_bytes n' x
  end.

Definition pad (msg : list Z) : list Z :=
  let len := Z.of_nat (length msg) in
  let zeros := Z.to_nat ((55 - len) mod 64) in
  msg ++ [0x80] ++ replicate zeros 0 ++ be_bytes 8 (8 * len).

Fixpoint be_word (bs : list Z) (acc : Z) : Z :=
  match bs with
  | [] => acc
  | b :: bs' => be_word bs' (Z.lor (Z.shiftl acc 8) b)
  end.

(** The words of a message, four bytes each. *)
Fixpoint words (n : nat) (bs : list Z) : list Z :=
  match n with
  | O => []
  | S n' =>
      match bs with
      | [] => []
      | _ => be_word (take 4 bs) 0 :: words n' (drop 4 bs)
      end
  end.

(** Message schedule: [w] holds the last sixteen words, oldest first. *)
Definition next_w (w : list Z) : Z :=
  add32 (add32 (sigma1 (w !!! 14%nat)) (w !!! 9%nat))
        (add32 (sigma0 (w !!! 1%nat)) (w !!! 0%nat)).

Fixpoint schedule (n : nat) (w : list Z) : list Z :=
  match n with
  | O => []
  | S n' => let x := next_w w in x :: schedule n' (drop 1 w ++ [x])
  end.

Record regs := Regs { ra : Z; rb : Z; rc : Z; rd : Z; re : Z; rf : Z; rg : Z; rh : Z }.

Definition round (s : regs) (kw : Z * Z) : regs :=
  let t1 := add32 (add32 (add32 (rh s) (Sigma1 (re s))) (Ch (re s) (rf s) (rg s)))
                  (add32 (fst kw) (snd kw)) in
  let t2 := add32 (Sigma0 (ra s)) (Maj (ra s) (rb s) (rc s)) in
  Regs (add32 t1 t2) (ra s) (rb s) (rc s) (add32 (rd s) t1) (re s) (rf s) (rg s).

Definition regs_of (h : list Z) : regs :=
  Regs (h !!! 0%nat) (h !!! 1%nat) (h !!! 2%nat) (h !!! 3%nat)
       (h !!! 4%nat) (h !!! 5%nat) (h !!! 6%nat) (h !!! 7%nat).

Definition list_of (s : regs) : list Z :=
  [ra s; rb s; rc s; rd s; re s; rf s; rg s; rh s].

Definition compress (h : list Z) (block : list Z) : list Z :=
  let w16 := block in
  let w := w16 ++ schedule 48 w16 in
  let s := fold_left round (zip K w) (regs_of h) in
  zip_with add32 h (list_of s).

Fixpoint blocks (n : nat) (ws : list Z) (h : list Z) : list Z :=
  match n with
  | O => h
  | S n' =>
      match ws with
      | [] => h
      | _ => blocks n' (drop 16 ws) (compress h (take 16 ws))
      end
  end.

Definition digest_words (msg : list Z) : list Z :=
  let p := pad msg in
  let ws := words (length p) p in
  blocks (length ws) ws H0.

Definition hex_digit (d : Z) : ascii :=
  if d <? 10 then ascii_of_nat (Z.to_nat (48 + d))
  else ascii_of_nat (Z.to_nat (87 + d)).

Fixpoint hex_of_word (n : nat) (x : Z) : string :=
  match n with
  | O => EmptyString
  | S n' => String (hex_digit (Z.land (Z.shiftr x (4 * Z.of_nat n')) 0xF)) (hex_of_word n' x)
  end.

Definition hex_of_words (ws : list Z) : string :=
  fold_right (fun w s => String.append (hex_of_word 8 w) s) EmptyString ws.

Definition byte_val (b : byte) : Z := Z.of_N (Byte.to_N b).

(** [createHash('sha256').update(buffer).digest('hex')] *)
Definition hex (buffer : list byte) : string :=
  hex_of_words (digest_words (byte_val <$> buffer)).

(** [createHash('sha256').update(str).digest('hex')], on the bytes of the
    string. *)
Definition hex_of_string (s : string) : string :=
  hex (list_byte_of_string s).

End SHA256.

(** ** Values

    Dates are milliseconds since the epoch, carried as [Z]; a request
    reads the clock once ([now]).  Numbers of a request body are
    integers.  Database calls succeed unless a schema constraint written
    out below refuses the write; Mongoose casting and the validators of
    [title] and [description] are left out: requests carry values that
    pass them.

    A document is kept under the value of its [_id]; in a controller
    [document._id] is the [ObjectId] object that came with the document.
    A Mongoose [ObjectId] is a JavaScript object: [oid_val] is the
    identifier it denotes (what MongoDB compares in queries and indexes)
    and [oid_ref] is the identity of the object in the Node heap (what
    [===] compares).  [Document.create] and [Document.findById] build a
    new object each time they hydrate a document. *)
Record ObjectId := { oid_ref : nat; oid_val : nat }.

(** [a === b] on two [ObjectId] objects. *)
Definition strict_eq (a b : ObjectId) : bool := Nat.eqb (oid_ref a) (oid_ref b).

Inductive Status := draft | sent | signed | rejected.

Definition status_eqb (a b : Status) : bool :=
  match a, b with
  | draft, draft | sent, sent | signed, signed | rejected, rejected => true
  | _, _ => false
  end.

Inductive Role := role_user | role_admin.

Record User := {
  user_id : nat;
  user_role : Role;
  user_name : string;
  user_email : string }.

(** Errors that reach [next(err)] through [catchAsync]: the [AppError]s the
    controllers build, and what Mongoose and the mail transport throw. *)
Inductive Exn :=
  | AppError (message : string) (statusCode : Z)
  | ValidationError (message : string)
  | DuplicateKeyError
  | TypeError
  | SystemError (code : string)
  | MailError.

(** ** models/Document.js *)
Record Signer := {
  signer_name : string;
  signer_email : string;
  signer_signed : bool;
  signer_signedAt : option Z;
  signer_signatureToken : option string;
  signer_tokenExpires : option Z }.

Record OriginalFile := {
  of_filename : string;
  of_path : string;
  of_size : Z;
  of_mimetype : string }.

Record SignedFile := {
  sf_filename : string;
  sf_path : string;
  sf_size : Z;
  sf_signedAt : Z }.

Record Metadata := {
  md_pageCount : Z;
  md_fileHash : string;
  md_lastModified : Z }.

Record Document := {
  doc_title : string;
  doc_description : string;
  doc_owner : nat;
  doc_originalFile : OriginalFile;
  doc_signedFile : option SignedFile;
  doc_status : Status;
  doc_signers : list Signer;
  doc_signatures : list nat;
  doc_metadata : Metadata;
  doc_sentAt : option Z;
  doc_signedAt : option Z;
  doc_rejectedAt : option Z;
  doc_rejectionReason : option string }.

Definition set_status (s : Status) (d : Document) : Document :=
  {| doc_title := doc_title d; doc_description := doc_description d;
     doc_owner := doc_owner d; doc_originalFile := doc_originalFile d;
     doc_signedFile := doc_signedFile d; doc_status := s; doc_signers := doc_signers d;
     doc_signatures := doc_signatures d; doc_metadata := doc_metadata d;
     doc_sentAt := doc_sentAt d; doc_signedAt := doc_signedAt d;
     doc_rejectedAt := doc_rejectedAt d; doc_rejectionReason := doc_rejectionReason d |}.

Definition set_signers (ss : list Signer) (d : Document) : Document :=
  {| doc_title := doc_title d; doc_description := doc_description d;
     doc_owner := doc_owner d; doc_originalFile := doc_originalFile d;
     doc_signedFile := doc_signedFile d; doc_status := doc_status d; doc_signers := ss;
     doc_signatures := doc_signatures d; doc_metadata := doc_metadata d;
     doc_sentAt := doc_sentAt d; doc_signedAt := doc_signedAt d;
     doc_rejectedAt := doc_rejectedAt d; doc_rejectionReason := doc_rejectionReason d |}.

Definition set_signatures (l : list nat) (d : Document) : Document :=
  {| doc_title := doc_title d; doc_description := doc_description d;
     doc_owner := doc_owner d; doc_originalFile := doc_originalFile d;
     doc_signedFile := doc_signedFile d; doc_status := doc_status d; doc_signers := doc_signers d;
     doc_signatures := l; doc_metadata := doc_metadata d;
     doc_sentAt := doc_sentAt d; doc_signedAt := doc_signedAt d;
     doc_rejectedAt := doc_rejectedAt d; doc_rejectionReason := doc_rejectionReason d |}.

Definition set_signedFile (f : option SignedFile) (d : Document) : Document :=
  {| doc_title := doc_title d; doc_description := doc_description d;
     doc_owner := doc_owner d; doc_originalFile := doc_originalFile d;
     doc_signedFile := f; doc_status := doc_status d; doc_signers := doc_signers d;
     doc_signatures := doc_signatures d; doc_metadata := doc_metadata d;
     doc_sentAt := doc_sentAt d; doc_signedAt := doc_signedAt d;
     doc_rejectedAt := doc_rejectedAt d; doc_rejectionReason := doc_rejectionReason d |}.

Definition set_title (t : string) (d : Document) : Document :=
  {| doc_title := t; doc_description := doc_description d;
     doc_owner := doc_owner d; doc_originalFile := doc_originalFile d;
     doc_signedFile := doc_signedFile d; doc_status := doc_status d; doc_signers := doc_signers d;
     doc_signatures := doc_signatures d; doc_metadata := doc_metadata d;
     doc_sentAt := doc_sentAt d; doc_signedAt := doc_signedAt d;
     doc_rejectedAt := doc_rejectedAt d; doc_rejectionReason := doc_rejectionReason d |}.

Definition set_description (t : string) (d : Document) : Document :=
  {| doc_title := doc_title d; doc_description := t;
     doc_owner := doc_owner d; doc_originalFile := doc_originalFile d;
     doc_signedFile := doc_signedFile d; doc_status := doc_status d; doc_signers := doc_signers d;
     doc_signatures := doc_signatures d; doc_metadata := doc_metadata d;
     doc_sentAt := doc_sentAt d; doc_signedAt := doc_signedAt d;
     doc_rejectedAt := doc_rejectedAt d; doc_rejectionReason := doc_rejectionReason d |}.

Definition set_rejectionReason (r : option string) (d : Document) : Document :=
  {| doc_title := doc_title d; doc_description := doc_description d;
     doc_owner := doc_owner d; doc_originalFile := doc_originalFile d;
     doc_signedFile := doc_signedFile d; doc_status := doc_status d; doc_signers := doc_signers d;
     doc_signatures := doc_signatures d; doc_metadata := doc_metadata d;
     doc_sentAt := doc_sentAt d; doc_signedAt := doc_signedAt d;
     doc_rejectedAt := doc_rejectedAt d; doc_rejectionReason := r |}.

Definition set_stamps (a b c : option Z) (d : Document) : Document :=
  {| doc_title := doc_title d; doc_description := doc_description d;
     doc_owner := doc_owner d; doc_originalFile := doc_originalFile d;
     doc_signedFile := doc_signedFile d; doc_status := doc_status d; doc_signers := doc_signers d;
     doc_signatures := doc_signatures d; doc_metadata := doc_metadata d;
     doc_sentAt := a; doc_signedAt := b; doc_rejectedAt := c;
     doc_rejectionReason := doc_rejectionReason d |}.

(** [array.find(p)]: the first element that satisfies [p]; an update of
    the object it returns changes that element of the array in place. *)
Fixpoint update_first {A} (p : A -> bool) (f : A -> A) (l : list A) : list A :=
  match l with
  | [] => []
  | x :: l' => if p x then f x :: l' else x :: update_first p f l'
  end.

Definition has_email (e : string) (s : Signer) : bool := String.eqb (signer_email s) e.

Definition seven_days_ms : Z := 7 * 24 * 60 * 60 * 1000.

Definition set_token (hashed : string) (expires : Z) (s : Signer) : Signer :=
  {| signer_name := signer_name s; signer_email := signer_email s;
     signer_signed := signer_signed s; signer_signedAt := signer_signedAt s;
     signer_signatureToken := Some hashed; signer_tokenExpires := Some expires |}.

Definition mark_signed (now : Z) (s : Signer) : Signer :=
  {| signer_name := signer_name s; signer_email := signer_email s;
     signer_signed := true; signer_signedAt := Some now;
     signer_signatureToken := signer_signatureToken s;
     signer_tokenExpires := signer_tokenExpires s |}.

(** [documentSchema.methods.generateSigningToken]; [token] is the value
    that [crypto.randomBytes(32).toString('hex')] drew. *)
Definition generateSigningToken (now : Z) (token : string) (signerEmail : string)
    (this : Document) : string * Document :=
  let hashedToken := SHA256.hex_of_string token in
  (token,
   set_signers
     (update_first (has_email signerEmail)
        (set_token hashedToken (now + seven_days_ms)) (doc_signers this))
     this).

(** [documentSchema.methods.verifySigningToken] *)
Definition verifySigningToken (now : Z) (token email : string) (this : Document) : bool :=
  let hashedToken := SHA256.hex_of_string token in
  match
    find (fun s =>
            String.eqb (signer_email s) email
            && bool_decide (signer_signatureToken s = Some hashedToken)
            && match signer_tokenExpires s with
               | Some e => now <? e
               | None => false
               end)
         (doc_signers this)
  with
  | Some _ => true
  | None => false
  end.

(** The [pre('save')] hook; [modified] is [this.isModified('status')]. *)
Definition pre_save (now : Z) (modified : bool) (this : Document) : Document :=
  if modified then
    match doc_status this, doc_sentAt this, doc_signedAt this, doc_rejectedAt this with
    | sent, None, b, c => set_stamps (Some now) b c this
    | signed, a, None, c => set_stamps a (Some now) c this
    | rejected, a, b, None => set_stamps a b (Some now) this
    | _, _, _, _ => this
    end
  else this.

(** ** models/Signature.js *)
Record Position := {
  pageNumber : option Z;
  pos_x : option Z;
  pos_y : option Z;
  pos_width : option Z;
  pos_height : option Z }.

Record Signature := {
  sig_id : nat;
  sig_documentId : nat;
  sig_signerEmail : string;
  sig_signerName : string;
  sig_signatureData : string;
  sig_signatureType : string;
  sig_pageNumber : Z;
  sig_x : Z;
  sig_y : Z;
  sig_width : option Z;
  sig_height : option Z;
  sig_ipAddress : string;
  sig_userAgent : string;
  sig_signedAt : Z;
  sig_isVerified : bool }.

(** What a controller passes to [Signature.create]. *)
Record SignatureInput := {
  in_documentId : nat;
  in_signerEmail : string;
  in_signerName : option string;
  in_signatureData : string;
  in_signatureType : option string;
  in_position : option Position;
  in_ipAddress : string;
  in_userAgent : string }.

(** The [lowercase: true] setter of [signerEmail], on ASCII letters. *)
Definition lower_ascii (c : ascii) : ascii :=
  let n := nat_of_ascii c in
  if (Nat.leb 65 n && Nat.leb n 90)%bool then ascii_of_nat (n + 32) else c.

Fixpoint toLowerCase (s : string) : string :=
  match s with
  | EmptyString => EmptyString
  | String c s' => String (lower_ascii c) (toLowerCase s')
  end.

Definition signatureTypes : list string := ["draw"; "type"; "upload"]%string.

Definition nonempty (s : string) : bool := negb (String.eqb s "").

(** The indexes that the schema declares, in the order of its
    [signatureSchema.index] calls: the pair [{ documentId: 1,
    signerEmail: 1 }] plain, [{ signedAt: -1 }], and the same pair once
    more with [unique: true]. *)
Inductive SignatureField := f_documentId | f_signerEmail | f_signedAt.

#[global] Instance SignatureField_eq_dec : EqDecision SignatureField.
Proof. solve_decision. Defined.

Record IndexSpec := {
  ix_keys : list (SignatureField * Z);
  ix_unique : bool }.

Definition pair_keys : list (SignatureField * Z) := [(f_documentId, 1); (f_signerEmail, 1)].

Definition signatureSchema_indexes : list IndexSpec :=
  [ {| ix_keys := pair_keys; ix_unique := false |};
    {| ix_keys := [(f_signedAt, -1)]; ix_unique := false |};
    {| ix_keys := pair_keys; ix_unique := true |} ].

(** [createIndex] of the database for an index declared without a name,
    as all of these are: the name is made from the keys
    ([documentId_1_signerEmail_1]), and a request under a name that the
    collection has already builds nothing, whatever its options. *)
Definition createIndex (existing : list IndexSpec) (ix : IndexSpec) : list IndexSpec :=
  if existsb (fun b => bool_decide (ix_keys b = ix_keys ix)) existing then existing
  else existing ++ [ix].

(** [Model.ensureIndexes]: one [createIndex] per declared index, in the
    order of the declarations, on the new collection. *)
Definition ensureIndexes (declared : list IndexSpec) : list IndexSpec :=
  fold_left createIndex declared [].

(** The collection holds a unique index on the pair. *)
Definition unique_index (indexes : list IndexSpec) : bool :=
  existsb (fun b => ix_unique b && bool_decide (ix_keys b = pair_keys)) indexes.

(** The key of a Signature in the index [{ documentId: 1, signerEmail: 1 }]. *)
Definition sig_key (s : Signature) : nat * string := (sig_documentId s, sig_signerEmail s).

Definition index_taken (coll : list Signature) (k : nat * string) : bool :=
  existsb (fun s => bool_decide (sig_key s = k)) coll.

(** Schema validation, defaults and the indexes of [Signature.create];
    [id] is the fresh [_id].  A key already taken is refused where the
    collection holds the unique index. *)
Definition validate_signature (now : Z) (id : nat) (coll : list Signature)
    (i : SignatureInput) : Exn + Signature :=
  let email := toLowerCase (in_signerEmail i) in
  if negb (nonempty email) then inl (ValidationError "Signer email is required") else
  match in_signerName i with
  | None => inl (ValidationError "Signer name is required")
  | Some name =>
    if negb (nonempty name) then inl (ValidationError "Signer name is required") else
    if negb (nonempty (in_signatureData i)) then
      inl (ValidationError "Path `signatureData` is required.") else
    let type := default "draw"%string (in_signatureType i) in
    if negb (bool_decide (type ∈ signatureTypes)) then
      inl (ValidationError "`signatureType` is not a valid enum value.") else
    match in_position i with
    | Some {| pageNumber := Some pg; pos_x := Some x; pos_y := Some y;
              pos_width := wd; pos_height := ht |} =>
      if pg <? 1 then inl (ValidationError "Path `position.pageNumber` is less than minimum allowed value (1).") else
      if unique_index (ensureIndexes signatureSchema_indexes)
         && index_taken coll (in_documentId i, email) then inl DuplicateKeyError else
      inr {| sig_id := id; sig_documentId := in_documentId i; sig_signerEmail := email;
             sig_signerName := name; sig_signatureData := in_signatureData i;
             sig_signatureType := type; sig_pageNumber := pg; sig_x := x; sig_y := y;
             sig_width := wd; sig_height := ht; sig_ipAddress := in_ipAddress i;
             sig_userAgent := in_userAgent i; sig_signedAt := now; sig_isVerified := true |}
    | _ => inl (ValidationError "Path `position` is required.")
    end
  end.

(** ** models/AuditLog.js *)
Record AuditData := {
  ad_userId : option nat;
  ad_documentId : option nat;
  ad_action : string;
  ad_status : option string }.

Record AuditLogEntry := {
  al_userId : nat;
  al_documentId : nat;
  al_action : string;
  al_timestamp : Z;
  al_status : string }.

Definition auditActions : list string :=
  ["document_created"; "document_updated"; "document_viewed"; "document_sent";
   "document_signed"; "document_rejected"; "signature_added"; "signature_removed";
   "email_sent"; "token_generated"; "token_verified"]%string.

Definition auditStatuses : list string := ["success"; "failure"; "pending"]%string.

(** [AuditLog.create(data)]: [userId], [documentId] and [action] are
    [required: true]; [action] and [status] are enumerations. *)
Definition AuditLog_create (now : Z) (data : AuditData) : Exn + AuditLogEntry :=
  match ad_userId data, ad_documentId data with
  | Some u, Some d =>
    let st := default "success"%string (ad_status data) in
    if bool_decide (ad_action data ∈ auditActions) && bool_decide (st ∈ auditStatuses)
    then inr {| al_userId := u; al_documentId := d; al_action := ad_action data;
                al_timestamp := now; al_status := st |}
    else inl (ValidationError "AuditLog validation failed")
  | None, _ => inl (ValidationError "Path `userId` is required.")
  | _, None => inl (ValidationError "Path `documentId` is required.")
  end.

(** [auditLogSchema.statics.log]: the [try]/[catch] swallows the error and
    the collection is left as it was. *)
Definition AuditLog_log (now : Z) (data : AuditData) (coll : list AuditLogEntry)
    : list AuditLogEntry :=
  match AuditLog_create now data with
  | inr entry => coll ++ [entry]
  | inl _ => coll
  end.

(** ** services/tokenService.js

    [tokenStore] is a JavaScript [Map]: keys are unique, iteration follows
    insertion order, [set] on a present key keeps its place. *)
Module JSMap.
Section map.
Context {V : Type}.

Fixpoint get (k : string) (m : list (string * V)) : option V :=
  match m with
  | [] => None
  | (k', v) :: m' => if String.eqb k' k then Some v else get k m'
  end.

Fixpoint set (k : string) (v : V) (m : list (string * V)) : list (string * V) :=
  match m with
  | [] => [(k, v)]
  | (k', v') :: m' => if String.eqb k' k then (k, v) :: m' else (k', v') :: set k v m'
  end.

Fixpoint delete (k : string) (m : list (string * V)) : list (string * V) :=
  match m with
  | [] => []
  | (k', v) :: m' => if String.eqb k' k then delete k m' else (k', v) :: delete k m'
  end.
End map.
End JSMap.

Record TokenData := {
  td_documentId : ObjectId;
  td_email : string;
  td_expiresAt : Z;
  td_used : bool }.

Definition set_used (d : TokenData) : TokenData :=
  {| td_documentId := td_documentId d; td_email := td_email d;
     td_expiresAt := td_expiresAt d; td_used := true |}.

Module TokenService.

Definition default_expiry : Z := 7 * 24 * 60 * 60.

(** [storeToken(token, data, expiryInSeconds)] with
    [data = { documentId, email }]. *)
Definition storeToken (now : Z) (token : string) (documentId : ObjectId) (email : string)
    (expiryInSeconds : Z) (tokenStore : list (string * TokenData))
    : string * list (string * TokenData) :=
  let expiresAt := now + expiryInSeconds * 1000 in
  (token,
   JSMap.set token
     {| td_documentId := documentId; td_email := email;
        td_expiresAt := expiresAt; td_used := false |}
     tokenStore).

(** [verifyToken(token)] *)
Definition verifyToken (now : Z) (token : string) (tokenStore : list (string * TokenData))
    : option (ObjectId * string) * list (string * TokenData) :=
  match JSMap.get token tokenStore with
  | None => (None, tokenStore)
  | Some tokenData =>
    if td_expiresAt tokenData <? now then (None, JSMap.delete token tokenStore)
    else if td_used tokenData then (None, tokenStore)
    else (Some (td_documentId tokenData, td_email tokenData), tokenStore)
  end.

(** [invalidateToken(token)] *)
Definition invalidateToken (token : string) (tokenStore : list (string * TokenData))
    : list (string * TokenData) :=
  match JSMap.get token tokenStore with
  | Some tokenData => JSMap.set token (set_used tokenData) tokenStore
  | None => tokenStore
  end.

(** [getToken(documentId, email)]: the loop over [entries()] with
    [data.documentId === documentId]. *)
Fixpoint getToken (documentId : ObjectId) (email : string)
    (tokenStore : list (string * TokenData)) : option string :=
  match tokenStore with
  | [] => None
  | (token, data) :: rest =>
    if strict_eq (td_documentId data) documentId
       && String.eqb (td_email data) email
       && negb (td_used data)
    then Some token
    else getToken documentId email rest
  end.

(** [cleanupExpiredTokens()], run by [setInterval] every hour. *)
Definition cleanupExpiredTokens (now : Z) (tokenStore : list (string * TokenData))
    : list (string * TokenData) :=
  fold_left
    (fun store e => if td_expiresAt e.2 <? now then JSMap.delete e.1 store else store)
    tokenStore tokenStore.

(** [generateSigningUrl(token, baseUrl)] *)
Definition generateSigningUrl (token baseUrl : string) : string :=
  String.append baseUrl (String.append "/api/sign/" token).

End TokenService.

(** ** The running service *)

(** Mail handed to the transport by [emailService].  The owner of a
    document loaded with [findById] is an unpopulated [ObjectId], so the
    recipient [document.owner.email] of the owner notifications is
    [undefined]. *)
Inductive Email :=
  | SigningRequest (to signerName documentName signingUrl senderName : string)
  | DocumentSignedNotification (to : option string) (documentName signedBy : string)
  | RejectionNotification (to : option string) (documentName : string)
      (reason : option string) (rejectedBy : string).

(** What a request reads from outside the service: the clock, the random
    source, [process.env.BASE_URL], the pdf-lib library and the mail
    transport ([None] and [false] are a throw). *)
Record Env := {
  now : Z;
  randomBytes : nat -> string;
  BASE_URL : string;
  pdf_pageCount : list byte -> option Z;
  pdflib : list byte -> list Signature -> option (list byte);
  sendMail : Email -> bool }.

Record Ctx := { ip : string; userAgent : string }.

(** The collections of the database, the token map of the process, the
    upload directory, the mail that went out, and the two allocators:
    [next_oid] for new [_id] values, [next_ref] for new [ObjectId]
    objects. *)
Record World := {
  documents : gmap nat Document;
  signatures : list Signature;
  auditLogs : list AuditLogEntry;
  tokenStore : list (string * TokenData);
  files : gmap string (list byte);
  outbox : list Email;
  next_oid : nat;
  next_ref : nat }.

Definition with_documents (m : gmap nat Document) (w : World) : World :=
  {| documents := m; signatures := signatures w; auditLogs := auditLogs w;
     tokenStore := tokenStore w; files := files w; outbox := outbox w;
     next_oid := next_oid w; next_ref := next_ref w |}.

Definition with_signatures (l : list Signature) (w : World) : World :=
  {| documents := documents w; signatures := l; auditLogs := auditLogs w;
     tokenStore := tokenStore w; files := files w; outbox := outbox w;
     next_oid := next_oid w; next_ref := next_ref w |}.

Definition with_auditLogs (l : list AuditLogEntry) (w : World) : World :=
  {| documents := documents w; signatures := signatures w; auditLogs := l;
     tokenStore := tokenStore w; files := files w; outbox := outbox w;
     next_oid := next_oid w; next_ref := next_ref w |}.

Definition with_tokenStore (l : list (string * TokenData)) (w : World) : World :=
  {| documents := documents w; signatures := signatures w; auditLogs := auditLogs w;
     tokenStore := l; files := files w; outbox := outbox w;
     next_oid := next_oid w; next_ref := next_ref w |}.

Definition with_files (m : gmap string (list byte)) (w : World) : World :=
  {| documents := documents w; signatures := signatures w; auditLogs := auditLogs w;
     tokenStore := tokenStore w; files := m; outbox := outbox w;
     next_oid := next_oid w; next_ref := next_ref w |}.

Definition with_outbox (l : list Email) (w : World) : World :=
  {| documents := documents w; signatures := signatures w; auditLogs := auditLogs w;
     tokenStore := tokenStore w; files := files w; outbox := l;
     next_oid := next_oid w; next_ref := next_ref w |}.

Definition with_next_oid (n : nat) (w : World) : World :=
  {| documents := documents w; signatures := signatures w; auditLogs := auditLogs w;
     tokenStore := tokenStore w; files := files w; outbox := outbox w;
     next_oid := n; next_ref := next_ref w |}.

Definition with_next_ref (n : nat) (w : World) : World :=
  {| documents := documents w; signatures := signatures w; auditLogs := auditLogs w;
     tokenStore := tokenStore w; files := files w; outbox := outbox w;
     next_oid := next_oid w; next_ref := n |}.

(** [Document.findById(id)]: the stored document, hydrated behind a new
    [ObjectId] object. *)
Definition findById (id : nat) (w : World) : option (ObjectId * Document) * World :=
  match documents w !! id with
  | Some d => (Some ({| oid_ref := next_ref w; oid_val := id |}, d),
               with_next_ref (S (next_ref w)) w)
  | None => (None, w)
  end.

(** [document.save()] of the document whose [_id] denotes [id]: the
    [pre('save')] hook, then the write. *)
Definition save (t : Z) (id : nat) (document : Document) (w : World) : Document * World :=
  let modified :=
    match documents w !! id with
    | Some stored => negb (status_eqb (doc_status stored) (doc_status document))
    | None => true
    end in
  let document := pre_save t modified document in
  (document, with_documents (<[id := document]> (documents w)) w).

(** [AuditLog.log(data)] from a controller. *)
Definition log (t : Z) (data : AuditData) (w : World) : World :=
  with_auditLogs (AuditLog_log t data (auditLogs w)) w.

(** [Signature.create(input)] *)
Definition Signature_create (t : Z) (i : SignatureInput) (w : World)
    : (Exn + Signature) * World :=
  match validate_signature t (next_oid w) (signatures w) i with
  | inl e => (inl e, w)
  | inr s => (inr s, with_next_oid (S (next_oid w)) (with_signatures (signatures w ++ [s]) w))
  end.

(** A send through [transporter.sendMail]; [emailService] rethrows. *)
Definition deliver (env : Env) (m : Email) (w : World) : option Exn * World :=
  if sendMail env m then (None, with_outbox (outbox w ++ [m]) w)
  else (Some MailError, w).

(** ** services/pdfService.js *)

(** An element of the [signatures] argument of [generateSignedPDF]: a
    hydrated Signature document, or a bare [ObjectId] as the array
    [document.signatures] holds them. *)
Inductive SigArg :=
  | SigId (id : nat)
  | SigDoc (s : Signature).

(** [const { position, ... } = signature]: [None] is [undefined], on which
    [position.pageNumber] throws. *)
Definition destructure (a : SigArg) : option Signature :=
  match a with
  | SigId _ => None
  | SigDoc s => Some s
  end.

Definition pdfError : Exn := AppError "Error generating signed PDF" 500.

(** [getPDFMetadata(filePath)], reduced to the page count. *)
Definition getPDFMetadata (env : Env) (filePath : string) (fs : gmap string (list byte))
    : Exn + Z :=
  match fs !! filePath with
  | None => inl (AppError "Error reading PDF file" 500)
  | Some pdfBytes =>
    match pdf_pageCount env pdfBytes with
    | None => inl (AppError "Error reading PDF file" 500)
    | Some n => inr n
    end
  end.

(** [generateSignedPDF(originalPath, signatures)]: every throw inside the
    outer [try] comes out as the same [AppError]. *)
Definition generateSignedPDF (env : Env) (originalPath : string) (sigs : list SigArg)
    (fs : gmap string (list byte)) : (Exn + string) * gmap string (list byte) :=
  match fs !! originalPath with
  | None => (inl pdfError, fs)
  | Some pdfBytes =>
    match mapM destructure sigs with
    | None => (inl pdfError, fs)
    | Some populated =>
      match pdflib env pdfBytes populated with
      | None => (inl pdfError, fs)
      | Some modifiedPdfBytes =>
        let tempPath :=
          String.append "uploads/signed/temp-" (String.append (pretty (now env)) ".pdf") in
        (inr tempPath, <[tempPath := modifiedPdfBytes]> fs)
      end
    end
  end.

(** ** Responses *)
Inductive Payload :=
  | PDocument (d : Document)
  | PSigned (s : Signature) (d : Document)
  | PNull
  | PFile (path : string)
  | PSignatureInfo (title : string) (signer : Signer) (st : Status)
  | PVerification (s : Signature) (isValid documentIntact : bool).

(** [res.status(code).json(formatSuccess(data))], or [next(err)]. *)
Inductive Response :=
  | Ok (statusCode : Z) (data : Payload)
  | Err (e : Exn).

Definition owns (user : User) (document : Document) : bool :=
  Nat.eqb (doc_owner document) (user_id user)
  || match user_role user with role_admin => true | role_user => false end.

(** [checkDocumentOwnership] of the authentication middleware: what the
    document routes run before the controller, leaving [req.document]. *)
Definition checkDocumentOwnership (user : User) (id : nat) (w : World)
    : (Exn + ObjectId * Document) * World :=
  match findById id w with
  | (None, w) => (inl (AppError "Document not found." 404), w)
  | (Some (oid, document), w) =>
    if owns user document then (inr (oid, document), w)
    else (inl (AppError "You do not have permission to access this document." 403), w)
  end.

(** The [signers] field of a request body: absent, a string that
    [JSON.parse] rejects, or a list of signer entries. *)
Inductive SignersField :=
  | SignersAbsent
  | SignersMalformed
  | SignersGiven (l : list Signer).

(** [req.file] of a document upload; multer has written [uf_content] at
    [uf_path] when the controller runs. *)
Record UploadedFile := {
  uf_filename : string;
  uf_path : string;
  uf_size : Z;
  uf_mimetype : string;
  uf_content : list byte }.

Module documentController.

(** The loop [for (const signer of document.signers)] of [uploadDocument];
    [i] counts the draws from the random source. *)
Fixpoint mintTokens (env : Env) (oid : ObjectId) (emails : list string) (i : nat)
    (document : Document) (store : list (string * TokenData))
    : Document * list (string * TokenData) :=
  match emails with
  | [] => (document, store)
  | email :: rest =>
    let '(token, document) := generateSigningToken (now env) (randomBytes env i) email document in
    let '(_, store) :=
      TokenService.storeToken (now env) token oid email TokenService.default_expiry store in
    mintTokens env oid rest (S i) document store
  end.

Definition uploadDocument (env : Env) (ctx : Ctx) (user : User)
    (file : option UploadedFile) (title description : string) (signers : SignersField)
    (w : World) : Response * World :=
  match file with
  | None => (Err (AppError "Please upload a document file." 400), w)
  | Some file =>
    match signers with
    | SignersMalformed => (Err (AppError "Invalid signers format." 400), w)
    | _ =>
      let signersArray := match signers with SignersGiven l => l | _ => [] end in
      match getPDFMetadata env (uf_path file) (files w) with
      | inl e => (Err e, w)
      | inr pageCount =>
        let fileHash := SHA256.hex (default [] (files w !! uf_path file)) in
        let oid := {| oid_ref := next_ref w; oid_val := next_oid w |} in
        let w := with_next_ref (S (next_ref w)) (with_next_oid (S (next_oid w)) w) in
        let '(document, w) :=
          save (now env) (oid_val oid)
            {| doc_title := title; doc_description := description;
               doc_owner := user_id user;
               doc_originalFile :=
                 {| of_filename := uf_filename file; of_path := uf_path file;
                    of_size := uf_size file; of_mimetype := uf_mimetype file |};
               doc_signedFile := None; doc_status := draft; doc_signers := signersArray;
               doc_signatures := [];
               doc_metadata :=
                 {| md_pageCount := pageCount; md_fileHash := fileHash;
                    md_lastModified := now env |};
               doc_sentAt := None; doc_signedAt := None; doc_rejectedAt := None;
               doc_rejectionReason := None |} w in
        let '(document, store) :=
          mintTokens env oid (signer_email <$> doc_signers document) 0 document (tokenStore w) in
        let w := with_tokenStore store w in
        let '(document, w) := save (now env) (oid_val oid) document w in
        let w :=
          log (now env)
            {| ad_userId := Some (user_id user); ad_documentId := Some (oid_val oid);
               ad_action := "document_created"; ad_status := None |} w in
        (Ok 201 (PDocument document), w)
      end
    end
  end.

Definition getDocument (env : Env) (ctx : Ctx) (user : User) (id : nat) (w : World)
    : Response * World :=
  match findById id w with
  | (None, w) => (Err (AppError "Document not found." 404), w)
  | (Some (oid, document), w) =>
    if negb (owns user document) then
      (Err (AppError "You do not have permission to view this document." 403), w)
    else
      let w :=
        log (now env)
          {| ad_userId := Some (user_id user); ad_documentId := Some (oid_val oid);
             ad_action := "document_viewed"; ad_status := None |} w in
      (Ok 200 (PDocument document), w)
  end.

Definition updateDocument (env : Env) (ctx : Ctx) (user : User)
    (title description : option string) (signers : SignersField)
    (oid : ObjectId) (document : Document) (w : World) : Response * World :=
  if negb (status_eqb (doc_status document) draft) then
    (Err (AppError "Cannot update document after it has been sent." 400), w)
  else
    let document :=
      match title with
      | Some t => if nonempty t then set_title t document else document
      | None => document
      end in
    let document :=
      match description with
      | Some t => if nonempty t then set_description t document else document
      | None => document
      end in
    match signers with
    | SignersMalformed => (Err (AppError "Invalid signers format." 400), w)
    | _ =>
      let document :=
        match signers with SignersGiven l => set_signers l document | _ => document end in
      let '(document, w) := save (now env) (oid_val oid) document w in
      let w :=
        log (now env)
          {| ad_userId := Some (user_id user); ad_documentId := Some (oid_val oid);
             ad_action := "document_updated"; ad_status := None |} w in
      (Ok 200 (PDocument document), w)
    end.

Definition signingUrl (env : Env) (token : option string) : string :=
  String.append (BASE_URL env) (String.append "/api/sign/" (default "null"%string token)).

(** The loop [for (const signer of document.signers)] of [sendDocument]. *)
Fixpoint sendRequests (env : Env) (user : User) (oid : ObjectId) (document : Document)
    (signers : list Signer) (w : World) : option Exn * World :=
  match signers with
  | [] => (None, w)
  | signer :: rest =>
    let token := TokenService.getToken oid (signer_email signer) (tokenStore w) in
    match deliver env
            (SigningRequest (signer_email signer) (signer_name signer) (doc_title document)
               (signingUrl env token) (user_name user)) w with
    | (Some e, w) => (Some e, w)
    | (None, w) => sendRequests env user oid document rest w
    end
  end.

Definition sendDocument (env : Env) (ctx : Ctx) (user : User)
    (oid : ObjectId) (document : Document) (w : World) : Response * World :=
  if negb (status_eqb (doc_status document) draft) then
    (Err (AppError "Document has already been sent or signed." 400), w)
  else
    match doc_signers document with
    | [] => (Err (AppError "Please add at least one signer before sending." 400), w)
    | _ =>
      let '(document, w) := save (now env) (oid_val oid) (set_status sent document) w in
      match sendRequests env user oid document (doc_signers document) w with
      | (Some e, w) => (Err e, w)
      | (None, w) =>
        let w :=
          log (now env)
            {| ad_userId := Some (user_id user); ad_documentId := Some (oid_val oid);
               ad_action := "document_sent"; ad_status := None |} w in
        (Ok 200 (PDocument document), w)
      end
    end.

Definition rejectDocument (env : Env) (ctx : Ctx) (user : User) (reason : option string)
    (oid : ObjectId) (document : Document) (w : World) : Response * World :=
  if negb (status_eqb (doc_status document) sent) then
    (Err (AppError "Document must be in sent status to reject." 400), w)
  else
    let '(document, w) :=
      save (now env) (oid_val oid) (set_rejectionReason reason (set_status rejected document)) w in
    match deliver env
            (RejectionNotification None (doc_title document) reason (user_email user)) w with
    | (Some e, w) => (Err e, w)
    | (None, w) =>
      let w :=
        log (now env)
          {| ad_userId := Some (user_id user); ad_documentId := Some (oid_val oid);
             ad_action := "document_rejected"; ad_status := None |} w in
      (Ok 200 (PDocument document), w)
    end.

Definition downloadDocument (env : Env) (ctx : Ctx) (user : User) (id : nat) (w : World)
    : Response * World :=
  match findById id w with
  | (None, w) => (Err (AppError "Document not found." 404), w)
  | (Some (oid, document), w) =>
    if negb (owns user document) then
      (Err (AppError "You do not have permission to download this document." 403), w)
    else
      let filePath :=
        match doc_status document with
        | signed => sf_path <$> doc_signedFile document
        | _ => Some (of_path (doc_originalFile document))
        end in
      match filePath ≫= fun path => files w !! path with
      | None => (Err (AppError "Document file not found." 404), w)
      | Some _ =>
        let w :=
          log (now env)
            {| ad_userId := Some (user_id user); ad_documentId := Some (oid_val oid);
               ad_action := "document_downloaded"; ad_status := None |} w in
        (Ok 200 (PFile (default ""%string filePath)), w)
      end
  end.

(** The two [fs.unlinkSync] calls inside the [try] of [deleteDocument]: a
    missing file throws and the [catch] skips what is left. *)
Definition unlinkFiles (document : Document) (fs : gmap string (list byte))
    : gmap string (list byte) :=
  let original := of_path (doc_originalFile document) in
  match fs !! original with
  | None => fs
  | Some _ =>
    let fs := delete original fs in
    match doc_signedFile document with
    | Some f => delete (sf_path f) fs
    | None => fs
    end
  end.

Definition deleteDocument (env : Env) (ctx : Ctx) (user : User)
    (oid : ObjectId) (document : Document) (w : World) : Response * World :=
  if negb (status_eqb (doc_status document) draft) then
    (Err (AppError "Cannot delete document after it has been sent." 400), w)
  else
    let w := with_files (unlinkFiles document (files w)) w in
    let w := with_documents (delete (oid_val oid) (documents w)) w in
    let w :=
      log (now env)
        {| ad_userId := Some (user_id user); ad_documentId := Some (oid_val oid);
           ad_action := "document_deleted"; ad_status := None |} w in
    (Ok 200 PNull, w).

End documentController.

Module signatureController.

(** [!position || !position.pageNumber || position.x === undefined ||
    position.y === undefined].  The body comes with the uploaded image,
    as form fields: a page number that was given is a non-empty string,
    which is truthy whatever number it spells. *)
Definition position_missing (position : option Position) : bool :=
  match position with
  | None => true
  | Some p =>
    match pageNumber p with
    | None => true
    | Some _ => bool_decide (pos_x p = None) || bool_decide (pos_y p = None)
    end
  end.

(** The image of the signature: the uploaded file, read as base64, or
    else [signatureData] of the body when it is a non-empty string. *)
Definition signature_source (file signatureData : option string) : option string :=
  match file with
  | Some base64 => Some base64
  | None =>
    match signatureData with
    | Some d => if nonempty d then Some d else None
    | None => None
    end
  end.

(** [a || b] on an optional string: [b] when [a] is missing or empty. *)
Definition or_else (a : option string) (b : string) : string :=
  match a with
  | Some x => if nonempty x then x else b
  | None => b
  end.

(** The block both controllers run after the first [document.save()]:
    the all-signed check, the final PDF, the second save and the mail to
    the owner.  It gives [allSigned], the document and the error thrown,
    if any. *)
Definition finalize (env : Env) (oid : ObjectId) (document : Document) (w : World)
    : option Exn * bool * Document * World :=
  let allSigned := forallb signer_signed (doc_signers document) in
  if allSigned then
    match generateSignedPDF env (of_path (doc_originalFile document))
            (SigId <$> doc_signatures document) (files w) with
    | (inl e, _) => (Some e, allSigned, document, w)
    | (inr signedPdfPath, fs) =>
      let w := with_files fs w in
      let signedFilename := String.append "signed-" (String.append (pretty (now env)) ".pdf") in
      let signedFilepath := String.append "uploads/signed/" signedFilename in
      let content := default [] (files w !! signedPdfPath) in
      let w := with_files (<[signedFilepath := content]> (files w)) w in
      let document :=
        set_status signed
          (set_signedFile
             (Some {| sf_filename := signedFilename; sf_path := signedFilepath;
                      sf_size := Z.of_nat (length content); sf_signedAt := now env |})
             document) in
      let '(document, w) := save (now env) (oid_val oid) document w in
      match deliver env
              (DocumentSignedNotification None (doc_title document)
                 (String.concat ", " (signer_name <$> doc_signers document))) w with
      | (Some e, w) => (Some e, allSigned, document, w)
      | (None, w) => (None, allSigned, document, w)
      end
    end
  else (None, allSigned, document, w).

Record SignBody := {
  b_documentId : nat;
  b_signerEmail : string;
  b_signerName : option string;
  b_name : option string;
  b_position : option Position;
  b_signatureType : option string;
  b_signatureData : option string }.

Definition addSignature (env : Env) (ctx : Ctx) (user : option User)
    (file : option string) (body : SignBody) (w : World) : Response * World :=
  match findById (b_documentId body) w with
  | (None, w) => (Err (AppError "Document not found." 404), w)
  | (Some (oid, document), w) =>
    if negb (status_eqb (doc_status document) sent) then
      (Err (AppError "Document is not ready for signing." 400), w)
    else
      match find (has_email (b_signerEmail body)) (doc_signers document) with
      | None => (Err (AppError "You are not authorized to sign this document." 403), w)
      | Some signer =>
        if signer_signed signer then
          (Err (AppError "You have already signed this document." 400), w)
        else if position_missing (b_position body) then
          (Err (AppError "Signature position is required." 400), w)
        else
          match signature_source file (b_signatureData body) with
          | None => (Err (AppError "Signature data is required." 400), w)
          | Some signatureData =>
            match Signature_create (now env)
                    {| in_documentId := oid_val oid; in_signerEmail := b_signerEmail body;
                       in_signerName := b_signerName body; in_signatureData := signatureData;
                       in_signatureType := b_signatureType body;
                       in_position := b_position body;
                       in_ipAddress := ip ctx; in_userAgent := userAgent ctx |} w with
            | (inl e, w) => (Err e, w)
            | (inr signature, w) =>
              let document :=
                set_signers
                  (update_first (has_email (b_signerEmail body)) (mark_signed (now env))
                     (doc_signers document))
                  (set_signatures (doc_signatures document ++ [sig_id signature]) document) in
              let '(document, w) := save (now env) (oid_val oid) document w in
              match finalize env oid document w with
              | (Some e, _, _, w) => (Err e, w)
              | (None, allSigned, document, w) =>
                let w :=
                  log (now env)
                    {| ad_userId := user_id <$> user; ad_documentId := Some (oid_val oid);
                       ad_action := "signature_added"; ad_status := None |} w in
                (Ok 201 (PSigned signature document), w)
              end
            end
          end
      end
  end.

Definition signWithToken (env : Env) (ctx : Ctx) (token : string)
    (file : option string) (body : SignBody) (w : World) : Response * World :=
  match TokenService.verifyToken (now env) token (tokenStore w) with
  | (None, store) => (Err (AppError "Invalid or expired token." 400), with_tokenStore store w)
  | (Some (documentId, email), store) =>
    let w := with_tokenStore store w in
    match findById (oid_val documentId) w with
    | (None, w) => (Err (AppError "Document not found." 404), w)
    | (Some (oid, document), w) =>
      if negb (status_eqb (doc_status document) sent) then
        (Err (AppError "Document is not ready for signing." 400), w)
      else
        match find (has_email email) (doc_signers document) with
        | None => (Err (AppError "You are not authorized to sign this document." 403), w)
        | Some signer =>
          if signer_signed signer then
            (Err (AppError "You have already signed this document." 400), w)
          else
            match signature_source file (b_signatureData body) with
            | None => (Err (AppError "Signature data is required." 400), w)
            | Some signatureImageData =>
              match Signature_create (now env)
                      {| in_documentId := oid_val oid; in_signerEmail := email;
                         in_signerName := Some (or_else (b_name body) (signer_name signer));
                         in_signatureData := signatureImageData;
                         in_signatureType := Some (or_else (b_signatureType body) "draw");
                         in_position := b_position body;
                         in_ipAddress := ip ctx; in_userAgent := userAgent ctx |} w with
              | (inl e, w) => (Err e, w)
              | (inr signature, w) =>
                let document :=
                  set_signers
                    (update_first (has_email email) (mark_signed (now env))
                       (doc_signers document))
                    (set_signatures (doc_signatures document ++ [sig_id signature]) document) in
                let w := with_tokenStore (TokenService.invalidateToken token (tokenStore w)) w in
                let '(document, w) := save (now env) (oid_val oid) document w in
                match finalize env oid document w with
                | (Some e, _, _, w) => (Err e, w)
                | (None, allSigned, document, w) =>
                  let w :=
                    log (now env)
                      {| ad_userId := None; ad_documentId := Some (oid_val oid);
                         ad_action := "signature_added"; ad_status := None |} w in
                  (Ok 201 (PSigned signature document), w)
                end
              end
            end
        end
    end
  end.

Definition getSignatureInfo (env : Env) (token : string) (w : World) : Response * World :=
  match TokenService.verifyToken (now env) token (tokenStore w) with
  | (None, store) => (Err (AppError "Invalid or expired token." 400), with_tokenStore store w)
  | (Some (documentId, email), store) =>
    let w := with_tokenStore store w in
    match findById (oid_val documentId) w with
    | (None, w) => (Err (AppError "Document not found." 404), w)
    | (Some (oid, document), w) =>
      match find (has_email email) (doc_signers document) with
      | None => (Err TypeError, w)
      | Some signer =>
        (Ok 200 (PSignatureInfo (doc_title document) signer (doc_status document)), w)
      end
    end
  end.

(** The integrity check of [verifySignature]: with a signed file, the
    SHA-256 of the bytes at [signedFile.path] against
    [metadata.fileHash]; [None] when reading the file throws. *)
Definition documentIntact (document : Document) (fs : gmap string (list byte))
    : option bool :=
  match doc_signedFile document with
  | Some f =>
    match fs !! sf_path f with
    | Some fileBuffer =>
      let currentHash := SHA256.hex fileBuffer in
      Some (String.eqb currentHash (md_fileHash (doc_metadata document)))
    | None => None
    end
  | None => Some true
  end.

Definition verifySignature (signatureId : nat) (w : World) : Response * World :=
  match find (fun s => Nat.eqb (sig_id s) signatureId) (signatures w) with
  | None => (Err (AppError "Signature not found." 404), w)
  | Some signature =>
    match documents w !! sig_documentId signature with
    | None => (Err TypeError, w)
    | Some document =>
      match documentIntact document (files w) with
      | None => (Err (SystemError "ENOENT"), w)
      | Some isDocumentIntact =>
        (Ok 200 (PVerification signature
                   (sig_isVerified signature && isDocumentIntact) isDocumentIntact), w)
      end
    end
  end.

End signatureController.

(** ** routes/documentRoutes.js, routes/signatureRoutes.js

    A request as it reaches a route, with the identity that [protect]
    resolved.  [Sweep] is the hourly timer of the token service. *)
Inductive Request :=
  | UploadDocument (user : User) (file : option UploadedFile)
      (title description : string) (signers : SignersField)
  | GetDocument (user : User) (id : nat)
  | UpdateDocument (user : User) (id : nat) (title description : option string)
      (signers : SignersField)
  | DeleteDocument (user : User) (id : nat)
  | SendDocument (user : User) (id : nat)
  | RejectDocument (user : User) (id : nat) (reason : option string)
  | DownloadDocument (user : User) (id : nat)
  | GetSignatureInfo (token : string)
  | SignWithToken (token : string) (file : option string)
      (body : signatureController.SignBody)
  | AddSignature (user : User) (file : option string)
      (body : signatureController.SignBody)
  | VerifySignature (user : User) (signatureId : nat)
  | Sweep.

(** A controller behind [checkDocumentOwnership]. *)
Definition owned (user : User) (id : nat)
    (k : ObjectId -> Document -> World -> Response * World) (w : World)
    : Response * World :=
  match checkDocumentOwnership user id w with
  | (inl e, w) => (Err e, w)
  | (inr (oid, document), w) => k oid document w
  end.

(** A controller behind the [uploadSignature] middleware. *)
Definition withSignatureUpload (file : option string)
    (k : World -> Response * World) (w : World) : Response * World :=
  match file with
  | None => (Err (AppError "Please upload a signature image." 400), w)
  | Some _ => k w
  end.

(** A controller behind the [uploadDocument] middleware, whose disk
    storage writes the file. *)
Definition withDocumentUpload (file : option UploadedFile)
    (k : World -> Response * World) (w : World) : Response * World :=
  match file with
  | None => (Err (AppError "Please upload a document." 400), w)
  | Some f => k (with_files (<[uf_path f := uf_content f]> (files w)) w)
  end.

Definition handle (env : Env) (ctx : Ctx) (req : Request) (w : World) : Response * World :=
  match req with
  | UploadDocument user file title description signers =>
      withDocumentUpload file
        (documentController.uploadDocument env ctx user file title description signers) w
  | GetDocument user id => documentController.getDocument env ctx user id w
  | UpdateDocument user id title description signers =>
      owned user id (documentController.updateDocument env ctx user title description signers) w
  | DeleteDocument user id => owned user id (documentController.deleteDocument env ctx user) w
  | SendDocument user id => owned user id (documentController.sendDocument env ctx user) w
  | RejectDocument user id reason =>
      owned user id (documentController.rejectDocument env ctx user reason) w
  | DownloadDocument user id => documentController.downloadDocument env ctx user id w
  | GetSignatureInfo token => signatureController.getSignatureInfo env token w
  | SignWithToken token file body =>
      withSignatureUpload file (signatureController.signWithToken env ctx token file body) w
  | AddSignature user file body =>
      withSignatureUpload file
        (signatureController.addSignature env ctx (Some user) file body) w
  | VerifySignature user signatureId => signatureController.verifySignature signatureId w
  | Sweep =>
      (Ok 200 PNull,
       with_tokenStore (TokenService.cleanupExpiredTokens (now env) (tokenStore w)) w)
  end.

(** The service at start-up: empty collections, empty token map. *)
Definition start (fs : gmap string (list byte)) : World :=
  {| documents := ∅; signatures := []; auditLogs := []; tokenStore := [];
     files := fs; outbox := []; next_oid := 0; next_ref := 0 |}.

(** A run of the service: requests served one after the other. *)
Fixpoint run (reqs : list (Env * Ctx * Request)) (w : World) : World :=
  match reqs with
  | [] => w
  | (env, ctx, req) :: rest => run rest (handle env ctx req w).2
  end.

Inductive reachable : World -> Prop :=
  | reach_start fs : reachable (start fs)
  | reach_step env ctx req w : reachable w -> reachable (handle env ctx req w).2.

(** ** A scenario

    Alice uploads a three-byte file with Bob and Carol as signers and
    sends it; Bob, then Carol, sign with their tokens. *)
Module Scenario.

Definition env0 : Env :=
  {| now := 1000;
     randomBytes := fun i => String.append "c0ffee" (pretty i);
     BASE_URL := "https://sign.example";
     pdf_pageCount := fun _ => Some 1;
     pdflib := fun pdfBytes _ => Some (app pdfBytes [Byte.x21]);
     sendMail := fun _ => true |}.

Definition ctx0 : Ctx := {| ip := "10.0.0.1"; userAgent := "agent" |}.

Definition alice : User :=
  {| user_id := 7; user_role := role_user; user_name := "Alice";
     user_email := "alice@example.org" |}.

Definition bob : Signer :=
  {| signer_name := "Bob"; signer_email := "bob@example.org"; signer_signed := false;
     signer_signedAt := None; signer_signatureToken := None; signer_tokenExpires := None |}.

Definition carol : Signer :=
  {| signer_name := "Carol"; signer_email := "carol@example.org"; signer_signed := false;
     signer_signedAt := None; signer_signatureToken := None; signer_tokenExpires := None |}.

Definition abc : list byte := [Byte.x41; Byte.x42; Byte.x43].

Definition pdf0 : UploadedFile :=
  {| uf_filename := "document-1.pdf"; uf_path := "uploads/original/document-1.pdf";
     uf_size := 3; uf_mimetype := "application/pdf"; uf_content := abc |}.

Definition upload : Request :=
  UploadDocument alice (Some pdf0) "Contract" "Lease" (SignersGiven [bob; carol]).

Definition position0 : Position :=
  {| pageNumber := Some 1; pos_x := Some 10; pos_y := Some 20;
     pos_width := None; pos_height := None |}.

Definition body0 : signatureController.SignBody :=
  {| signatureController.b_documentId := 0;
     signatureController.b_signerEmail := "bob@example.org";
     signatureController.b_signerName := Some "Bob"%string;
     signatureController.b_name := None;
     signatureController.b_position := Some position0;
     signatureController.b_signatureType := None;
     signatureController.b_signatureData := None |}.

Definition body1 : signatureController.SignBody :=
  {| signatureController.b_documentId := 0;
     signatureController.b_signerEmail := "carol@example.org";
     signatureController.b_signerName := Some "Carol"%string;
     signatureController.b_name := None;
     signatureController.b_position := Some position0;
     signatureController.b_signatureType := None;
     signatureController.b_signatureData := None |}.

(** The tokens are the two draws of the upload. *)
Definition token0 : string := "c0ffee0".
Definition token1 : string := "c0ffee1".

Definition bob_signs : Request := SignWithToken token0 (Some "aGk="%string) body0.
Definition carol_signs : Request := SignWithToken token1 (Some "aG8="%string) body1.

(** Later requests draw from another random source. *)
Definition env1 : Env :=
  {| now := 2000;
     randomBytes := fun _ => "beef"%string;
     BASE_URL := "https://sign.example";
     pdf_pageCount := fun _ => Some 1;
     pdflib := fun pdfBytes _ => Some (app pdfBytes [Byte.x21]);
     sendMail := fun _ => true |}.

Definition w_draft : World := (handle env0 ctx0 upload (start ∅)).2.
Definition w_sent : World := (handle env0 ctx0 (SendDocument alice 0) w_draft).2.
Definition w_bob : World := (handle env0 ctx0 bob_signs w_sent).2.
Definition w_stuck : World := (handle env0 ctx0 carol_signs w_bob).2.

(** A token map holding one entry that expires at time 10. *)
Definition expired_store : list (string * TokenData) :=
  [("feed"%string,
    {| td_documentId := {| oid_ref := 0; oid_val := 0 |}; td_email := "bob@example.org";
       td_expiresAt := 10; td_used := false |})].

End Scenario.

(** ** Vocabulary of the lifecycle properties *)

(** Identifiers in use lie below the allocator. *)
Definition wf (w : World) : Prop :=
  map_Forall (fun id _ => (id < next_oid w)%nat) (documents w).

#[global] Instance wf_dec w : Decision (wf w).
Proof. unfold wf. apply _. Defined.

(** The document a lifecycle request is aimed at, with the status the
    controller asks of it. *)
Definition requires (env : Env) (req : Request) (w : World) : option (nat * Status) :=
  match req with
  | UpdateDocument _ id _ _ _ => Some (id, draft)
  | DeleteDocument _ id => Some (id, draft)
  | SendDocument _ id => Some (id, draft)
  | RejectDocument _ id _ => Some (id, sent)
  | AddSignature _ _ body => Some (signatureController.b_documentId body, sent)
  | SignWithToken token _ _ =>
      match (TokenService.verifyToken (now env) token (tokenStore w)).1 with
      | Some (oid, _) => Some (oid_val oid, sent)
      | None => None
      end
  | _ => None
  end.

(** The request gets through the middleware in front of its controller:
    the caller owns the document (or is an administrator), the signature
    image is attached. *)
Definition passes_middleware (req : Request) (d : Document) : Prop :=
  match req with
  | UpdateDocument user _ _ _ _ | DeleteDocument user _ | SendDocument user _
  | RejectDocument user _ _ => owns user d = true
  | AddSignature _ file _ | SignWithToken _ file _ => is_Some file
  | _ => True
  end.

(** The message of the error a controller answers when the status is not
    the one it asks for. *)
Definition status_message (req : Request) : string :=
  match req with
  | UpdateDocument _ _ _ _ _ => "Cannot update document after it has been sent."
  | DeleteDocument _ _ => "Cannot delete document after it has been sent."
  | SendDocument _ _ => "Document has already been sent or signed."
  | RejectDocument _ _ _ => "Document must be in sent status to reject."
  | _ => "Document is not ready for signing."
  end.

(** A token that can no longer verify: absent, or marked used. *)
Definition spent (token : string) (store : list (string * TokenData)) : Prop :=
  match JSMap.get token store with
  | Some d => td_used d = true
  | None => True
  end.

(** The moves of the token map within one request. *)
Inductive store_step (env : Env) (s : list (string * TokenData))
    : list (string * TokenData) -> Prop :=
  | ss_refl : store_step env s s
  | ss_verify t s' :
      store_step env s s' -> store_step env s (TokenService.verifyToken (now env) t s').2
  | ss_invalidate t s' :
      store_step env s s' -> store_step env s (TokenService.invalidateToken t s')
  | ss_store i oid email s' :
      store_step env s s' ->
      store_step env s
        (TokenService.storeToken (now env) (randomBytes env i) oid email
           TokenService.default_expiry s').2
  | ss_sweep s' :
      store_step env s s' -> store_step env s (TokenService.cleanupExpiredTokens (now env) s').

(** The moves of the lifecycle: stay, or draft to sent, or sent to signed
    or rejected. *)
Definition transition_ok (a b : Status) : Prop :=
  a = b \/ (a = draft /\ b = sent) \/ (a = sent /\ b = signed) \/ (a = sent /\ b = rejected).

(** What one request can do to the collection of documents. *)
Inductive docs_change (w : World) : gmap nat Document -> Prop :=
  | dc_same : docs_change w (documents w)
  | dc_create d' :
      doc_status d' = draft -> docs_change w (<[next_oid w := d']> (documents w))
  | dc_update id d d' :
      documents w !! id = Some d ->
      transition_ok (doc_status d) (doc_status d') ->
      docs_change w (<[id := d']> (documents w))
  | dc_delete id d :
      documents w !! id = Some d ->
      doc_status d = draft ->
      docs_change w (delete id (documents w)).

(** A token-based submission passes every check that stands before the
    Signature is written: the token verifies, the document is there and
    sent, the signer is on it and has not signed, an image came with the
    request, and [Signature.create] accepts the record. *)
Definition passes_checks (env : Env) (ctx : Ctx) (token : string) (file : option string)
    (body : signatureController.SignBody) (w : World) : Prop :=
  exists oid email d signer data s,
    (TokenService.verifyToken (now env) token (tokenStore w)).1 = Some (oid, email) /\
    documents w !! oid_val oid = Some d /\
    doc_status d = sent /\
    find (has_email email) (doc_signers d) = Some signer /\
    signer_signed signer = false /\
    is_Some file /\
    signatureController.signature_source file (signatureController.b_signatureData body)
      = Some data /\
    validate_signature (now env) (next_oid w) (signatures w)
      {| in_documentId := oid_val oid; in_signerEmail := email;
         in_signerName :=
           Some (signatureController.or_else (signatureController.b_name body)
                   (signer_name signer));
         in_signatureData := data;
         in_signatureType :=
           Some (signatureController.or_else (signatureController.b_signatureType body)
                   "draw");
         in_position := signatureController.b_position body;
         in_ipAddress := ip ctx; in_userAgent := userAgent ctx |} = inr s.

(** No request of the run draws [token] again from the random source. *)
Definition no_redraw (token : string) (reqs : list (Env * Ctx * Request)) : Prop :=
  Forall (fun e => forall i, randomBytes e.1.1 i <> token) reqs.

(** The [ObjectId] objects held in the token map were all built before
    the [n]-th one. *)
Definition refs_below (n : nat) (store : list (string * TokenData)) : Prop :=
  Forall (fun e => (oid_ref (td_documentId e.2) < n)%nat) store.

(** The document and the signer entry a signature submission resolves
    to: by the body of an authenticated submission, by the association
    the map keeps for the token of a token-based one. *)
Definition submission_target (req : Request) (w : World) : option (Document * Signer) :=
  match req with
  | AddSignature _ _ body =>
      d ← documents w !! signatureController.b_documentId body;
      s ← find (has_email (signatureController.b_signerEmail body)) (doc_signers d);
      Some (d, s)
  | SignWithToken token _ _ =>
      td ← JSMap.get token (tokenStore w);
      d ← documents w !! oid_val (td_documentId td);
      s ← find (has_email (td_email td)) (doc_signers d);
      Some (d, s)
  | _ => None
  end.

(** The submission gets as far as the check of the signer's flag. *)
Definition reaches_flag_check (env : Env) (req : Request) (w : World) (d : Document) : Prop :=
  passes_middleware req d /\ doc_status d = sent /\
  match req with
  | SignWithToken token _ _ =>
      is_Some (TokenService.verifyToken (now env) token (tokenStore w)).1
  | _ => True
  end.

(** The messages of the 400 errors that can answer a submission for a
    signer who has signed. *)
Definition refusals : list string :=
  [ "Please upload a signature image."; "Invalid or expired token.";
    "Document is not ready for signing."; "You have already signed this document." ]%string.


(** ** services/tokenService.js: the shape of a token *)

(** [buffer.toString('hex')] *)
Definition toString_hex (buffer : list byte) : string :=
  fold_right
    (fun b s =>
       String (SHA256.hex_digit (SHA256.byte_val b / 16))
         (String (SHA256.hex_digit (SHA256.byte_val b mod 16)) s))
    EmptyString buffer.

(** [generateToken()]; [crypto_randomBytes n] is the buffer that
    [crypto.randomBytes(n)] returns. *)
Definition generateToken (crypto_randomBytes : nat -> list byte) : string :=
  toString_hex (crypto_randomBytes 32%nat).

(** The class [[a-f0-9]] under the flag [i]. *)
Definition is_hex_digit (c : ascii) : bool :=
  let n := nat_of_ascii c in
  (Nat.leb 48 n && Nat.leb n 57) || (Nat.leb 97 n && Nat.leb n 102)
  || (Nat.leb 65 n && Nat.leb n 70).

(** [isValidTokenFormat(token)]: [/^[a-f0-9]{64}$/i.test(token)] *)
Definition isValidTokenFormat (token : string) : bool :=
  Nat.eqb (String.length token) 64 && forallb is_hex_digit (list_ascii_of_string token).

(** ** controllers/signatureController.js: the signatures of a document *)

(** [.sort('-signedAt')]: newest first. *)
Definition newer_first (a b : Signature) : Prop := sig_signedAt b <= sig_signedAt a.

#[global] Instance newer_first_dec a b : Decision (newer_first a b).
Proof. unfold newer_first. apply _. Defined.

(** [getDocumentSignatures]: the [signatures] of the 200 response. *)
Definition getDocumentSignatures (documentId : nat) (w : World) : list Signature :=
  merge_sort newer_first
    (filter (fun s => sig_documentId s = documentId) (signatures w)).

(** ** utils/responseFormatter.js and the listing of a user's documents *)

Record Pagination := {
  pg_page : Z;
  pg_limit : Z;
  pg_total : Z;
  pg_totalPages : Z;
  pg_hasNext : bool;
  pg_hasPrev : bool }.

(** [Math.ceil(a / b)] on integers. *)
Definition ceil_div (a b : Z) : Z := - ((- a) / b).

(** [formatPaginated(data, page, limit, total)]: the data and the
    [pagination] object. *)
Definition formatPaginated {A} (data : list A) (page limit total : Z)
    : list A * Pagination :=
  let totalPages := ceil_div total limit in
  (data,
   {| pg_page := page; pg_limit := limit; pg_total := total; pg_totalPages := totalPages;
      pg_hasNext := page <? totalPages; pg_hasPrev := 1 <? page |}).

(** [parseInt(q) || d]: [None] is a missing or non-numeric parameter. *)
Definition parseInt_or (q : option Z) (d : Z) : Z :=
  match q with
  | Some n => if n =? 0 then d else n
  | None => d
  end.

Definition status_name (s : Status) : string :=
  match s with
  | draft => "draft"
  | sent => "sent"
  | signed => "signed"
  | rejected => "rejected"
  end.

(** [Document.find(query).sort('-createdAt')] with
    [query = { owner, status? }]: the matching documents, the one created
    last first.  Identifiers grow with each creation. *)
Definition find_mine (user : User) (status : option string) (w : World)
    : list (nat * Document) :=
  omap
    (fun id =>
       match documents w !! id with
       | Some d =>
         if Nat.eqb (doc_owner d) (user_id user)
            && match status with
               | Some s => if nonempty s then String.eqb (status_name (doc_status d)) s else true
               | None => true
               end
         then Some (id, d) else None
       | None => None
       end)
    (reverse (seq 0 (next_oid w))).

(** [.skip(skip).limit(limit)] for a skip that is not negative and a
    positive limit. *)
Definition skip_limit {A} (skip limit : Z) (l : list A) : list A :=
  take (Z.to_nat limit) (drop (Z.to_nat skip) l).

(** [getMyDocuments] *)
Definition getMyDocuments (user : User) (qpage qlimit : option Z) (status : option string)
    (w : World) : list (nat * Document) * Pagination :=
  let page := parseInt_or qpage 1 in
  let limit := parseInt_or qlimit 10 in
  let skip := (page - 1) * limit in
  let matching := find_mine user status w in
  let documents := skip_limit skip limit matching in
  let total := Z.of_nat (length matching) in
  formatPaginated documents page limit total.

(** ** models/User.js *)
Record UserDoc := {
  u_id : nat;
  u_email : string;
  u_password : string;
  u_passwordChangedAt : option Z;
  u_passwordResetToken : option string;
  u_passwordResetExpires : option Z;
  u_refreshToken : option string;
  u_isActive : bool;
  u_lastLogin : option Z;
  u_loginAttempts : Z;
  u_lockUntil : option Z }.

Definition set_lock (attempts : Z) (lockUntil : option Z) (u : UserDoc) : UserDoc :=
  {| u_id := u_id u; u_email := u_email u; u_password := u_password u;
     u_passwordChangedAt := u_passwordChangedAt u;
     u_passwordResetToken := u_passwordResetToken u;
     u_passwordResetExpires := u_passwordResetExpires u;
     u_refreshToken := u_refreshToken u; u_isActive := u_isActive u;
     u_lastLogin := u_lastLogin u; u_loginAttempts := attempts; u_lockUntil := lockUntil |}.

Definition set_lastLogin (t : option Z) (u : UserDoc) : UserDoc :=
  {| u_id := u_id u; u_email := u_email u; u_password := u_password u;
     u_passwordChangedAt := u_passwordChangedAt u;
     u_passwordResetToken := u_passwordResetToken u;
     u_passwordResetExpires := u_passwordResetExpires u;
     u_refreshToken := u_refreshToken u; u_isActive := u_isActive u;
     u_lastLogin := t; u_loginAttempts := u_loginAttempts u; u_lockUntil := u_lockUntil u |}.

Definition set_refreshToken (t : option string) (u : UserDoc) : UserDoc :=
  {| u_id := u_id u; u_email := u_email u; u_password := u_password u;
     u_passwordChangedAt := u_passwordChangedAt u;
     u_passwordResetToken := u_passwordResetToken u;
     u_passwordResetExpires := u_passwordResetExpires u;
     u_refreshToken := t; u_isActive := u_isActive u;
     u_lastLogin := u_lastLogin u; u_loginAttempts := u_loginAttempts u;
     u_lockUntil := u_lockUntil u |}.

Definition set_reset (token : option string) (expires : option Z) (u : UserDoc) : UserDoc :=
  {| u_id := u_id u; u_email := u_email u; u_password := u_password u;
     u_passwordChangedAt := u_passwordChangedAt u;
     u_passwordResetToken := token; u_passwordResetExpires := expires;
     u_refreshToken := u_refreshToken u; u_isActive := u_isActive u;
     u_lastLogin := u_lastLogin u; u_loginAttempts := u_loginAttempts u;
     u_lockUntil := u_lockUntil u |}.

Definition set_password (password : string) (changedAt : option Z) (u : UserDoc) : UserDoc :=
  {| u_id := u_id u; u_email := u_email u; u_password := password;
     u_passwordChangedAt := changedAt;
     u_passwordResetToken := u_passwordResetToken u;
     u_passwordResetExpires := u_passwordResetExpires u;
     u_refreshToken := u_refreshToken u; u_isActive := u_isActive u;
     u_lastLogin := u_lastLogin u; u_loginAttempts := u_loginAttempts u;
     u_lockUntil := u_lockUntil u |}.

(** What the controllers take from [bcryptjs] and [jsonwebtoken];
    [jwt_sign_access id t] is the access token signed for [id] at time
    [t]. *)
Record Secrets := {
  bcrypt_hash : string -> string;
  bcrypt_compare : string -> string -> bool;
  jwt_sign_access : nat -> Z -> string;
  jwt_sign_refresh : nat -> Z -> string }.

(** The outcome of [jwt.verify]: the payload, or the error it throws. *)
Inductive JwtResult :=
  | Decoded (id : nat) (iat : Z)
  | TokenExpiredError
  | JsonWebTokenError.

Module userSchema.

Definition two_hours_ms : Z := 2 * 60 * 60 * 1000.
Definition ten_minutes_ms : Z := 10 * 60 * 1000.
Definition maxAttempts : Z := 5.

(** The validators of [password]: [required] and [minlength: 8]. *)
Definition validate_password (password : option string) : Exn + string :=
  match password with
  | None => inl (ValidationError "Please provide a password")
  | Some p =>
    if negb (nonempty p) then inl (ValidationError "Please provide a password")
    else if Nat.ltb (String.length p) 8 then
      inl (ValidationError "Password must be at least 8 characters")
    else inr p
  end.

(** [isModified('password')] after the assignment [user.password =
    password]: the path is marked when the value assigned differs from
    the one the query loaded; [loaded] is [None] when the query did not
    select the password, and the path is marked then. *)
Definition isModified_password (loaded : option string) (password : string) : bool :=
  match loaded with
  | Some p => negb (String.eqb p password)
  | None => true
  end.

(** The two [pre('save')] hooks on a stored user that was assigned
    [password]: both return at once unless the password was modified;
    then the hash with cost 12, and [passwordChangedAt] one second
    back. *)
Definition pre_save (s : Secrets) (now : Z) (loaded : option string) (password : string)
    (this : UserDoc) : UserDoc :=
  if negb (isModified_password loaded password) then this
  else set_password (bcrypt_hash s password) (Some (now - 1000)) this.

(** [changedPasswordAfter(JWTTimestamp)]; [parseInt] cuts the seconds
    toward zero. *)
Definition changedPasswordAfter (JWTTimestamp : Z) (this : UserDoc) : bool :=
  match u_passwordChangedAt this with
  | Some t =>
    let changedTimestamp := Z.quot t 1000 in
    JWTTimestamp <? changedTimestamp
  | None => false
  end.

(** [createPasswordResetToken()]; [resetToken] is the value drawn. *)
Definition createPasswordResetToken (now : Z) (resetToken : string) (this : UserDoc)
    : string * UserDoc :=
  (resetToken,
   set_reset (Some (SHA256.hex_of_string resetToken)) (Some (now + ten_minutes_ms)) this).

(** [isLocked()] *)
Definition isLocked (now : Z) (this : UserDoc) : bool :=
  match u_lockUntil this with
  | Some lockUntil => now <? lockUntil
  | None => false
  end.

(** [incLoginAttempts()]: the stored user after the [updateOne]. *)
Definition incLoginAttempts (now : Z) (this : UserDoc) : UserDoc :=
  let expired :=
    match u_lockUntil this with
    | Some lockUntil => lockUntil <? now
    | None => false
    end in
  if expired then set_lock 1 None this
  else
    let lockUntil :=
      if (maxAttempts <=? u_loginAttempts this + 1) && negb (isLocked now this)
      then Some (now + two_hours_ms)
      else u_lockUntil this in
    set_lock (u_loginAttempts this + 1) lockUntil this.

End userSchema.

(** ** middleware/authMiddleware.js and controllers/authController.js

    The users are a collection in insertion order; [_id] values are
    unique.  A controller that looks its user up by e-mail is given the
    user that [User.findOne({ email })] returned. *)
Inductive AuthResponse :=
  | Authenticated (statusCode : Z) (userId : nat) (accessToken refreshToken : string)
  | Success (statusCode : Z) (message : string)
  | Refused (e : Exn).

Definition truthy (s : option string) : bool :=
  match s with
  | Some x => nonempty x
  | None => false
  end.

(** [User.findById(id)] *)
Definition User_findById (id : nat) (users : list UserDoc) : option UserDoc :=
  find (fun u => Nat.eqb (u_id u) id) users.

(** [user.save()] of a stored user. *)
Definition User_save (user : UserDoc) (users : list UserDoc) : list UserDoc :=
  update_first (fun u => Nat.eqb (u_id u) (u_id user)) (fun _ => user) users.

(** An [AuditLog.log] call of the authentication controller: none of
    them passes a [documentId]. *)
Definition auth_log (now : Z) (userId : nat) (action : string) (st : option string)
    (logs : list AuditLogEntry) : list AuditLogEntry :=
  AuditLog_log now
    {| ad_userId := Some userId; ad_documentId := None; ad_action := action;
       ad_status := st |} logs.

(** [protect]: [token] is the bearer token or the cookie, [jwt_verify]
    the check against the access secret. *)
Definition protect (jwt_verify : string -> JwtResult) (token : option string)
    (users : list UserDoc) : Exn + UserDoc :=
  match token with
  | None =>
    inl (AppError "You are not logged in. Please log in to access this resource." 401)
  | Some token =>
    if negb (nonempty token) then
      inl (AppError "You are not logged in. Please log in to access this resource." 401)
    else
      match jwt_verify token with
      | TokenExpiredError =>
        inl (AppError "Your token has expired. Please refresh your token." 401)
      | JsonWebTokenError => inl (AppError "Invalid token. Please log in again." 401)
      | Decoded id iat =>
        match User_findById id users with
        | None => inl (AppError "The user belonging to this token no longer exists." 401)
        | Some currentUser =>
          if userSchema.changedPasswordAfter iat currentUser then
            inl (AppError "User recently changed password. Please log in again." 401)
          else if negb (u_isActive currentUser) then
            inl (AppError "Your account has been deactivated. Please contact support." 401)
          else inr currentUser
        end
      end
  end.

Module authController.

(** [createSendToken(user, statusCode)]: the refresh token is saved on
    the user. *)
Definition createSendToken (s : Secrets) (now : Z) (user : UserDoc) (statusCode : Z)
    : AuthResponse * UserDoc :=
  let accessToken := jwt_sign_access s (u_id user) now in
  let refreshToken := jwt_sign_refresh s (u_id user) now in
  (Authenticated statusCode (u_id user) accessToken refreshToken,
   set_refreshToken (Some refreshToken) user).

Definition lockedMessage (lockTime : Z) : string :=
  String.append "Account is locked. Please try again after "
    (String.append (pretty lockTime) " hours.").

(** [login]; [user] is what [User.findOne({ email })] returned, and the
    result carries the stored user after the request. *)
Definition login (s : Secrets) (now : Z) (email password : option string)
    (user : option UserDoc) (logs : list AuditLogEntry)
    : AuthResponse * option UserDoc * list AuditLogEntry :=
  if negb (truthy email) || negb (truthy password) then
    (Refused (AppError "Please provide email and password." 400), user, logs)
  else
    let pw := default ""%string password in
    match user with
    | None => (Refused (AppError "Incorrect email or password." 401), None, logs)
    | Some user =>
      if userSchema.isLocked now user then
        let lockTime := ceil_div (default 0 (u_lockUntil user) - now) (60 * 60 * 1000) in
        (Refused (AppError (lockedMessage lockTime) 401), Some user, logs)
      else if negb (bcrypt_compare s pw (u_password user)) then
        let stored := userSchema.incLoginAttempts now user in
        let logs := auth_log now (u_id user) "login_failed" (Some "failure"%string) logs in
        (Refused (AppError "Incorrect email or password." 401), Some stored, logs)
      else
        let stored :=
          if (0 <? u_loginAttempts user) || bool_decide (is_Some (u_lockUntil user))
          then set_lock 0 None user else user in
        let stored := set_lastLogin (Some now) stored in
        let logs := auth_log now (u_id user) "login_success" None logs in
        let '(response, stored) := createSendToken s now stored 200 in
        (response, Some stored, logs)
    end.

(** [updatePassword]; [userId] is [req.user.id], and the user is loaded
    with the password.  A user that is gone makes [user.correctPassword]
    throw. *)
Definition updatePassword (s : Secrets) (now : Z) (userId : nat) (currentPassword : string)
    (newPassword : option string) (users : list UserDoc) (logs : list AuditLogEntry)
    : AuthResponse * list UserDoc * list AuditLogEntry :=
  match User_findById userId users with
  | None => (Refused TypeError, users, logs)
  | Some user =>
    if negb (bcrypt_compare s currentPassword (u_password user)) then
      (Refused (AppError "Your current password is incorrect." 401), users, logs)
    else
      match userSchema.validate_password newPassword with
      | inl e => (Refused e, users, logs)
      | inr password =>
        let user := userSchema.pre_save s now (Some (u_password user)) password user in
        let users := User_save user users in
        let logs := auth_log now (u_id user) "password_changed" None logs in
        let '(response, user) := createSendToken s now user 200 in
        (response, User_save user users, logs)
      end
  end.

(** [forgotPassword]; [user] is what [User.findOne({ email })] returned
    and [resetToken] the value drawn.  The token is given beside the
    response: mailing it is left to do in the source. *)
Definition forgotPassword (now : Z) (resetToken : string) (user : option UserDoc)
    (users : list UserDoc) (logs : list AuditLogEntry)
    : AuthResponse * option string * list UserDoc * list AuditLogEntry :=
  match user with
  | None =>
    (Refused (AppError "There is no user with this email address." 404), None, users, logs)
  | Some user =>
    let '(resetToken, user) := userSchema.createPasswordResetToken now resetToken user in
    let users := User_save user users in
    let logs := auth_log now (u_id user) "password_reset_requested" None logs in
    (Success 200 "Password reset token sent to email!", Some resetToken, users, logs)
  end.

(** [resetPassword]; the query loads the user without the password. *)
Definition resetPassword (s : Secrets) (now : Z) (token : string) (password : option string)
    (users : list UserDoc) (logs : list AuditLogEntry)
    : AuthResponse * list UserDoc * list AuditLogEntry :=
  let hashedToken := SHA256.hex_of_string token in
  match
    find (fun u =>
            bool_decide (u_passwordResetToken u = Some hashedToken)
            && match u_passwordResetExpires u with
               | Some e => now <? e
               | None => false
               end)
         users
  with
  | None => (Refused (AppError "Token is invalid or has expired." 400), users, logs)
  | Some user =>
    match userSchema.validate_password password with
    | inl e => (Refused e, users, logs)
    | inr password =>
      let user := set_reset None None (userSchema.pre_save s now None password user) in
      let users := User_save user users in
      let logs := auth_log now (u_id user) "password_reset_completed" None logs in
      let '(response, user) := createSendToken s now user 200 in
      (response, User_save user users, logs)
    end
  end.

End authController.

(** ** Further examples

    A user who owns nothing, a mail transport that is down, a document
    with two signer entries under one address, one with two entries
    under two spellings of an address, and two accounts. *)
Module Examples.

Definition mallory : User :=
  {| user_id := 9; user_role := role_user; user_name := "Mallory";
     user_email := "mallory@example.org" |}.

Definition env_nomail : Env :=
  {| now := 3000;
     randomBytes := fun _ => "beef"%string;
     BASE_URL := "https://sign.example";
     pdf_pageCount := fun _ => Some 1;
     pdflib := fun pdfBytes _ => Some (app pdfBytes [Byte.x21]);
     sendMail := fun _ => false |}.

Definition bob_again : Signer :=
  {| signer_name := "Robert"; signer_email := "bob@example.org"; signer_signed := false;
     signer_signedAt := None; signer_signatureToken := None; signer_tokenExpires := None |}.

Definition w_twins : World :=
  run [(Scenario.env0, Scenario.ctx0,
        UploadDocument Scenario.alice (Some Scenario.pdf0) "Contract" "Lease"
          (SignersGiven [Scenario.bob; bob_again]));
       (Scenario.env0, Scenario.ctx0, SendDocument Scenario.alice 0)]
    (start ∅).

(** Bob entered a second time with capitals in his address, before the
    entry of the scenario and Carol; the document is uploaded and sent. *)
Definition bob_capitals : Signer :=
  {| signer_name := "Bob"; signer_email := "Bob@Example.org"; signer_signed := false;
     signer_signedAt := None; signer_signatureToken := None; signer_tokenExpires := None |}.

Definition body_capitals : signatureController.SignBody :=
  {| signatureController.b_documentId := 0;
     signatureController.b_signerEmail := "Bob@Example.org";
     signatureController.b_signerName := Some "Bob"%string;
     signatureController.b_name := None;
     signatureController.b_position := Some Scenario.position0;
     signatureController.b_signatureType := None;
     signatureController.b_signatureData := None |}.

Definition w_spellings : World :=
  (handle Scenario.env0 Scenario.ctx0 (SendDocument Scenario.alice 0)
     (handle Scenario.env0 Scenario.ctx0
        (UploadDocument Scenario.alice (Some Scenario.pdf0) "Contract" "Lease"
           (SignersGiven [bob_capitals; Scenario.bob; Scenario.carol]))
        (start ∅)).2).2.

Definition secrets0 : Secrets :=
  {| bcrypt_hash := fun p => String.append "$2a$12$" p;
     bcrypt_compare := fun p h => String.eqb (String.append "$2a$12$" p) h;
     jwt_sign_access := fun id t => String.append "access." (pretty t);
     jwt_sign_refresh := fun id t => String.append "refresh." (pretty t) |}.

Definition account0 : UserDoc :=
  {| u_id := 7; u_email := "alice@example.org"; u_password := "$2a$12$correct horse";
     u_passwordChangedAt := None; u_passwordResetToken := None;
     u_passwordResetExpires := None; u_refreshToken := None;
     u_isActive := true; u_lastLogin := None; u_loginAttempts := 0;
     u_lockUntil := None |}.

Definition account1 : UserDoc :=
  {| u_id := 8; u_email := "bob@example.org"; u_password := "$2a$12$battery staple";
     u_passwordChangedAt := None; u_passwordResetToken := None;
     u_passwordResetExpires := None; u_refreshToken := None;
     u_isActive := true; u_lastLogin := None; u_loginAttempts := 0;
     u_lockUntil := None |}.

(** Five wrong passwords, typed at the times on the left. *)
Definition guesses : list (Z * string) :=
  [(100, "a"); (200, "b"); (300, "c"); (400, "d"); (500, "e")]%string.

(** An access secret under which "old" was signed for user 7 at second
    100 and "new" at second 200. *)
Definition verify0 (token : string) : JwtResult :=
  if String.eqb token "old" then Decoded 7 100
  else if String.eqb token "new" then Decoded 7 200
  else JsonWebTokenError.

End Examples.

(** ** Vocabulary of the properties of the routes, the listings and the
       accounts *)

(** The requests that check the owner, with the message of their 403. *)
Definition guarded (req : Request) : option (User * nat * string) :=
  match req with
  | GetDocument user id =>
      Some (user, id, "You do not have permission to view this document."%string)
  | DownloadDocument user id =>
      Some (user, id, "You do not have permission to download this document."%string)
  | UpdateDocument user id _ _ _ | DeleteDocument user id | SendDocument user id
  | RejectDocument user id _ =>
      Some (user, id, "You do not have permission to access this document."%string)
  | _ => None
  end.

(** The action a request is logged under when it succeeds, and the user
    it is logged for. *)
Definition audit_action (req : Request) : option string :=
  match req with
  | UploadDocument _ _ _ _ _ => Some "document_created"
  | GetDocument _ _ => Some "document_viewed"
  | UpdateDocument _ _ _ _ _ => Some "document_updated"
  | SendDocument _ _ => Some "document_sent"
  | RejectDocument _ _ _ => Some "document_rejected"
  | AddSignature _ _ _ => Some "signature_added"
  | _ => None
  end%string.

Definition acting_user (req : Request) : option nat :=
  match req with
  | UploadDocument u _ _ _ _ | GetDocument u _ | UpdateDocument u _ _ _ _
  | SendDocument u _ | RejectDocument u _ _ | AddSignature u _ _ | DeleteDocument u _
  | DownloadDocument u _ | VerifySignature u _ => Some (user_id u)
  | _ => None
  end.

(** How the signer entries of a document move once it has left draft:
    by marking the first holder of an address, found unsigned. *)
Inductive marked : list Signer -> list Signer -> Prop :=
  | marked_refl l : marked l l
  | marked_step l email t s l' :
      find (has_email email) l = Some s ->
      signer_signed s = false ->
      marked (update_first (has_email email) (mark_signed t) l) l' ->
      marked l l'.

(** What stays of a document once it has left draft. *)
Definition frozen (d d' : Document) : Prop :=
  doc_title d' = doc_title d /\ doc_description d' = doc_description d /\
  doc_owner d' = doc_owner d /\ doc_originalFile d' = doc_originalFile d /\
  doc_metadata d' = doc_metadata d /\
  marked (doc_signers d) (doc_signers d') /\
  doc_signatures d `prefix_of` doc_signatures d'.

(** The time stamps that go with each status. *)
Definition stamps_ok (d : Document) : Prop :=
  match doc_status d with
  | draft => doc_sentAt d = None /\ doc_rejectedAt d = None
  | sent => is_Some (doc_sentAt d) /\ doc_rejectedAt d = None
  | rejected => is_Some (doc_sentAt d) /\ is_Some (doc_rejectedAt d)
  | signed => True
  end.

(** [this.isModified('status')] at a [save]. *)
Definition save_modified (id : nat) (d : Document) (w : World) : bool :=
  match documents w !! id with
  | Some stored => negb (status_eqb (doc_status stored) (doc_status d))
  | None => true
  end.

(** A Signature with its document behind it: the document is there, out
    of draft, lists the Signature, and has an entry for the address
    marked signed. *)
Definition signature_backed (w : World) (s : Signature) : Prop :=
  exists d signer,
    documents w !! sig_documentId s = Some d /\
    doc_status d <> draft /\
    sig_id s ∈ doc_signatures d /\
    signer ∈ doc_signers d /\
    toLowerCase (signer_email signer) = sig_signerEmail s /\
    signer_signed signer = true.

(** A run of login requests for one account: the times and the passwords
    typed. *)
Fixpoint logins (s : Secrets) (email : string) (attempts : list (Z * string))
    (user : UserDoc) : UserDoc :=
  match attempts with
  | [] => user
  | (t, password) :: rest =>
    let stored := (authController.login s t (Some email) (Some password) (Some user) []).1.2 in
    logins s email rest (default user stored)
  end.

(** The counter and the lock of an account agree. *)
Definition lock_consistent (u : UserDoc) : Prop :=
  0 <= u_loginAttempts u /\ (5 <= u_loginAttempts u <-> is_Some (u_lockUntil u)).

(** The query of [resetPassword]: the digest matches and has not
    expired. *)
Definition holds_reset (now : Z) (h : string) (u : UserDoc) : bool :=
  bool_decide (u_passwordResetToken u = Some h)
  && match u_passwordResetExpires u with
     | Some e => now <? e
     | None => false
     end.

(** * Properties *)

(** ** The hash on the standard's test vectors *)
Example sha256_empty :
  SHA256.hex_of_string "" =
  "e3b0c44298fc1c149afbf4c8996fb92427ae41e4649b934ca495991b7852b855"%string.
Proof. vm_compute. reflexivity. Qed.

Example sha256_abc :
  SHA256.hex_of_string "abc" =
  "ba7816bf8f01cfea414140de5dae2223b00361a396177a9cb410ff61f20015ad"%string.
Proof. vm_compute. reflexivity. Qed.

Example sha256_two_blocks :
  SHA256.hex_of_string "abcdbcdecdefdefgefghfghighijhijkijkljklmklmnlmnomnopnopq" =
  "248d6a61d20638b8e5c026930c3e6039a33ce45964ff2167f6ecedd419db06c1"%string.
Proof. vm_compute. reflexivity. Qed.

(** ** The token map *)
Section jsmap_facts.
Context {V : Type}.
Implicit Types (m : list (string * V)) (k : string) (v : V).

Lemma get_set_eq m k v : JSMap.get k (JSMap.set k v m) = Some v.
Proof.
  induction m as [|[k' v'] m IH]; simpl.
  - by rewrite String.eqb_refl.
  - destruct (String.eqb k' k) eqn:E; simpl.
    + by rewrite String.eqb_refl.
    + by rewrite E.
Qed.

Lemma get_set_ne m k k' v : k ≠ k' -> JSMap.get k' (JSMap.set k v m) = JSMap.get k' m.
Proof.
  intros Hne. induction m as [|[k0 v0] m IH]; simpl.
  - destruct (String.eqb k k') eqn:E; [apply String.eqb_eq in E; congruence | done].
  - destruct (String.eqb k0 k) eqn:E; simpl.
    + apply String.eqb_eq in E. subst k0.
      destruct (String.eqb k k') eqn:E'; [apply String.eqb_eq in E'; congruence | done].
    + by rewrite IH.
Qed.

Lemma get_delete_eq m k : JSMap.get k (JSMap.delete k m) = None.
Proof.
  induction m as [|[k0 v0] m IH]; simpl; [done|].
  destruct (String.eqb k0 k) eqn:E; simpl; [done | by rewrite E].
Qed.

Lemma get_delete_ne m k k' : k ≠ k' -> JSMap.get k' (JSMap.delete k m) = JSMap.get k' m.
Proof.
  intros Hne. induction m as [|[k0 v0] m IH]; simpl; [done|].
  destruct (String.eqb k0 k) eqn:E; simpl.
  - apply String.eqb_eq in E. subst k0.
    destruct (String.eqb k k') eqn:E'; [apply String.eqb_eq in E'; congruence | done].
  - by rewrite IH.
Qed.
End jsmap_facts.

Section token_facts.
Import TokenService.
Implicit Types (store : list (string * TokenData)) (token : string).


Lemma verifyToken_spent now token store :
  spent token store -> (verifyToken now token store).1 = None.
Proof.
  unfold spent, verifyToken. destruct (JSMap.get token store) as [d|]; [|done].
  intros ->. by destruct (td_expiresAt d <? now).
Qed.

Lemma invalidateToken_spent token store : spent token (invalidateToken token store).
Proof.
  unfold spent, invalidateToken. destruct (JSMap.get token store) as [d|] eqn:E.
  - by rewrite get_set_eq.
  - by rewrite E.
Qed.

Lemma spent_invalidate token t store :
  spent token store -> spent token (invalidateToken t store).
Proof.
  intros H. destruct (decide (t = token)) as [->|Hne]; [apply invalidateToken_spent|].
  unfold spent, invalidateToken in *. destruct (JSMap.get t store); [|done].
  by rewrite get_set_ne.
Qed.

Lemma spent_delete token t store : spent token store -> spent token (JSMap.delete t store).
Proof.
  intros H. unfold spent in *. destruct (decide (t = token)) as [->|Hne].
  - by rewrite get_delete_eq.
  - by rewrite get_delete_ne.
Qed.

Lemma spent_verify now token t store :
  spent token store -> spent token (verifyToken now t store).2.
Proof.
  intros H. unfold verifyToken. destruct (JSMap.get t store) as [d|]; [|done].
  destruct (td_expiresAt d <? now); [by apply spent_delete|]. by destruct (td_used d).
Qed.

Lemma spent_store now token t oid email expiry store :
  t ≠ token -> spent token store -> spent token (storeToken now t oid email expiry store).2.
Proof. intros Hne H. unfold spent, storeToken in *. simpl. by rewrite get_set_ne. Qed.

Lemma spent_cleanup now token store : spent token store -> spent token (cleanupExpiredTokens now store).
Proof.
  unfold cleanupExpiredTokens. generalize store at 1 3.
  induction store as [|e entries IH]; intros acc H; simpl; [done|].
  apply IH. destruct (td_expiresAt e.2 <? now); [by apply spent_delete | done].
Qed.
End token_facts.

(** ** What a request does to each part of the state *)


Lemma mintTokens_store_step env oid emails i document s0 s :
  store_step env s0 s ->
  store_step env s0 (documentController.mintTokens env oid emails i document s).2.
Proof.
  revert i document s. induction emails as [|e emails IH]; intros i document s H; simpl; [done|].
  apply IH. by apply (ss_store env s0 i oid e s).
Qed.

(** Inversion of the helpers the controllers share: the result and the
    world they leave, written out. *)
Lemma findById_inv id w r w' :
  findById id w = (r, w') ->
  (r = None /\ documents w !! id = None /\ w' = w) \/
  (exists d, r = Some ({| oid_ref := next_ref w; oid_val := id |}, d) /\
             documents w !! id = Some d /\ w' = with_next_ref (S (next_ref w)) w).
Proof.
  unfold findById. destruct (documents w !! id) as [d|]; intros [= <- <-].
  - right. by exists d.
  - by left.
Qed.

Lemma pre_save_fields t m d :
  doc_status (pre_save t m d) = doc_status d /\
  doc_signers (pre_save t m d) = doc_signers d /\
  doc_signatures (pre_save t m d) = doc_signatures d /\
  doc_signedFile (pre_save t m d) = doc_signedFile d /\
  doc_metadata (pre_save t m d) = doc_metadata d /\
  doc_originalFile (pre_save t m d) = doc_originalFile d /\
  doc_owner (pre_save t m d) = doc_owner d /\
  doc_title (pre_save t m d) = doc_title d.
Proof.
  unfold pre_save. destruct m; [|done].
  destruct (doc_status d) eqn:E, (doc_sentAt d), (doc_signedAt d), (doc_rejectedAt d);
    simpl; rewrite ?E; done.
Qed.

Lemma save_inv t id d w d' w' :
  save t id d w = (d', w') ->
  w' = with_documents (<[id := d']> (documents w)) w /\
  doc_status d' = doc_status d /\ doc_signers d' = doc_signers d /\
  doc_signatures d' = doc_signatures d /\ doc_signedFile d' = doc_signedFile d /\
  doc_metadata d' = doc_metadata d /\ doc_originalFile d' = doc_originalFile d /\
  doc_owner d' = doc_owner d /\ doc_title d' = doc_title d.
Proof. unfold save. intros [= <- <-]. split; [done|]. apply pre_save_fields. Qed.

Lemma Signature_create_inv t i w r w' :
  Signature_create t i w = (r, w') ->
  (exists e, r = inl e /\ validate_signature t (next_oid w) (signatures w) i = inl e /\ w' = w) \/
  (exists s, r = inr s /\ validate_signature t (next_oid w) (signatures w) i = inr s /\
             w' = with_next_oid (S (next_oid w)) (with_signatures (signatures w ++ [s]) w)).
Proof.
  unfold Signature_create. destruct (validate_signature _ _ _ _) as [e|s]; intros [= <- <-].
  - left. by exists e.
  - right. by exists s.
Qed.

Lemma deliver_inv env m w r w' :
  deliver env m w = (r, w') ->
  (r = Some MailError /\ w' = w) \/ (r = None /\ w' = with_outbox (outbox w ++ [m]) w).
Proof. unfold deliver. destruct (sendMail env m); intros [= <- <-]; [by right | by left]. Qed.

Ltac wsimpl :=
  cbn [documents signatures auditLogs tokenStore files outbox next_oid next_ref
       with_documents with_signatures with_auditLogs with_tokenStore with_files
       with_outbox with_next_oid with_next_ref fst snd oid_val oid_ref
       doc_title doc_description doc_owner doc_originalFile doc_signedFile doc_status
       doc_signers doc_signatures doc_metadata doc_sentAt doc_signedAt doc_rejectedAt
       doc_rejectionReason set_status set_signers set_signatures set_signedFile set_title
       set_description set_rejectionReason set_stamps] in *.

(** What [finalize] leaves: nothing new when a signer is still missing
    or the PDF service throws; else the signed file and the document
    saved as [signed], with or without the mail to the owner. *)
Lemma finalize_inv env oid d w e b d' w' :
  signatureController.finalize env oid d w = (e, b, d', w') ->
  b = forallb signer_signed (doc_signers d) /\
  ((b = false /\ e = None /\ d' = d /\ w' = w) \/
   (b = true /\ e = Some pdfError /\ d' = d /\ w' = w /\
    (generateSignedPDF env (of_path (doc_originalFile d)) (SigId <$> doc_signatures d)
       (files w)).1 = inl pdfError) \/
   (b = true /\ (e = None \/ e = Some MailError) /\
    exists fs out,
      w' = with_outbox out (with_documents (<[oid_val oid := d']> (documents w)) (with_files fs w)) /\
      doc_status d' = signed /\ doc_signers d' = doc_signers d /\
      is_Some (doc_signedFile d') /\
      is_Some (mapM destructure (SigId <$> doc_signatures d)))).
Proof.
  unfold signatureController.finalize.
  destruct (forallb signer_signed (doc_signers d)) eqn:Hall;
    [|intros [= <- <- <- <-]; split; [done|]; by left].
  destruct (generateSignedPDF _ _ _ _) as [[e0|path] fs] eqn:Hg.
  - intros [= <- <- <- <-]. split; [done|]. right; left.
    assert (e0 = pdfError) as ->.
    { unfold generateSignedPDF in Hg. repeat case_match; by simplify_eq. }
    done.
  - destruct (save _ _ _ _) as [d1 w1] eqn:Hs. apply save_inv in Hs.
    destruct Hs as (-> & Hst & Hsg & _ & Hsf & _).
    destruct (deliver _ _ _) as [[e1|] w2] eqn:Hd; apply deliver_inv in Hd;
      destruct Hd as [[? ->]|[? ->]]; simplify_eq; intros [= <- <- <- <-];
      (split; [done|]); right; right; (split; [done|]); (split; [auto|]);
      eexists _, _; wsimpl; (split; [reflexivity|]); rewrite ?Hst, ?Hsg, ?Hsf; simpl;
      (split; [done|]); (split; [done|]); (split; [by eexists|]);
      unfold generateSignedPDF in Hg; repeat case_match; by simplify_eq.
Qed.

Lemma sendRequests_inv env user oid document signers w r w' :
  documentController.sendRequests env user oid document signers w = (r, w') ->
  (r = None \/ r = Some MailError) /\ exists out, w' = with_outbox (outbox w ++ out) w.
Proof.
  revert w. induction signers as [|s signers IH]; intros w; simpl.
  - intros [= <- <-]. split; [by left|]. exists []. rewrite app_nil_r. by destruct w.
  - destruct (deliver _ _ _) as [[e|] w1] eqn:Hd; apply deliver_inv in Hd;
      destruct Hd as [[? ->]|[? ->]]; simplify_eq.
    + intros [= <- <-]. split; [by right|]. exists []. rewrite app_nil_r. by destruct w.
    + intros H. apply IH in H. destruct H as [Hr [out ->]]. split; [done|]. wsimpl.
      eexists (_ :: out). by rewrite <- app_assoc.
Qed.

Lemma mintTokens_inv env oid emails i d s d' s' :
  documentController.mintTokens env oid emails i d s = (d', s') ->
  store_step env s s' /\
  doc_status d' = doc_status d /\ doc_signedFile d' = doc_signedFile d /\
  doc_metadata d' = doc_metadata d /\ doc_signatures d' = doc_signatures d /\
  doc_originalFile d' = doc_originalFile d.
Proof.
  intros H. split.
  - apply (f_equal snd) in H. simpl in H. subst s'. apply mintTokens_store_step, ss_refl.
  - apply (f_equal fst) in H. simpl in H. subst d'.
    revert i d s. induction emails as [|e emails IH]; intros i d s; simpl; [done|].
    destruct (IH (S i) (set_signers
      (update_first (has_email e)
         (set_token (SHA256.hex_of_string (randomBytes env i)) (now env + seven_days_ms))
         (doc_signers d)) d)
      (JSMap.set (randomBytes env i)
         {| td_documentId := oid; td_email := e;
            td_expiresAt := now env + TokenService.default_expiry * 1000;
            td_used := false |} s)) as (-> & -> & -> & -> & ->).
    done.
Qed.

(** Turn what the helpers returned into the worlds they left. *)
Ltac world_inv :=
  repeat match goal with
  | H : findById _ _ = (_, _) |- _ =>
      apply findById_inv in H; destruct H as [(? & ? & ?)|(? & ? & ? & ?)]; simplify_eq
  | H : save _ _ _ _ = (_, _) |- _ =>
      apply save_inv in H; destruct H as (? & ? & ? & ? & ? & ? & ? & ? & ?); simplify_eq
  | H : Signature_create _ _ _ = (_, _) |- _ =>
      apply Signature_create_inv in H; destruct H as [(? & ? & ? & ?)|(? & ? & ? & ?)];
      simplify_eq
  | H : deliver _ _ _ = (_, _) |- _ =>
      apply deliver_inv in H; destruct H as [[? ?]|[? ?]]; simplify_eq
  | H : signatureController.finalize _ _ _ _ = (_, _, _, _) |- _ =>
      apply finalize_inv in H;
      destruct H as (? & [(? & ? & ? & ?)|[(? & ? & ? & ? & ?)|(? & [?|?] & (? & ? & ? & ? & ? & ? & ?))]]);
      simplify_eq
  | H : documentController.sendRequests _ _ _ _ _ _ = (_, _) |- _ =>
      apply sendRequests_inv in H; destruct H as [[?|?] [? ?]]; simplify_eq
  | H : documentController.mintTokens _ _ _ _ _ _ = (_, _) |- _ =>
      apply mintTokens_inv in H; destruct H as (? & ? & ? & ? & ? & ?)
  end.

Ltac unfold_routes :=
  unfold handle, owned, withSignatureUpload, withDocumentUpload, checkDocumentOwnership,
    documentController.uploadDocument, documentController.getDocument,
    documentController.updateDocument, documentController.sendDocument,
    documentController.rejectDocument, documentController.downloadDocument,
    documentController.deleteDocument, signatureController.addSignature,
    signatureController.signWithToken, signatureController.getSignatureInfo,
    signatureController.verifySignature, log in *.

(** Every request moves the token map by the steps above. *)
Lemma handle_store_step env ctx req w :
  store_step env (tokenStore w) (tokenStore (handle env ctx req w).2).
Proof.
  destruct req; unfold_routes;
    try (destruct (TokenService.verifyToken (now env) token (tokenStore w)) as [r s0] eqn:E;
         assert (s0 = (TokenService.verifyToken (now env) token (tokenStore w)).2) as ->
           by (by rewrite E); clear E);
    repeat case_match; simplify_eq; world_inv; wsimpl;
    first [ apply ss_refl | apply ss_verify, ss_refl | apply ss_invalidate, ss_verify, ss_refl
          | apply ss_sweep, ss_refl | done ].
Qed.

Lemma status_eqb_eq a b : status_eqb a b = true <-> a = b.
Proof. destruct a, b; simpl; split; congruence. Qed.

Lemma negb_status_eqb_false a b : negb (status_eqb a b) = false -> a = b.
Proof. intros H. apply status_eqb_eq. by destruct (status_eqb a b). Qed.

Lemma negb_status_eqb_true a b : negb (status_eqb a b) = true -> a <> b.
Proof. intros H ->. destruct b; done. Qed.


Lemma handle_docs_change env ctx req w :
  docs_change w (documents (handle env ctx req w).2).
Proof.
  destruct req; unfold_routes;
    repeat case_match; simplify_eq; world_inv; wsimpl;
    repeat match goal with
    | H : negb (status_eqb _ _) = false |- _ => apply negb_status_eqb_false in H
    end;
    rewrite ?insert_insert_eq;
    first [ apply dc_same
          | apply dc_create; congruence
          | eapply dc_delete; [eassumption | congruence]
          | eapply dc_update; [eassumption | unfold transition_ok; intuition congruence] ].
Qed.

Lemma docs_change_lookup w m id d :
  wf w -> docs_change w m -> documents w !! id = Some d ->
  match m !! id with
  | Some d' => transition_ok (doc_status d) (doc_status d')
  | None => doc_status d = draft
  end.
Proof.
  intros Hwf Hc Hid. destruct Hc as [|d' Hd'|id0 d0 d0' H0 Ht|id0 d0 H0 Hd0].
  - rewrite Hid. by left.
  - assert (id <> next_oid w) by (specialize (Hwf id d Hid); simpl in Hwf; lia).
    rewrite lookup_insert_ne by done. rewrite Hid. by left.
  - destruct (decide (id0 = id)) as [->|Hne].
    + rewrite lookup_insert_eq. by simplify_eq.
    + rewrite lookup_insert_ne by done. rewrite Hid. by left.
  - destruct (decide (id0 = id)) as [->|Hne].
    + rewrite lookup_delete_eq. by simplify_eq.
    + rewrite lookup_delete_ne by done. rewrite Hid. by left.
Qed.

Lemma status_refused env ctx req w r w' id d st :
  handle env ctx req w = (r, w') ->
  documents w !! id = Some d ->
  requires env req w = Some (id, st) ->
  passes_middleware req d ->
  doc_status d <> st ->
  r = Err (AppError (status_message req) 400) /\ documents w' = documents w.
Proof.
  intros H Hid Hreq Hadm Hst.
  destruct req; simpl in Hreq, Hadm; simplify_eq; unfold_routes;
    try match type of Hadm with is_Some _ => destruct Hadm as [f ->] end;
    try (destruct (TokenService.verifyToken (now env) token (tokenStore w)) as [[[o e]|] s0] eqn:E;
         simpl in Hreq; simplify_eq);
    repeat case_match; simplify_eq; world_inv; wsimpl;
    repeat match goal with
    | H : negb (status_eqb _ _) = false |- _ => apply negb_status_eqb_false in H
    end; simplify_eq; try done; try congruence.
Qed.

(** C1. Whatever the request, a document's status stays or moves along
    draft -> sent -> signed or rejected, and a document leaves the
    collection only from draft.  Update, delete and send ask for [draft],
    reject and both signature submissions ask for [sent]; a request that
    reaches its controller on a document in another status is answered
    with the controller's 400 [AppError] and the documents are left as
    they were. *)
Theorem lifecycle_transitions env ctx req w r w' id d :
  wf w ->
  handle env ctx req w = (r, w') ->
  documents w !! id = Some d ->
  match documents w' !! id with
  | Some d' => transition_ok (doc_status d) (doc_status d')
  | None => doc_status d = draft
  end /\
  (forall st,
     requires env req w = Some (id, st) ->
     passes_middleware req d ->
     doc_status d <> st ->
     r = Err (AppError (status_message req) 400) /\ documents w' = documents w).
Proof.
  intros Hwf H Hid. split.
  - apply (docs_change_lookup w); [done| |done].
    replace w' with (handle env ctx req w).2 by by rewrite H.
    apply handle_docs_change.
  - intros st ???. by eapply status_refused.
Qed.

Lemma lifecycle_transitions_witness :
  let req := SendDocument Scenario.alice 0 in
  let rw := handle Scenario.env0 Scenario.ctx0 req Scenario.w_sent in
  exists d,
    wf Scenario.w_sent /\
    documents Scenario.w_sent !! 0%nat = Some d /\
    requires Scenario.env0 req Scenario.w_sent = Some (0%nat, draft) /\
    passes_middleware req d /\
    doc_status d <> draft /\
    match documents rw.2 !! 0%nat with
    | Some d' => transition_ok (doc_status d) (doc_status d')
    | None => doc_status d = draft
    end /\
    rw.1 = Err (AppError "Document has already been sent or signed." 400) /\
    documents rw.2 = documents Scenario.w_sent.
Proof.
  intros req rw. eexists.
  assert (wf Scenario.w_sent) as Hwf
    by (apply (bool_decide_unpack (wf Scenario.w_sent)); vm_compute; exact I).
  split; [exact Hwf|].
  split; [vm_compute; reflexivity|].
  split; [reflexivity|].
  split; [vm_compute; reflexivity|].
  split; [vm_compute; discriminate|].
  edestruct (lifecycle_transitions Scenario.env0 Scenario.ctx0 req Scenario.w_sent
               rw.1 rw.2 0%nat) as [H1 H2];
    [exact Hwf | apply surjective_pairing | vm_compute; reflexivity |].
  split; [exact H1|].
  apply (H2 draft); [reflexivity | vm_compute; reflexivity | vm_compute; discriminate].
Defined.

(** ** verifyToken *)

(** C6, as the code has it: [verifyToken] answers the pair exactly for a
    token that is present, not past its expiry and not used, and [null]
    otherwise; it leaves the map as it was except for a present, expired
    entry, which it deletes; asked again at the same clock reading it
    gives the same answer and changes nothing more; an answer is given
    again at any reading up to the expiry, and a refusal stays a refusal
    at any later reading. *)
Theorem verifyToken_spec now token store :
  let r := (TokenService.verifyToken now token store).1 in
  let store' := (TokenService.verifyToken now token store).2 in
  (forall oid email,
     r = Some (oid, email) <->
     exists d, JSMap.get token store = Some d /\ td_expiresAt d >= now /\ td_used d = false /\
               td_documentId d = oid /\ td_email d = email) /\
  store' =
    match JSMap.get token store with
    | Some d => if td_expiresAt d <? now then JSMap.delete token store else store
    | None => store
    end /\
  TokenService.verifyToken now token store' = (r, store') /\
  (forall now' d, JSMap.get token store = Some d -> td_expiresAt d >= now' -> r <> None ->
     TokenService.verifyToken now' token store' = (r, store')) /\
  (forall now', now <= now' -> r = None ->
     (TokenService.verifyToken now' token store').1 = None).
Proof.
  unfold TokenService.verifyToken.
  destruct (JSMap.get token store) as [d|] eqn:Hg; simpl.
  - destruct (td_expiresAt d <? now) eqn:He; simpl.
    + apply Z.ltb_lt in He. rewrite get_delete_eq.
      split; [|split; [|split; [|split]]]; try done.
      intros oid email. split; [done|].
      intros (d' & ? & ? & _); simplify_eq. lia.
    + apply Z.ltb_ge in He.
      destruct (td_used d) eqn:Hu; simpl; rewrite Hg, (proj2 (Z.ltb_ge _ _) He), Hu;
        (split; [|split; [|split; [|split]]]); try done.
      * intros oid email. split; [done|]. intros (d' & ? & ? & ? & _); simplify_eq. congruence.
      * intros now' Hle _. by destruct (td_expiresAt d <? now').
      * intros oid email. split.
        -- intros [= <- <-]. exists d. repeat split; try done. lia.
        -- intros (d' & ? & ? & ? & <- & <-); by simplify_eq.
      * intros now' d' [= <-] Hle _.
        assert ((td_expiresAt d <? now') = false) as -> by (apply Z.ltb_ge; lia). done.
  - rewrite Hg. split; [|split; [|split; [|split]]]; try done.
    intros oid email. split; [done|]. intros (d' & ? & _); simplify_eq.
Qed.

(** C6 as stated fails: verifying an expired token removes its entry
    from the map; and of two calls on the same unused token, one at the
    expiry time and one after it, the first answers the pair and the
    second [null]. *)
Lemma verifyToken_deletes_expired :
  TokenService.verifyToken 10 "feed" Scenario.expired_store
  = (Some ({| oid_ref := 0; oid_val := 0 |}, "bob@example.org"%string), Scenario.expired_store) /\
  TokenService.verifyToken 11 "feed" Scenario.expired_store = (None, []) /\
  Scenario.expired_store <> [].
Proof. split; [reflexivity|]. split; [reflexivity | discriminate]. Qed.

(** ** A spent token stays spent *)

Lemma store_step_spent env token s s' :
  (forall i, randomBytes env i <> token) ->
  store_step env s s' -> spent token s -> spent token s'.
Proof.
  intros Hfresh Hstep Hs. induction Hstep.
  - done.
  - by apply spent_verify.
  - by apply spent_invalidate.
  - apply spent_store; [apply Hfresh | done].
  - by apply spent_cleanup.
Qed.

Lemma run_spent token reqs w :
  no_redraw token reqs -> spent token (tokenStore w) -> spent token (tokenStore (run reqs w)).
Proof.
  revert w. induction reqs as [|[[env ctx] req] reqs IH]; intros w Hn Hs; simpl; [done|].
  apply Forall_cons in Hn. destruct Hn as [Hfresh Hn]. apply IH; [done|].
  eapply store_step_spent; [exact Hfresh | apply handle_store_step | done].
Qed.

Lemma signWithToken_recorded env ctx token file body w r w' :
  signatureController.signWithToken env ctx token file body w = (r, w') ->
  signatures w' = signatures w \/ spent token (tokenStore w').
Proof.
  unfold signatureController.signWithToken, log. intros H.
  repeat case_match; simplify_eq; world_inv; wsimpl;
    first [ by left | right; apply invalidateToken_spent ].
Qed.

Lemma passes_checks_recorded env ctx token file body w r w' :
  passes_checks env ctx token file body w ->
  handle env ctx (SignWithToken token file body) w = (r, w') ->
  exists s, signatures w' = signatures w ++ [s].
Proof.
  intros (oid & email & d & signer & data & s & Hv & Hd & Hst & Hf & Hs & [f ->] & Hsrc & Hval).
  simpl. unfold withSignatureUpload, signatureController.signWithToken.
  destruct (TokenService.verifyToken (now env) token (tokenStore w)) as [r0 store] eqn:E.
  simpl in Hv, Hsrc. simplify_eq. unfold findById. wsimpl. rewrite Hd, Hst. simpl.
  rewrite Hf, Hs. unfold Signature_create. wsimpl. rewrite Hval.
  intros H. exists s.
  repeat case_match; simplify_eq; world_inv; unfold log; wsimpl; done.
Qed.

Lemma signWithToken_spent env ctx token file body w :
  spent token (tokenStore w) ->
  signatureController.signWithToken env ctx token file body w =
    (Err (AppError "Invalid or expired token." 400),
     with_tokenStore (TokenService.verifyToken (now env) token (tokenStore w)).2 w).
Proof.
  intros Hs. unfold signatureController.signWithToken.
  pose proof (verifyToken_spent (now env) token _ Hs) as Hv.
  destruct (TokenService.verifyToken (now env) token (tokenStore w)) as [r s0].
  simpl in Hv. by subst r.
Qed.

(** C10. In the token path the token is marked used right after the
    Signature is written, before the all-signed check and the PDF step.
    Once a submission with a token has passed its checks, then whatever
    came of the PDF step and whatever requests follow (the random source
    not drawing the same value again), the token never verifies, and a
    new submission with it is answered "Invalid or expired token." and
    leaves documents and signatures as they are. *)
Theorem token_spent_once_recorded env ctx token file body w r w' :
  passes_checks env ctx token file body w ->
  handle env ctx (SignWithToken token file body) w = (r, w') ->
  forall reqs, no_redraw token reqs ->
    let w'' := run reqs w' in
    (forall t, (TokenService.verifyToken t token (tokenStore w'')).1 = None) /\
    (forall env2 ctx2 file2 body2,
       let rw := signatureController.signWithToken env2 ctx2 token file2 body2 w'' in
       rw.1 = Err (AppError "Invalid or expired token." 400) /\
       documents rw.2 = documents w'' /\ signatures rw.2 = signatures w'').
Proof.
  intros Hchecks H reqs Hn w''.
  assert (spent token (tokenStore w')) as Hs.
  { destruct (passes_checks_recorded _ _ _ _ _ _ _ _ Hchecks H) as [s Hrec].
    assert (signatures w' <> signatures w) as Hne.
    { rewrite Hrec. intros Heq%(f_equal length). rewrite length_app in Heq. simpl in Heq. lia. }
    simpl in H. unfold withSignatureUpload in H. destruct file; [|by simplify_eq].
    apply signWithToken_recorded in H. by destruct H. }
  assert (spent token (tokenStore w'')) as Hs' by by apply run_spent.
  split.
  - intros t. by apply verifyToken_spent.
  - intros env2 ctx2 file2 body2. by rewrite signWithToken_spent.
Qed.

Lemma token_spent_once_recorded_witness :
  passes_checks Scenario.env0 Scenario.ctx0 Scenario.token1 (Some "aG8="%string)
    Scenario.body1 Scenario.w_bob /\
  (handle Scenario.env0 Scenario.ctx0 Scenario.carol_signs Scenario.w_bob).1 = Err pdfError /\
  no_redraw Scenario.token1 [(Scenario.env1, Scenario.ctx0, Sweep)] /\
  let w'' := run [(Scenario.env1, Scenario.ctx0, Sweep)] Scenario.w_stuck in
  (forall t, (TokenService.verifyToken t Scenario.token1 (tokenStore w'')).1 = None) /\
  (forall env2 ctx2 file2 body2,
     let rw := signatureController.signWithToken env2 ctx2 Scenario.token1 file2 body2 w'' in
     rw.1 = Err (AppError "Invalid or expired token." 400) /\
     documents rw.2 = documents w'' /\ signatures rw.2 = signatures w'').
Proof.
  assert (passes_checks Scenario.env0 Scenario.ctx0 Scenario.token1 (Some "aG8="%string)
            Scenario.body1 Scenario.w_bob) as Hchecks.
  { eexists _, _, _, _, _, _.
    split; [vm_compute; reflexivity|]. split; [vm_compute; reflexivity|].
    split; [reflexivity|]. split; [reflexivity|]. split; [reflexivity|].
    split; [by eexists|]. split; [reflexivity|]. vm_compute. reflexivity. }
  assert (no_redraw Scenario.token1 [(Scenario.env1, Scenario.ctx0, Sweep)]) as Hn
    by (constructor; [intros i; simpl; discriminate | constructor]).
  split; [exact Hchecks|]. split; [vm_compute; reflexivity|]. split; [exact Hn|].
  apply (token_spent_once_recorded Scenario.env0 Scenario.ctx0 Scenario.token1
           (Some "aG8="%string) Scenario.body1 Scenario.w_bob
           (handle Scenario.env0 Scenario.ctx0 Scenario.carol_signs Scenario.w_bob).1
           Scenario.w_stuck Hchecks (surjective_pairing _) _ Hn).
Defined.

(** ** The audit trail of the token path *)

Lemma log_anonymous t documentId action st w :
  log t {| ad_userId := None; ad_documentId := documentId; ad_action := action;
           ad_status := st |} w = w.
Proof. unfold log, AuditLog_log. simpl. by destruct w. Qed.

(** No token-based submission ever adds to the audit collection: the
    entry it hands over has [userId: null], which the schema refuses, and
    [AuditLog.log] swallows the refusal. *)
Lemma signWithToken_not_audited env ctx token file body w :
  auditLogs (handle env ctx (SignWithToken token file body) w).2 = auditLogs w.
Proof.
  simpl. unfold withSignatureUpload, signatureController.signWithToken.
  repeat case_match; simplify_eq; rewrite ?log_anonymous; world_inv; wsimpl; done.
Qed.

(** C9, on the code: Bob's submission with his token succeeds with 201,
    the entry [signature_added] with a null [userId] is refused by
    [AuditLog.create], and the audit collection is what it was. *)
Theorem anonymous_signature_not_audited :
  (exists s d, (handle Scenario.env0 Scenario.ctx0 Scenario.bob_signs Scenario.w_sent).1
               = Ok 201 (PSigned s d)) /\
  AuditLog_create 1000
    {| ad_userId := None; ad_documentId := Some 0%nat; ad_action := "signature_added";
       ad_status := None |}
  = inl (ValidationError "Path `userId` is required.") /\
  auditLogs Scenario.w_bob = auditLogs Scenario.w_sent /\
  al_action <$> auditLogs Scenario.w_bob = ["document_created"; "document_sent"]%string.
Proof.
  split; [eexists _, _; vm_compute; reflexivity|].
  split; [reflexivity|]. split; vm_compute; reflexivity.
Qed.

(** ** Where tokens are minted and what is kept of them *)

Lemma mintTokens_get_other env oid emails i0 d s t :
  (forall j, (j < length emails)%nat -> randomBytes env (i0 + j) <> t) ->
  JSMap.get t (documentController.mintTokens env oid emails i0 d s).2 = JSMap.get t s.
Proof.
  revert i0 d s. induction emails as [|e emails IH]; intros i0 d s Hne; simpl; [done|].
  rewrite IH.
  - rewrite get_set_ne; [done|]. specialize (Hne 0%nat). rewrite Nat.add_0_r in Hne.
    apply Hne. simpl. lia.
  - intros j Hj. replace (S i0 + j)%nat with (i0 + S j)%nat by lia. apply Hne. simpl. lia.
Qed.

Lemma mintTokens_get env oid emails i0 d s k e :
  emails !! k = Some e ->
  (forall j, (k < j < length emails)%nat -> randomBytes env (i0 + j) <> randomBytes env (i0 + k)) ->
  JSMap.get (randomBytes env (i0 + k)) (documentController.mintTokens env oid emails i0 d s).2
  = Some {| td_documentId := oid; td_email := e;
            td_expiresAt := now env + TokenService.default_expiry * 1000; td_used := false |}.
Proof.
  revert i0 d s k. induction emails as [|e0 emails IH]; intros i0 d s k Hk Hne; [done|].
  destruct k as [|k]; simpl in Hk; simplify_eq; simpl.
  - rewrite Nat.add_0_r in *. rewrite mintTokens_get_other.
    + apply get_set_eq.
    + intros j Hj. replace (S i0 + j)%nat with (i0 + S j)%nat by lia. apply Hne. simpl. lia.
  - replace (i0 + S k)%nat with (S i0 + k)%nat in * by lia. apply IH; [done|].
    intros j Hj. replace (S i0 + j)%nat with (i0 + S j)%nat by lia. apply Hne. simpl. lia.
Qed.

Lemma sendDocument_tokenStore env ctx user id w :
  tokenStore (handle env ctx (SendDocument user id) w).2 = tokenStore w.
Proof.
  unfold_routes. repeat case_match; simplify_eq; world_inv; wsimpl; done.
Qed.

(** C8, as the code has it: tokens are minted by the upload that creates
    the document in draft, one per signer entry (an entry's token is in
    the map unless a later entry drew the same value), and sending mints
    none: it leaves the token map as it was. *)
Theorem tokens_minted_at_upload env ctx user file title description signers w d' w' :
  handle env ctx (UploadDocument user file title description (SignersGiven signers)) w
    = (Ok 201 (PDocument d'), w') ->
  (documents w' !! next_oid w = Some d' /\ doc_status d' = draft /\
   forall i s,
     signers !! i = Some s ->
     (forall j, (i < j < length signers)%nat -> randomBytes env j <> randomBytes env i) ->
     JSMap.get (randomBytes env i) (tokenStore w')
     = Some {| td_documentId := {| oid_ref := next_ref w; oid_val := next_oid w |};
               td_email := signer_email s;
               td_expiresAt := now env + 604800000; td_used := false |}) /\
  (forall env2 ctx2 user2 id w2,
     tokenStore (handle env2 ctx2 (SendDocument user2 id) w2).2 = tokenStore w2).
Proof.
  intros H. split; [|intros; apply sendDocument_tokenStore].
  unfold_routes. repeat case_match; simplify_eq.
  match goal with H : documentController.mintTokens _ _ _ _ _ _ = _ |- _ =>
    pose proof (f_equal snd H) as Hm; simpl in Hm end.
  world_inv. wsimpl. rewrite lookup_insert_eq. split; [done|]. split; [congruence|].
  intros i s Hi Hne.
  apply (mintTokens_get env _ _ 0 _ _ i (signer_email s)).
  - match goal with H : doc_signers _ = signers |- _ => rewrite H end.
    by rewrite list_lookup_fmap, Hi.
  - rewrite length_fmap.
    match goal with H : doc_signers _ = signers |- _ => rewrite H end. done.
Qed.

Lemma tokens_minted_at_upload_witness :
  exists d',
    handle Scenario.env0 Scenario.ctx0 Scenario.upload (start ∅)
      = (Ok 201 (PDocument d'), Scenario.w_draft) /\
    documents Scenario.w_draft !! 0%nat = Some d' /\ doc_status d' = draft /\
    JSMap.get Scenario.token0 (tokenStore Scenario.w_draft)
    = Some {| td_documentId := {| oid_ref := 0; oid_val := 0 |};
              td_email := "bob@example.org";
              td_expiresAt := 1000 + 604800000; td_used := false |} /\
    tokenStore (handle Scenario.env0 Scenario.ctx0 (SendDocument Scenario.alice 0)
                  Scenario.w_draft).2 = tokenStore Scenario.w_draft.
Proof.
  eexists.
  assert (handle Scenario.env0 Scenario.ctx0 Scenario.upload (start ∅)
          = (Ok 201 (PDocument _), Scenario.w_draft)) as Hup by (vm_compute; reflexivity).
  split; [exact Hup|].
  destruct (tokens_minted_at_upload Scenario.env0 Scenario.ctx0 Scenario.alice
              (Some Scenario.pdf0) "Contract" "Lease" [Scenario.bob; Scenario.carol]
              (start ∅) _ Scenario.w_draft Hup) as ((Hd & Hs & Hg) & Hsend).
  split; [exact Hd|]. split; [exact Hs|]. split; [|apply Hsend].
  apply (Hg 0%nat Scenario.bob); [reflexivity|].
  intros j Hj. assert (j = 1%nat) as -> by (simpl in Hj; lia). vm_compute. discriminate.
Defined.

(** C8 as stated fails: right after the upload the document is in draft
    and the token map already holds Bob's token for it; sending it
    afterwards adds nothing to the map. *)
Lemma draft_document_has_tokens :
  doc_status <$> documents Scenario.w_draft !! 0%nat = Some draft /\
  JSMap.get Scenario.token0 (tokenStore Scenario.w_draft)
  = Some {| td_documentId := {| oid_ref := 0; oid_val := 0 |};
            td_email := "bob@example.org"; td_expiresAt := 604801000; td_used := false |} /\
  doc_status <$> documents Scenario.w_sent !! 0%nat = Some sent /\
  tokenStore Scenario.w_sent = tokenStore Scenario.w_draft.
Proof. repeat (match goal with |- _ /\ _ => split end); vm_compute; reflexivity. Qed.

Lemma find_update_first {A} (p : A -> bool) (f : A -> A) (l : list A) x :
  (forall y, p (f y) = p y) ->
  find p l = Some x -> find p (update_first p f l) = Some (f x).
Proof.
  intros Hp. induction l as [|y l IH]; simpl; [done|].
  destruct (p y) eqn:E; simpl.
  - intros [= ->]. by rewrite Hp, E.
  - rewrite E. auto.
Qed.

Lemma elem_of_update_first {A} (p : A -> bool) (f : A -> A) (l : list A) x :
  x ∈ update_first p f l -> x ∈ l \/ exists y, y ∈ l /\ x = f y.
Proof.
  induction l as [|y l IH]; simpl; [by left|].
  destruct (p y).
  - intros [->|H]%elem_of_cons.
    + right. exists y. split; [apply elem_of_cons; by left | done].
    + left. apply elem_of_cons. by right.
  - intros [->|H]%elem_of_cons.
    + left. apply elem_of_cons. by left.
    + destruct (IH H) as [?|(z & ? & ->)].
      * left. apply elem_of_cons. by right.
      * right. exists z. split; [apply elem_of_cons; by right | done].
Qed.

(** C5, as the code has it: issuing a token writes the SHA-256 digest of
    the token, with a seven-day expiry, on the first signer entry with
    that email of the document record (no entry gets any other new
    value), and puts the association (documentId, email, expiry,
    used = false) in the token map under the plaintext token itself,
    which [storeToken] hands back. *)
Theorem issue_keeps_digest_and_plaintext t token email oid d store :
  let d' := (generateSigningToken t token email d).2 in
  let issued := TokenService.storeToken t (generateSigningToken t token email d).1 oid email
                  TokenService.default_expiry store in
  issued.1 = token /\
  JSMap.get token issued.2
  = Some {| td_documentId := oid; td_email := email;
            td_expiresAt := t + 604800000; td_used := false |} /\
  (forall s, find (has_email email) (doc_signers d) = Some s ->
     find (has_email email) (doc_signers d')
     = Some (set_token (SHA256.hex_of_string token) (t + 604800000) s)) /\
  (forall s', s' ∈ doc_signers d' ->
     s' ∈ doc_signers d \/
     (signer_signatureToken s' = Some (SHA256.hex_of_string token) /\
      signer_tokenExpires s' = Some (t + 604800000))).
Proof.
  simpl. split; [done|]. split; [apply get_set_eq|]. split.
  - intros s Hs. by apply find_update_first.
  - intros s' [?|(y & _ & ->)]%elem_of_update_first; [by left | by right].
Qed.

(** C5 as stated fails: after the upload the token map holds Bob's
    plaintext token as a key and gives it back on a lookup by pair, while
    the document record holds its digest. *)
Lemma plaintext_token_kept :
  Scenario.token0 ∈ (tokenStore Scenario.w_draft).*1 /\
  TokenService.getToken {| oid_ref := 0; oid_val := 0 |} "bob@example.org"
    (tokenStore Scenario.w_draft) = Some Scenario.token0 /\
  (signer_signatureToken <$> (documents Scenario.w_draft !! 0%nat ≫= fun d => doc_signers d !! 0%nat))
  = Some (Some (SHA256.hex_of_string Scenario.token0)) /\
  SHA256.hex_of_string Scenario.token0 <> Scenario.token0.
Proof.
  split; [vm_compute; apply elem_of_cons; by left|].
  split; [vm_compute; reflexivity|]. split; [vm_compute; reflexivity|].
  vm_compute. discriminate.
Qed.

(** ** The signing link *)

Lemma refs_below_mono n m store : (n <= m)%nat -> refs_below n store -> refs_below m store.
Proof. intros Hle H. eapply Forall_impl; [exact H|]. intros e He. simpl in *. lia. Qed.

Lemma refs_below_set n k v store :
  (oid_ref (td_documentId v) < n)%nat -> refs_below n store -> refs_below n (JSMap.set k v store).
Proof.
  intros Hv. induction store as [|[k0 v0] store IH]; simpl; intros H.
  - constructor; [done | constructor].
  - apply Forall_cons in H. destruct H as [H0 H]. destruct (String.eqb k0 k).
    + constructor; done.
    + constructor; [done | by apply IH].
Qed.

Lemma refs_below_delete n k store : refs_below n store -> refs_below n (JSMap.delete k store).
Proof.
  induction store as [|[k0 v0] store IH]; simpl; intros H; [done|].
  apply Forall_cons in H. destruct H as [H0 H]. destruct (String.eqb k0 k); [by apply IH|].
  constructor; [done | by apply IH].
Qed.

Lemma refs_below_get n k store d :
  refs_below n store -> JSMap.get k store = Some d -> (oid_ref (td_documentId d) < n)%nat.
Proof.
  induction store as [|[k0 v0] store IH]; simpl; intros H; [done|].
  apply Forall_cons in H. destruct H as [H0 H]. destruct (String.eqb k0 k); [|auto].
  by intros [= <-].
Qed.

Lemma refs_below_verify n t token store :
  refs_below n store -> refs_below n (TokenService.verifyToken t token store).2.
Proof.
  intros H. unfold TokenService.verifyToken. repeat case_match; simpl; try done.
  by apply refs_below_delete.
Qed.

Lemma refs_below_invalidate n token store :
  refs_below n store -> refs_below n (TokenService.invalidateToken token store).
Proof.
  intros H. unfold TokenService.invalidateToken.
  destruct (JSMap.get token store) as [d|] eqn:E; [|done].
  apply refs_below_set; [|done]. simpl. by eapply refs_below_get.
Qed.

Lemma refs_below_cleanup n t store :
  refs_below n store -> refs_below n (TokenService.cleanupExpiredTokens t store).
Proof.
  unfold TokenService.cleanupExpiredTokens. generalize store at 1 3.
  induction store as [|e entries IH]; intros acc H; simpl; [done|].
  apply IH. destruct (td_expiresAt e.2 <? t); [by apply refs_below_delete | done].
Qed.

Lemma refs_below_mint n env oid emails i d store :
  (oid_ref oid < n)%nat -> refs_below n store ->
  refs_below n (documentController.mintTokens env oid emails i d store).2.
Proof.
  intros Hoid. revert i d store. induction emails as [|e emails IH]; intros i d store H; simpl;
    [done|].
  apply IH. by apply refs_below_set.
Qed.

(** Every request keeps the objects of the token map older than the next
    object to be built. *)
Lemma handle_refs_below env ctx req w :
  refs_below (next_ref w) (tokenStore w) ->
  refs_below (next_ref (handle env ctx req w).2) (tokenStore (handle env ctx req w).2).
Proof.
  intros H. destruct req; unfold_routes;
    try (destruct (TokenService.verifyToken (now env) token (tokenStore w)) as [r s0] eqn:E;
         assert (s0 = (TokenService.verifyToken (now env) token (tokenStore w)).2) as ->
           by (by rewrite E); clear E);
    repeat case_match; simplify_eq;
    repeat match goal with
    | H : documentController.mintTokens _ _ _ _ _ _ = _ |- _ =>
        apply (f_equal snd) in H; simpl in H
    end;
    world_inv; wsimpl; simplify_eq;
    repeat first
      [ assumption
      | apply refs_below_cleanup
      | apply refs_below_invalidate
      | apply refs_below_verify
      | apply refs_below_mint; [simpl; lia|]
      | apply (refs_below_mono (next_ref w)); [lia|] ].
Qed.

Lemma reachable_refs_below w : reachable w -> refs_below (next_ref w) (tokenStore w).
Proof.
  induction 1 as [fs|env ctx req w _ IH]; [by constructor | by apply handle_refs_below].
Qed.

Lemma getToken_fresh oid email store :
  refs_below (oid_ref oid) store -> TokenService.getToken oid email store = None.
Proof.
  induction store as [|[t d] store IH]; simpl; intros H; [done|].
  apply Forall_cons in H. destruct H as [H0 H]. simpl in H0. unfold strict_eq.
  destruct (Nat.eqb_spec (oid_ref (td_documentId d)) (oid_ref oid)); [lia|]. simpl. auto.
Qed.

(** [getToken] gives the first entry, in insertion order, that holds the
    very [ObjectId] object it is asked about, with that email and not
    used; it gives [null] exactly when the map has no such entry. *)
Lemma getToken_spec oid email store :
  match TokenService.getToken oid email store with
  | Some token =>
      exists older d newer,
        store = older ++ (token, d) :: newer /\
        strict_eq (td_documentId d) oid = true /\ td_email d = email /\ td_used d = false /\
        TokenService.getToken oid email older = None
  | None =>
      forall token d, (token, d) ∈ store ->
        ~ (strict_eq (td_documentId d) oid = true /\ td_email d = email /\ td_used d = false)
  end.
Proof.
  induction store as [|[t d] store IH]; simpl.
  - intros token d Hin. by apply elem_of_nil in Hin.
  - destruct (strict_eq (td_documentId d) oid && String.eqb (td_email d) email
              && negb (td_used d)) eqn:E.
    + apply andb_true_iff in E. destruct E as [[E1 E2]%andb_true_iff E3].
      apply String.eqb_eq in E2. apply negb_true_iff in E3.
      by exists [], d, store.
    + destruct (TokenService.getToken oid email store) as [token|].
      * destruct IH as (older & d' & newer & -> & ? & ? & ? & Hold).
        exists ((t, d) :: older), d', newer. repeat split; try done. simpl. by rewrite E, Hold.
      * intros token d' [[= -> ->]|Hin]%elem_of_cons.
        -- intros (E1 & E2 & E3). rewrite E1, E3 in E. apply String.eqb_eq in E2.
           by rewrite E2 in E.
        -- by apply (IH token d').
Qed.

Lemma sendRequests_null env user oid document signers w r w' :
  refs_below (oid_ref oid) (tokenStore w) ->
  documentController.sendRequests env user oid document signers w = (r, w') ->
  forall m, m ∈ outbox w' ->
    m ∈ outbox w \/
    exists s, s ∈ signers /\
      m = SigningRequest (signer_email s) (signer_name s) (doc_title document)
            (String.append (BASE_URL env) "/api/sign/null") (user_name user).
Proof.
  revert w. induction signers as [|s signers IH]; intros w Hb; simpl.
  - intros [= <- <-]. by left.
  - rewrite getToken_fresh by done.
    destruct (deliver _ _ _) as [[e|] w1] eqn:Hd; apply deliver_inv in Hd;
      destruct Hd as [[? ->]|[? ->]]; simplify_eq.
    + intros [= <- <-]. by left.
    + intros Hs m Hm.
      match type of Hs with
      | documentController.sendRequests _ _ _ _ _ ?w1 = _ =>
          destruct (IH w1 Hb Hs m Hm) as [Ho|(s' & ? & ->)]
      end.
      * wsimpl. apply elem_of_app in Ho. destruct Ho as [?|Ho]; [by left|].
        apply list_elem_of_singleton in Ho. right. exists s. split; [apply elem_of_cons; by left|].
        done.
      * right. exists s'. split; [apply elem_of_cons; by right | done].
Qed.

(** In every state of a run, the requests that [sendDocument] mails
    carry the link [.../api/sign/null]: the [ObjectId] it looks up with
    is the one [findById] has just built, and [===] finds it identical
    to none of those the map holds. *)
Lemma sendDocument_links_null env ctx user id w :
  reachable w ->
  forall m, m ∈ outbox (handle env ctx (SendDocument user id) w).2 ->
    m ∈ outbox w \/
    exists to name title sender,
      m = SigningRequest to name title (String.append (BASE_URL env) "/api/sign/null") sender.
Proof.
  intros Hr%reachable_refs_below. unfold_routes.
  repeat case_match; simplify_eq;
    repeat match goal with
    | H : documentController.sendRequests _ _ _ _ _ _ = _ |- _ =>
        lazymatch goal with
        | _ : forall _ : refs_below _ _, _ |- _ => fail
        | _ => pose proof (fun Hb => sendRequests_null env _ _ _ _ _ _ _ Hb H)
        end
    end;
    world_inv; wsimpl; intros m Hm; try (by left).
  all: match goal with
       | H : forall _ : refs_below _ _, _ |- _ =>
           destruct (H Hr m Hm) as [?|(s' & _ & ->)]
       end.
  all: first [ by left | right; by eexists _, _, _, _ ].
Qed.

(** C7, on the code: after the upload the map holds Bob's unused token
    for the document, and the requests that the send mails to Bob and to
    Carol carry the link [.../api/sign/null], not their tokens. *)
Theorem signing_link_without_token :
  JSMap.get Scenario.token0 (tokenStore Scenario.w_draft)
  = Some {| td_documentId := {| oid_ref := 0; oid_val := 0 |};
            td_email := "bob@example.org"; td_expiresAt := 604801000; td_used := false |} /\
  (exists d, (handle Scenario.env0 Scenario.ctx0 (SendDocument Scenario.alice 0)
                Scenario.w_draft).1 = Ok 200 (PDocument d)) /\
  outbox Scenario.w_sent
  = [ SigningRequest "bob@example.org" "Bob" "Contract"
        "https://sign.example/api/sign/null" "Alice";
      SigningRequest "carol@example.org" "Carol" "Contract"
        "https://sign.example/api/sign/null" "Alice" ].
Proof.
  split; [vm_compute; reflexivity|].
  split; [eexists; vm_compute; reflexivity|]. vm_compute. reflexivity.
Qed.

(** ** One signature per signer *)

Lemma handle_signatures env ctx req w :
  signatures (handle env ctx req w).2 = signatures w \/
  exists t i s, validate_signature t (next_oid w) (signatures w) i = inr s /\
                signatures (handle env ctx req w).2 = signatures w ++ [s].
Proof.
  destruct req; unfold_routes;
    repeat case_match; simplify_eq; world_inv; wsimpl;
    first [ by left | right; by eexists _, _, _ ].
Qed.

Lemma signed_signer_refused env ctx req w r w' d s :
  handle env ctx req w = (r, w') ->
  submission_target req w = Some (d, s) ->
  signer_signed s = true ->
  (exists msg, msg ∈ refusals /\ r = Err (AppError msg 400)) /\
  signatures w' = signatures w /\ documents w' = documents w /\
  (reaches_flag_check env req w d ->
   r = Err (AppError "You have already signed this document." 400)).
Proof.
  intros H Ht Hs.
  destruct req; simpl in Ht; simplify_option_eq; unfold_routes.
  - (* token path *)
    unfold reaches_flag_check, TokenService.verifyToken in *.
    repeat case_match; simplify_eq; world_inv; wsimpl; simplify_eq;
      repeat match goal with
      | H : negb (status_eqb _ _) = false |- _ => apply negb_status_eqb_false in H
      | H : negb (status_eqb _ _) = true |- _ => apply negb_status_eqb_true in H
      end;
      try congruence;
      (split; [eexists; split; [|reflexivity]; unfold refusals; set_solver|]);
      (split; [done|]); (split; [done|]);
      intros (Ha & Hst & Hv); simpl in *; try done; try congruence;
      try (by destruct Ha); try (by destruct Hv).
  - (* authenticated path *)
    repeat case_match; simplify_eq; world_inv; wsimpl; simplify_eq;
      repeat match goal with
      | H : negb (status_eqb _ _) = false |- _ => apply negb_status_eqb_false in H
      | H : negb (status_eqb _ _) = true |- _ => apply negb_status_eqb_true in H
      end;
      try congruence;
      (split; [eexists; split; [|reflexivity]; unfold refusals; set_solver|]);
      (split; [done|]); (split; [done|]);
      intros (Ha & Hst & Hv); simpl in *; try done; try congruence;
      try (by destruct Ha).
Qed.

(** The collection of Signatures has no unique index: the pair of
    fields is declared plain before it is declared unique, and the second
    declaration builds nothing. *)
Lemma ensureIndexes_signatureSchema :
  ensureIndexes signatureSchema_indexes
  = [ {| ix_keys := pair_keys; ix_unique := false |};
      {| ix_keys := [(f_signedAt, -1)]; ix_unique := false |} ].
Proof. reflexivity. Qed.

(** C3, on the code: the document has Bob as a signer under the
    addresses [Bob@Example.org] and [bob@example.org].  A submission for
    each address passes the flag check, since each finds its own entry
    unsigned, and is answered 201, by body and by token alike; the two
    Signatures are stored under the one pair (0, [bob@example.org]), as
    the schema writes the address in lower case and no unique index
    stands behind the flag check.  The flag check itself holds: a third
    submission, for the second address again, is refused as already
    signed and stores nothing. *)
Theorem second_signature_for_one_pair :
  unique_index (ensureIndexes signatureSchema_indexes) = false /\
  reachable Examples.w_spellings /\
  (let first := handle Scenario.env1 Scenario.ctx0
                  (AddSignature Scenario.alice (Some "aGk="%string) Examples.body_capitals)
                  Examples.w_spellings in
   let second := handle Scenario.env1 Scenario.ctx0
                   (AddSignature Scenario.alice (Some "aGk="%string) Scenario.body0)
                   first.2 in
   let third := handle Scenario.env1 Scenario.ctx0
                  (AddSignature Scenario.alice (Some "aGk="%string) Scenario.body0)
                  second.2 in
   (exists s d, first.1 = Ok 201 (PSigned s d)) /\
   (exists s d, second.1 = Ok 201 (PSigned s d)) /\
   sig_key <$> signatures second.2
   = [(0%nat, "bob@example.org"%string); (0%nat, "bob@example.org"%string)] /\
   third.1 = Err (AppError "You have already signed this document." 400) /\
   signatures third.2 = signatures second.2) /\
  (let first := handle Scenario.env1 Scenario.ctx0
                  (SignWithToken Scenario.token0 (Some "aGk="%string) Examples.body_capitals)
                  Examples.w_spellings in
   let second := handle Scenario.env1 Scenario.ctx0
                   (SignWithToken Scenario.token1 (Some "aGk="%string) Scenario.body0)
                   first.2 in
   (exists s d, first.1 = Ok 201 (PSigned s d)) /\
   (exists s d, second.1 = Ok 201 (PSigned s d)) /\
   sig_key <$> signatures second.2
   = [(0%nat, "bob@example.org"%string); (0%nat, "bob@example.org"%string)]).
Proof.
  split; [reflexivity|]. split.
  { unfold Examples.w_spellings. repeat apply reach_step. apply reach_start. }
  split.
  - cbv zeta. split; [eexists _, _; vm_compute; reflexivity|].
    split; [eexists _, _; vm_compute; reflexivity|].
    split; [vm_compute; reflexivity|].
    split; vm_compute; reflexivity.
  - cbv zeta. split; [eexists _, _; vm_compute; reflexivity|].
    split; [eexists _, _; vm_compute; reflexivity|].
    vm_compute; reflexivity.
Qed.

(** ** A failed completion *)




Lemma handle_wf env ctx req w : wf w -> wf (handle env ctx req w).2.
Proof.
  unfold wf. intros Hwf.
  destruct req; unfold_routes;
    repeat case_match; simplify_eq; world_inv; wsimpl;
    rewrite ?insert_insert_eq;
    repeat first
      [ assumption
      | apply map_Forall_insert_2;
          [ first [ simpl; lia
                  | match goal with H : documents w !! ?i = Some _ |- _ =>
                      specialize (Hwf i _ H); simpl in Hwf; simpl; lia end ] |]
      | apply map_Forall_delete
      | (eapply map_Forall_impl; [exact Hwf|]; simpl; intros; lia) ].
Qed.

Lemma run_wf reqs w : wf w -> wf (run reqs w).
Proof.
  revert w. induction reqs as [|[[env ctx] req] reqs IH]; intros w Hwf; simpl; [done|].
  by apply IH, handle_wf.
Qed.








(** ** The completion as the controllers call it *)

Lemma mapM_destructure_ids ids : ids <> [] -> mapM destructure (SigId <$> ids) = None.
Proof. destruct ids; [done|]. intros _. reflexivity. Qed.

(** [generateSignedPDF] on the array of identifiers that the controllers
    pass throws whenever the array is not empty. *)
Lemma generateSignedPDF_of_ids env path ids fs :
  ids <> [] -> generateSignedPDF env path (SigId <$> ids) fs = (inl pdfError, fs).
Proof.
  intros Hne. unfold generateSignedPDF. rewrite mapM_destructure_ids by done.
  by destruct (fs !! path).
Qed.

(** No request makes a document [signed]: a document that is [signed]
    after a request was [signed] before it. *)
Lemma signed_not_produced env ctx req w id d' :
  wf w ->
  documents (handle env ctx req w).2 !! id = Some d' ->
  doc_status d' = signed ->
  exists d, documents w !! id = Some d /\ doc_status d = signed.
Proof.
  intros Hwf. destruct req; unfold_routes;
    repeat case_match; simplify_eq; world_inv; wsimpl;
    repeat match goal with
    | H : negb (status_eqb _ _) = false |- _ => apply negb_status_eqb_false in H
    | H4 : doc_signatures ?d = _ ++ [_],
      H : is_Some (mapM destructure (SigId <$> doc_signatures ?d)) |- _ =>
        rewrite H4, mapM_destructure_ids in H; [by destruct H | by intros [? ?]%app_eq_nil]
    end;
    rewrite ?insert_insert_eq; intros Hd Hs; eauto.
  all: match type of Hd with
       | <[?i := _]> _ !! _ = _ =>
           destruct (decide (i = id)) as [Heq|Hne];
           [ rewrite Heq, lookup_insert_eq in Hd; simplify_eq; congruence
           | rewrite lookup_insert_ne in Hd by done; eauto ]
       | delete ?i _ !! _ = _ =>
           destruct (decide (i = id)) as [Heq|Hne];
           [ rewrite Heq, lookup_delete_eq in Hd; done
           | rewrite lookup_delete_ne in Hd by done; eauto ]
       end.
Qed.

(** In no state of a run is a document [signed]. *)
Lemma reachable_never_signed w id d :
  reachable w -> documents w !! id = Some d -> doc_status d <> signed.
Proof.
  intros Hr. assert (wf w /\ forall id d, documents w !! id = Some d -> doc_status d <> signed)
    as [_ H]; [|by apply H].
  clear id d. induction Hr as [fs|env ctx req w _ [Hwf IH]].
  - split; [apply map_Forall_empty | intros id d Hd; simpl in Hd; by rewrite lookup_empty in Hd].
  - split; [by apply handle_wf|]. intros id d Hd Hs.
    destruct (signed_not_produced env ctx req w id d Hwf Hd Hs) as (d0 & Hd0 & Hs0).
    by apply (IH id d0).
Qed.

(** ** More of the token map *)

Section jsmap_more.
Context {V : Type}.
Implicit Types m : list (string * V).

Lemma set_set m k v v' : JSMap.set k v (JSMap.set k v' m) = JSMap.set k v m.
Proof.
  induction m as [|[k0 v0] m IH]; simpl.
  - by rewrite String.eqb_refl.
  - destruct (String.eqb k0 k) eqn:E; simpl.
    + by rewrite String.eqb_refl.
    + by rewrite E, IH.
Qed.

Lemma delete_filter m k : JSMap.delete k m = filter (fun e => e.1 <> k) m.
Proof.
  induction m as [|[k0 v0] m IH]; simpl; [done|].
  destruct (String.eqb k0 k) eqn:E.
  - apply String.eqb_eq in E. subst. rewrite filter_cons_False by (simpl; auto). done.
  - apply String.eqb_neq in E. rewrite filter_cons_True by done. by rewrite IH.
Qed.

Lemma get_elem_of m k v : NoDup m.*1 -> (k, v) ∈ m -> JSMap.get k m = Some v.
Proof.
  induction m as [|[k0 v0] m IH]; simpl.
  - intros _ H. by apply elem_of_nil in H.
  - intros [Hk Hnd]%NoDup_cons [[= -> ->]|Hin]%elem_of_cons.
    + by rewrite String.eqb_refl.
    + destruct (String.eqb k0 k) eqn:E; [|by apply IH].
      apply String.eqb_eq in E. subst. exfalso. apply Hk.
      apply list_elem_of_fmap. by exists (k, v).
Qed.

Lemma elem_of_get m k v : JSMap.get k m = Some v -> (k, v) ∈ m.
Proof.
  induction m as [|[k0 v0] m IH]; simpl; [done|].
  destruct (String.eqb k0 k) eqn:E.
  - apply String.eqb_eq in E. intros [= ->]. subst. apply elem_of_cons. by left.
  - intros H. apply elem_of_cons. right. by apply IH.
Qed.
End jsmap_more.

(** X1. A token that was just stored verifies to the document and the
    address it was stored with at every time up to its expiry, whatever
    the map held under it before; past the expiry it is refused and the
    entry is deleted.  Storing it changes the answer for no other
    token. *)
Theorem storeToken_then_verifyToken now now' token oid email expiry store :
  let store' := (TokenService.storeToken now token oid email expiry store).2 in
  TokenService.verifyToken now' token store' =
    (if now + expiry * 1000 <? now' then (None, JSMap.delete token store')
     else (Some (oid, email), store')) /\
  forall t, t <> token ->
    (TokenService.verifyToken now' t store').1 = (TokenService.verifyToken now' t store).1.
Proof.
  intros store'. subst store'. unfold TokenService.storeToken, TokenService.verifyToken.
  cbn [snd]. split.
  - rewrite get_set_eq. cbn [td_expiresAt td_used td_documentId td_email].
    by destruct (now + expiry * 1000 <? now').
  - intros t Hne. rewrite get_set_ne by done.
    destruct (JSMap.get t store) as [d|]; [|done].
    by destruct (td_expiresAt d <? now'), (td_used d).
Qed.

(** X2. Invalidating twice is invalidating once, and invalidating a
    token the map does not hold changes nothing; an invalidated token
    never verifies, and the answer for every other token is what it
    was. *)
Theorem invalidateToken_idempotent token store :
  TokenService.invalidateToken token (TokenService.invalidateToken token store)
    = TokenService.invalidateToken token store /\
  (JSMap.get token store = None -> TokenService.invalidateToken token store = store) /\
  (forall now, (TokenService.verifyToken now token
                  (TokenService.invalidateToken token store)).1 = None) /\
  (forall now t, t <> token ->
     (TokenService.verifyToken now t (TokenService.invalidateToken token store)).1
       = (TokenService.verifyToken now t store).1).
Proof.
  unfold TokenService.invalidateToken, TokenService.verifyToken.
  destruct (JSMap.get token store) as [d|] eqn:E.
  - rewrite get_set_eq. repeat split.
    + by rewrite set_set.
    + done.
    + intros now. simpl. by destruct (td_expiresAt d <? now).
    + intros now t Hne. rewrite get_set_ne by done.
      destruct (JSMap.get t store) as [d'|]; [|done].
      by destruct (td_expiresAt d' <? now), (td_used d').
  - rewrite E. repeat split; done.
Qed.

(** The sweep, whatever the keys: what stays are the entries whose key
    no expired entry carries. *)
Lemma cleanup_fold now (l acc : list (string * TokenData)) :
  fold_left
    (fun store e => if td_expiresAt e.2 <? now then JSMap.delete e.1 store else store) l acc
  = filter (fun e => Forall (fun e' => td_expiresAt e'.2 < now -> e'.1 <> e.1) l) acc.
Proof.
  revert acc. induction l as [|e l IH]; intros acc; simpl.
  - induction acc as [|a acc IHa]; [done|].
    rewrite filter_cons_True by constructor. by rewrite <- IHa.
  - rewrite IH. destruct (td_expiresAt e.2 <? now) eqn:E.
    + apply Z.ltb_lt in E. rewrite delete_filter, list_filter_filter.
      apply list_filter_iff. intros x. split.
      * intros [H1 H2]. constructor; [|done]. intros _ Heq. by rewrite Heq in H2.
      * intros [H1 H2]%Forall_cons. split; [done|]. intros Heq. by apply H1.
    + apply Z.ltb_ge in E. apply list_filter_iff. intros x. split.
      * intros H. constructor; [lia|done].
      * by intros [_ H]%Forall_cons.
Qed.

Lemma filter_iff_in {A} (P Q : A -> Prop) `{!forall x, Decision (P x), !forall x, Decision (Q x)}
    (l : list A) :
  (forall x, x ∈ l -> P x <-> Q x) -> filter P l = filter Q l.
Proof.
  induction l as [|a l IH]; intros HPQ; [done|].
  assert (filter P l = filter Q l) as Hl.
  { apply IH. intros x Hx. apply HPQ, elem_of_cons. by right. }
  assert (P a <-> Q a) as Ha by (apply HPQ, elem_of_cons; by left).
  destruct (decide (P a)).
  - rewrite !filter_cons_True by tauto. by rewrite Hl.
  - rewrite !filter_cons_False by tauto. done.
Qed.

Lemma NoDup_keys_filter {V} (P : string * V -> Prop) `{!forall x, Decision (P x)}
    (m : list (string * V)) :
  NoDup m.*1 -> NoDup (filter P m).*1.
Proof. intros Hnd. eapply sublist_NoDup; [exact Hnd|apply fmap_sublist, sublist_filter]. Qed.

Lemma NoDup_keys_eq {V} (m : list (string * V)) k v v' :
  NoDup m.*1 -> (k, v) ∈ m -> (k, v') ∈ m -> v = v'.
Proof.
  intros Hnd H1 H2. apply get_elem_of in H1, H2; try done. congruence.
Qed.

(** X3. On a map (distinct keys), the sweep keeps exactly the entries
    that have not expired, in their order: a lookup after the sweep
    finds what it found before unless the entry had expired. *)
Theorem cleanupExpiredTokens_spec now store :
  NoDup store.*1 ->
  TokenService.cleanupExpiredTokens now store
    = filter (fun e => ~ td_expiresAt e.2 < now) store /\
  forall t,
    JSMap.get t (TokenService.cleanupExpiredTokens now store) =
      match JSMap.get t store with
      | Some d => if td_expiresAt d <? now then None else Some d
      | None => None
      end.
Proof.
  intros Hnd.
  assert (TokenService.cleanupExpiredTokens now store
          = filter (fun e => ~ td_expiresAt e.2 < now) store) as Heq.
  { unfold TokenService.cleanupExpiredTokens. rewrite cleanup_fold.
    apply filter_iff_in. intros [t d] Hin. simpl. split.
    - intros Hall Hexp. rewrite Forall_forall in Hall.
      by apply (Hall (t, d) Hin).
    - intros Hexp. apply Forall_forall. intros [t' d'] Hin' Hexp' Heq. simpl in *. subst t'.
      by rewrite (NoDup_keys_eq store t d d') in Hexp. }
  split; [done|]. intros t. rewrite Heq. clear Heq.
  pose proof (NoDup_keys_filter (fun e => ~ td_expiresAt e.2 < now) store Hnd) as Hnd'.
  destruct (JSMap.get t store) as [d|] eqn:E.
  - apply elem_of_get in E. destruct (td_expiresAt d <? now) eqn:Hexp.
    + apply Z.ltb_lt in Hexp.
      destruct (JSMap.get t (filter _ store)) as [d'|] eqn:E'; [|done].
      apply elem_of_get, list_elem_of_filter in E'. destruct E' as [Hd' Hin'].
      simpl in Hd'. by rewrite (NoDup_keys_eq store t d' d) in Hd'.
    + apply Z.ltb_ge in Hexp. apply get_elem_of; [done|].
      apply list_elem_of_filter. split; [simpl; lia|done].
  - destruct (JSMap.get t (filter _ store)) as [d'|] eqn:E'; [|done].
    apply elem_of_get, list_elem_of_filter in E'. destruct E' as [_ Hin'].
    apply get_elem_of in Hin'; [|done]. congruence.
Qed.

Lemma cleanupExpiredTokens_spec_witness :
  NoDup Scenario.expired_store.*1 /\
  TokenService.cleanupExpiredTokens 11 Scenario.expired_store = [] /\
  JSMap.get "feed" (TokenService.cleanupExpiredTokens 10 Scenario.expired_store)
    = JSMap.get "feed" Scenario.expired_store.
Proof.
  assert (NoDup Scenario.expired_store.*1) as Hnd
    by (apply (bool_decide_unpack (NoDup Scenario.expired_store.*1)); vm_compute; exact I).
  split; [exact Hnd|]. split.
  - rewrite (proj1 (cleanupExpiredTokens_spec 11 Scenario.expired_store Hnd)). reflexivity.
  - rewrite (proj2 (cleanupExpiredTokens_spec 10 Scenario.expired_store Hnd)). reflexivity.
Defined.

(** The keys of the map stay distinct, as they are in a [Map]. *)
Lemma set_keys {V} (m : list (string * V)) k v :
  (JSMap.set k v m).*1 = if bool_decide (k ∈ m.*1) then m.*1 else m.*1 ++ [k].
Proof.
  induction m as [|[k0 v0] m IH]; [done|]. cbn [JSMap.set].
  destruct (String.eqb k0 k) eqn:E.
  - apply String.eqb_eq in E. subst. rewrite !fmap_cons. cbn [fst].
    rewrite bool_decide_true; [done|]. apply elem_of_cons. by left.
  - apply String.eqb_neq in E. rewrite !fmap_cons, IH. cbn [fst].
    destruct (bool_decide (k ∈ m.*1)) eqn:Ek.
    + apply bool_decide_eq_true in Ek. rewrite bool_decide_true; [done|].
      apply elem_of_cons. by right.
    + apply bool_decide_eq_false in Ek. rewrite bool_decide_false; [done|].
      intros [?|?]%elem_of_cons; [by subst|done].
Qed.

Lemma NoDup_keys_set {V} (m : list (string * V)) k v :
  NoDup m.*1 -> NoDup (JSMap.set k v m).*1.
Proof.
  intros Hnd. rewrite set_keys. case_bool_decide; [done|].
  apply NoDup_app. split; [done|]. split; [|apply NoDup_singleton].
  intros x Hx [->|[]%elem_of_nil]%elem_of_cons. done.
Qed.

Lemma store_step_NoDup env s s' : store_step env s s' -> NoDup s.*1 -> NoDup s'.*1.
Proof.
  induction 1 as [|t s' _ IH|t s' _ IH|i oid email s' _ IH|s' _ IH]; intros Hnd; [done|..].
  - specialize (IH Hnd). unfold TokenService.verifyToken.
    repeat case_match; simpl; try done. rewrite delete_filter. by apply NoDup_keys_filter.
  - specialize (IH Hnd). unfold TokenService.invalidateToken.
    case_match; [by apply NoDup_keys_set|done].
  - specialize (IH Hnd). simpl. by apply NoDup_keys_set.
  - specialize (IH Hnd). unfold TokenService.cleanupExpiredTokens. rewrite cleanup_fold.
    by apply NoDup_keys_filter.
Qed.

(** The token map of the service always has distinct keys. *)
Lemma reachable_tokenStore_NoDup w : reachable w -> NoDup (tokenStore w).*1.
Proof.
  induction 1 as [fs|env ctx req w _ IH]; [constructor|].
  eapply store_step_NoDup; [apply handle_store_step|done].
Qed.

(** ** The shape of a token *)

Lemma is_hex_digit_hex_digit d :
  0 <= d < 16 -> is_hex_digit (SHA256.hex_digit d) = true.
Proof.
  intros Hd. assert (exists n : nat, (n < 16)%nat /\ d = Z.of_nat n) as (n & Hn & ->).
  { exists (Z.to_nat d). split; lia. }
  do 16 (destruct n as [|n]; [reflexivity|]). lia.
Qed.

Lemma byte_val_bounds b : 0 <= SHA256.byte_val b < 256.
Proof.
  unfold SHA256.byte_val. pose proof (Byte.to_N_bounded b). lia.
Qed.

Lemma toString_hex_length buffer :
  String.length (toString_hex buffer) = (2 * length buffer)%nat.
Proof. induction buffer as [|b l IH]; simpl; [done|]. rewrite IH. lia. Qed.

Lemma toString_hex_digits buffer :
  forallb is_hex_digit (list_ascii_of_string (toString_hex buffer)) = true.
Proof.
  induction buffer as [|b l IH]; simpl; [done|].
  pose proof (byte_val_bounds b) as Hb.
  rewrite !is_hex_digit_hex_digit, IH; [done| |].
  - apply Z.mod_pos_bound. lia.
  - split; [apply Z.div_pos; lia|]. apply Z.div_lt_upper_bound; lia.
Qed.

Lemma hex_of_word_length n x : String.length (SHA256.hex_of_word n x) = n.
Proof. induction n as [|n IH]; simpl; [done|]. by rewrite IH. Qed.

Lemma hex_of_word_digits n x :
  forallb is_hex_digit (list_ascii_of_string (SHA256.hex_of_word n x)) = true.
Proof.
  induction n as [|n IH]; simpl; [done|].
  rewrite IH, is_hex_digit_hex_digit; [done|].
  change 15 with (Z.ones 4). rewrite Z.land_ones by lia. apply Z.mod_pos_bound. lia.
Qed.

Lemma string_length_append (a b : string) :
  String.length (String.append a b) = (String.length a + String.length b)%nat.
Proof. induction a as [|c a IH]; simpl; [done|]. by rewrite IH. Qed.

Lemma list_ascii_of_string_append (a b : string) :
  list_ascii_of_string (String.append a b)
    = (list_ascii_of_string a ++ list_ascii_of_string b)%list.
Proof. induction a as [|c a IH]; simpl; [done|]. by rewrite IH. Qed.

Lemma hex_of_words_length ws :
  String.length (SHA256.hex_of_words ws) = (8 * length ws)%nat.
Proof.
  induction ws as [|x ws IH]; [done|].
  change (SHA256.hex_of_words (x :: ws))
    with (String.append (SHA256.hex_of_word 8 x) (SHA256.hex_of_words ws)).
  rewrite string_length_append, hex_of_word_length, IH. simpl. lia.
Qed.

Lemma hex_of_words_digits ws :
  forallb is_hex_digit (list_ascii_of_string (SHA256.hex_of_words ws)) = true.
Proof.
  induction ws as [|x ws IH]; [done|].
  change (SHA256.hex_of_words (x :: ws))
    with (String.append (SHA256.hex_of_word 8 x) (SHA256.hex_of_words ws)).
  by rewrite list_ascii_of_string_append, forallb_app, hex_of_word_digits, IH.
Qed.

Lemma compress_length h block : length h = 8%nat -> length (SHA256.compress h block) = 8%nat.
Proof.
  intros Hh. unfold SHA256.compress. rewrite length_zip_with, Hh. reflexivity.
Qed.

Lemma blocks_length n ws h : length h = 8%nat -> length (SHA256.blocks n ws h) = 8%nat.
Proof.
  revert ws h. induction n as [|n IH]; intros ws h Hh; simpl; [done|].
  destruct ws; [done|]. apply IH. by apply compress_length.
Qed.

Lemma digest_words_length msg : length (SHA256.digest_words msg) = 8%nat.
Proof. unfold SHA256.digest_words. by apply blocks_length. Qed.

(** X4. A token made by [generateToken] from 32 random bytes passes
    [isValidTokenFormat], and so does its SHA-256 digest in
    hexadecimal: both are 64 hexadecimal digits. *)
Theorem generated_tokens_are_well_formed (crypto_randomBytes : nat -> list byte) :
  length (crypto_randomBytes 32%nat) = 32%nat ->
  isValidTokenFormat (generateToken crypto_randomBytes) = true /\
  isValidTokenFormat (SHA256.hex_of_string (generateToken crypto_randomBytes)) = true.
Proof.
  intros Hlen. unfold isValidTokenFormat, generateToken. split.
  - by rewrite toString_hex_length, Hlen, toString_hex_digits.
  - unfold SHA256.hex_of_string, SHA256.hex.
    by rewrite hex_of_words_length, digest_words_length, hex_of_words_digits.
Qed.

Lemma generated_tokens_are_well_formed_witness :
  let rb := fun n => replicate n Byte.xa7 in
  length (rb 32%nat) = 32%nat /\
  isValidTokenFormat (generateToken rb) = true /\
  isValidTokenFormat (SHA256.hex_of_string (generateToken rb)) = true.
Proof.
  intros rb. split; [reflexivity|].
  apply (generated_tokens_are_well_formed rb). reflexivity.
Defined.

(** ** The token kept on the document *)

Lemma find_has_email_elem email (l : list Signer) :
  (exists s, s ∈ l /\ signer_email s = email) -> is_Some (find (has_email email) l).
Proof.
  intros (s & Hin & He). induction l as [|x l IH]; [by apply elem_of_nil in Hin|].
  simpl. destruct (has_email email x) eqn:E; [by eexists|].
  apply IH. apply elem_of_cons in Hin. destruct Hin as [->|Hin]; [|done].
  unfold has_email in E. rewrite He, String.eqb_refl in E. done.
Qed.

Lemma update_first_none {A} (p : A -> bool) f (l : list A) :
  find p l = None -> update_first p f l = l.
Proof.
  induction l as [|x l IH]; simpl; [done|].
  destruct (p x); [done|]. intros H. by rewrite IH.
Qed.

Lemma set_signers_same d : set_signers (doc_signers d) d = d.
Proof. by destruct d. Qed.

(** X5. After [generateSigningToken] for an address that a signer
    entry carries, [verifySigningToken] accepts the token for that
    address at every time before the seven days are over; the call makes
    nothing else acceptable beyond those seven days; and for an address
    no entry carries it leaves the document as it was. *)
Theorem signing_token_round_trip now now' token email d :
  let d' := (generateSigningToken now token email d).2 in
  ((exists s, s ∈ doc_signers d /\ signer_email s = email) ->
   now' < now + seven_days_ms ->
   verifySigningToken now' token email d' = true) /\
  (verifySigningToken now' token email d' = true ->
   now' < now + seven_days_ms \/ verifySigningToken now' token email d = true) /\
  ((forall s, s ∈ doc_signers d -> signer_email s <> email) -> d' = d).
Proof.
  intros d'. subst d'. unfold generateSigningToken, verifySigningToken. cbn [snd doc_signers set_signers].
  set (h := SHA256.hex_of_string token).
  set (p := fun s => String.eqb (signer_email s) email
              && bool_decide (signer_signatureToken s = Some h)
              && match signer_tokenExpires s with Some e => now' <? e | None => false end).
  split; [|split].
  - intros Hex Hlt. apply (find_has_email_elem email) in Hex.
    induction (doc_signers d) as [|x l IH]; [by destruct Hex|].
    simpl. destruct (has_email email x) eqn:E.
    + simpl. unfold p at 1. simpl. unfold has_email in E. rewrite E.
      rewrite bool_decide_true by done. simpl.
      by destruct (Z.ltb_spec now' (now + seven_days_ms)); [|lia].
    + simpl. destruct (p x); [done|]. apply IH. simpl in Hex. by rewrite E in Hex.
  - induction (doc_signers d) as [|x l IH]; simpl; [done|].
    destruct (has_email email x) eqn:E.
    + simpl. destruct (p (set_token h (now + seven_days_ms) x)) eqn:Ep.
      * intros _. left. unfold p in Ep. simpl in Ep.
        apply andb_true_iff in Ep. destruct Ep as [_ Ep]. lia.
      * destruct (p x); intros H; by right.
    + simpl. destruct (p x); [by right|]. apply IH.
  - intros Hno. rewrite update_first_none; [apply set_signers_same|].
    destruct (find _ _) as [s|] eqn:E; [|done].
    exfalso. assert (s ∈ doc_signers d /\ has_email email s = true) as [Hin Hp].
    { clear Hno. induction (doc_signers d) as [|x l IH]; simpl in E; [done|].
      destruct (has_email email x) eqn:E'.
      - simplify_eq. split; [apply elem_of_cons; by left|done].
      - destruct (IH E) as [? ?]. split; [apply elem_of_cons; by right|done]. }
    apply (Hno s Hin). by apply String.eqb_eq.
Qed.

Lemma signing_token_round_trip_witness :
  let d := set_signers [Scenario.bob; Scenario.carol] (set_status draft
             {| doc_title := "Contract"; doc_description := ""; doc_owner := 7;
                doc_originalFile := {| of_filename := "a"; of_path := "a"; of_size := 3;
                                       of_mimetype := "application/pdf" |};
                doc_signedFile := None; doc_status := draft; doc_signers := [];
                doc_signatures := [];
                doc_metadata := {| md_pageCount := 1; md_fileHash := ""; md_lastModified := 0 |};
                doc_sentAt := None; doc_signedAt := None; doc_rejectedAt := None;
                doc_rejectionReason := None |}) in
  (exists s, s ∈ doc_signers d /\ signer_email s = "bob@example.org"%string) /\
  verifySigningToken 2000 "c0ffee0" "bob@example.org"
    (generateSigningToken 1000 "c0ffee0" "bob@example.org" d).2 = true.
Proof.
  intros d.
  assert (exists s, s ∈ doc_signers d /\ signer_email s = "bob@example.org"%string) as Hex.
  { exists Scenario.bob. split; [apply elem_of_cons; by left|reflexivity]. }
  split; [exact Hex|].
  apply (proj1 (signing_token_round_trip 1000 2000 "c0ffee0" "bob@example.org" d)); [exact Hex|].
  vm_compute. reflexivity.
Defined.

(** ** Who may act on a document *)

(** X6. A user who is neither the owner of a document nor an
    administrator is answered 403 by get, download, update, delete, send
    and reject, and the request changes nothing. *)
Theorem ownership_enforced env ctx req w user id msg d :
  guarded req = Some (user, id, msg) ->
  documents w !! id = Some d ->
  owns user d = false ->
  handle env ctx req w = (Err (AppError msg 403), with_next_ref (S (next_ref w)) w).
Proof.
  intros Hg Hd Ho.
  destruct req; simpl in Hg; simplify_eq; unfold_routes; unfold findById;
    rewrite Hd; rewrite ?Ho; reflexivity.
Qed.

Lemma ownership_enforced_witness :
  exists d,
    documents Scenario.w_draft !! 0%nat = Some d /\
    owns Examples.mallory d = false /\
    handle Scenario.env0 Scenario.ctx0 (DeleteDocument Examples.mallory 0) Scenario.w_draft
      = (Err (AppError "You do not have permission to access this document." 403),
         with_next_ref (S (next_ref Scenario.w_draft)) Scenario.w_draft).
Proof.
  eexists. split; [vm_compute; reflexivity|]. split; [vm_compute; reflexivity|].
  eapply (ownership_enforced Scenario.env0 Scenario.ctx0 (DeleteDocument Examples.mallory 0));
    [reflexivity | vm_compute; reflexivity | vm_compute; reflexivity].
Defined.

(** X7. The authenticated submission does not look at who is logged
    in: for any two users the response is the same and so is the state
    it leaves, but for the audit trail. *)
Theorem addSignature_any_user env ctx user1 user2 file body w :
  let rw1 := handle env ctx (AddSignature user1 file body) w in
  let rw2 := handle env ctx (AddSignature user2 file body) w in
  rw1.1 = rw2.1 /\ rw1.2 = with_auditLogs (auditLogs rw1.2) rw2.2.
Proof.
  unfold_routes. cbn zeta.
  repeat case_match; simplify_eq; wsimpl; split; try done.
  all: try by (match goal with |- ?w = _ => destruct w end).
Qed.

(** ** Sending, rejecting, deleting, updating, uploading *)

Lemma pre_save_stamps t m d :
  doc_description (pre_save t m d) = doc_description d /\
  doc_rejectionReason (pre_save t m d) = doc_rejectionReason d /\
  doc_sentAt (pre_save t m d)
    = (if m && status_eqb (doc_status d) sent && bool_decide (doc_sentAt d = None)
       then Some t else doc_sentAt d) /\
  doc_rejectedAt (pre_save t m d)
    = (if m && status_eqb (doc_status d) rejected && bool_decide (doc_rejectedAt d = None)
       then Some t else doc_rejectedAt d) /\
  doc_signedAt (pre_save t m d)
    = (if m && status_eqb (doc_status d) signed && bool_decide (doc_signedAt d = None)
       then Some t else doc_signedAt d).
Proof.
  unfold pre_save. destruct m; [|done].
  destruct (doc_status d) eqn:E, (doc_sentAt d) eqn:E1, (doc_signedAt d) eqn:E2,
    (doc_rejectedAt d) eqn:E3; simpl; rewrite ?E, ?E1, ?E2, ?E3; done.
Qed.

Lemma sendRequests_count env user oid document signers w r w' :
  documentController.sendRequests env user oid document signers w = (r, w') ->
  exists out,
    w' = with_outbox (outbox w ++ out) w /\
    match r with
    | None => length out = length signers
    | Some e => e = MailError /\ (length out < length signers)%nat
    end.
Proof.
  revert w. induction signers as [|s signers IH]; intros w; simpl.
  - intros [= <- <-]. exists []. rewrite app_nil_r. split; [by destruct w|done].
  - destruct (deliver _ _ _) as [[e|] w1] eqn:Hd; apply deliver_inv in Hd;
      destruct Hd as [[? ->]|[? ->]]; simplify_eq.
    + intros [= <- <-]. exists []. rewrite app_nil_r. split; [by destruct w|].
      split; [done|simpl; lia].
    + intros H. apply IH in H. destruct H as (out & -> & Hr). wsimpl.
      eexists (_ :: out). rewrite <- app_assoc. split; [reflexivity|].
      destruct r as [e|]; simpl; [destruct Hr; split; [done|lia] | lia].
Qed.

(** X8. Sending a draft without signers is refused with a 400 and
    changes nothing.  With signers, the document is saved as sent, with
    its [sentAt], before any mail goes out: when the transport throws,
    the response is the error, fewer mails than signers went out and
    nothing is logged, yet the document is sent. *)
Theorem sendDocument_commits_before_mail env ctx user id w d r w' :
  documents w !! id = Some d ->
  owns user d = true ->
  doc_status d = draft ->
  handle env ctx (SendDocument user id) w = (r, w') ->
  match doc_signers d with
  | [] =>
      r = Err (AppError "Please add at least one signer before sending." 400) /\
      documents w' = documents w /\ outbox w' = outbox w
  | _ :: _ =>
      exists d',
        documents w' = <[id := d']> (documents w) /\
        doc_status d' = sent /\
        doc_sentAt d' = Some (default (now env) (doc_sentAt d)) /\
        doc_signers d' = doc_signers d /\
        ((r = Ok 200 (PDocument d') /\
          length (outbox w') = (length (outbox w) + length (doc_signers d))%nat) \/
         (r = Err MailError /\ auditLogs w' = auditLogs w /\
          (length (outbox w') < length (outbox w) + length (doc_signers d))%nat))
  end.
Proof.
  intros Hd Ho Hst. unfold handle, owned, checkDocumentOwnership, findById.
  rewrite Hd, Ho. unfold documentController.sendDocument. rewrite Hst. cbn [status_eqb negb].
  destruct (doc_signers d) as [|s0 l] eqn:Hsig.
  - intros [= <- <-]. done.
  - destruct (save _ _ _ _) as [d1 w1] eqn:Hs.
    pose proof Hs as Hs'. unfold save in Hs'. wsimpl. rewrite Hd in Hs'. wsimpl.
    rewrite Hst in Hs'. cbn [status_eqb negb] in Hs'.
    destruct (pre_save_stamps (now env) true (set_status sent d)) as (_ & _ & Hsent & _).
    wsimpl. cbn [status_eqb andb] in Hsent.
    apply save_inv in Hs. destruct Hs as (-> & Hst1 & Hsg1 & _). wsimpl.
    apply (f_equal fst) in Hs'. cbn [fst] in Hs'. rewrite Hs' in Hsent.
    destruct (documentController.sendRequests _ _ _ _ _ _) as [[e|] w2] eqn:Hr;
      apply sendRequests_count in Hr; destruct Hr as (out & -> & Hout);
      intros [= <- <-]; exists d1; wsimpl; unfold log; wsimpl.
    + destruct Hout as [-> Hlen]. rewrite Hsg1, Hsig in Hlen.
      repeat (match goal with |- _ /\ _ => split end); try done.
      * rewrite Hsent. by destruct (doc_sentAt d).
      * by rewrite Hsg1.
      * right. rewrite length_app. simpl in *. split; [done|split; [done|lia]].
    + rewrite Hsg1, Hsig in Hout.
      repeat (match goal with |- _ /\ _ => split end); try done.
      * rewrite Hsent. by destruct (doc_sentAt d).
      * by rewrite Hsg1.
      * left. rewrite length_app. simpl in *. split; [done|lia].
Qed.

Lemma sendDocument_commits_before_mail_witness :
  exists d d',
    documents Scenario.w_draft !! 0%nat = Some d /\
    owns Scenario.alice d = true /\ doc_status d = draft /\
    let rw := handle Examples.env_nomail Scenario.ctx0 (SendDocument Scenario.alice 0) Scenario.w_draft in
    rw.1 = Err MailError /\
    documents rw.2 !! 0%nat = Some d' /\ doc_status d' = sent /\
    auditLogs rw.2 = auditLogs Scenario.w_draft.
Proof.
  destruct (documents Scenario.w_draft !! 0%nat) as [d|] eqn:Hd; [|by vm_compute in Hd].
  assert (owns Scenario.alice d = true) as Ho.
  { vm_compute in Hd. injection Hd as <-. reflexivity. }
  assert (doc_status d = draft) as Hst.
  { vm_compute in Hd. injection Hd as <-. reflexivity. }
  destruct (handle Examples.env_nomail Scenario.ctx0 (SendDocument Scenario.alice 0) Scenario.w_draft)
    as [r w'] eqn:Hh.
  pose proof (sendDocument_commits_before_mail Examples.env_nomail Scenario.ctx0 Scenario.alice 0%nat
                Scenario.w_draft d r w' Hd Ho Hst Hh) as H.
  destruct (doc_signers d) as [|s0 l] eqn:Hs.
  { vm_compute in Hd. injection Hd as <-. discriminate Hs. }
  destruct H as (d' & Hdocs & Hsent & _ & _ & [[Hr _]|(Hr & Hlogs & _)]).
  { apply (f_equal fst) in Hh. rewrite Hr in Hh. vm_compute in Hh. discriminate Hh. }
  exists d, d'. cbn [fst snd]. rewrite Hdocs, lookup_insert_eq.
  repeat (match goal with |- _ /\ _ => split end); assumption || reflexivity.
Defined.

(** X9. Rejecting a sent document saves it as rejected, with the
    reason and [rejectedAt], before the notification goes out, and the
    notification has no recipient; when the transport throws, the
    response is the error and nothing is logged, yet the document is
    rejected. *)
Theorem rejectDocument_commits_before_mail env ctx user id reason w d r w' :
  documents w !! id = Some d ->
  owns user d = true ->
  doc_status d = sent ->
  handle env ctx (RejectDocument user id reason) w = (r, w') ->
  exists d',
    documents w' = <[id := d']> (documents w) /\
    doc_status d' = rejected /\
    doc_rejectionReason d' = reason /\
    doc_rejectedAt d' = Some (default (now env) (doc_rejectedAt d)) /\
    doc_signers d' = doc_signers d /\
    ((r = Ok 200 (PDocument d') /\
      outbox w' = outbox w ++
        [RejectionNotification None (doc_title d) reason (user_email user)]) \/
     (r = Err MailError /\ auditLogs w' = auditLogs w /\ outbox w' = outbox w)).
Proof.
  intros Hd Ho Hst. unfold handle, owned, checkDocumentOwnership, findById.
  rewrite Hd, Ho. unfold documentController.rejectDocument. rewrite Hst. cbn [status_eqb negb].
  destruct (save _ _ _ _) as [d1 w1] eqn:Hs.
  pose proof Hs as Hs'. unfold save in Hs'. wsimpl. rewrite Hd in Hs'. wsimpl.
  rewrite Hst in Hs'. cbn [status_eqb negb] in Hs'.
  destruct (pre_save_stamps (now env) true (set_rejectionReason reason (set_status rejected d)))
    as (_ & Hreason & _ & Hrej & _).
  wsimpl. cbn [status_eqb andb] in Hrej.
  apply save_inv in Hs. destruct Hs as (-> & Hst1 & Hsg1 & _ & _ & _ & _ & _ & Htitle). wsimpl.
  apply (f_equal fst) in Hs'. cbn [fst] in Hs'. rewrite Hs' in Hrej, Hreason.
  rewrite Htitle.
  destruct (deliver _ _ _) as [[e|] w2] eqn:Hm; apply deliver_inv in Hm;
    destruct Hm as [[? ->]|[? ->]]; simplify_eq;
    intros [= <- <-]; exists d1; unfold log; wsimpl;
    repeat (match goal with |- _ /\ _ => split end); try done;
    try (rewrite Hrej; by destruct (doc_rejectedAt d)).
  - right. done.
  - left. done.
Qed.

Lemma rejectDocument_commits_before_mail_witness :
  exists d d',
    documents Scenario.w_sent !! 0%nat = Some d /\
    owns Scenario.alice d = true /\ doc_status d = sent /\
    let rw := handle Examples.env_nomail Scenario.ctx0
                (RejectDocument Scenario.alice 0 (Some "typo"%string)) Scenario.w_sent in
    rw.1 = Err MailError /\
    documents rw.2 !! 0%nat = Some d' /\ doc_status d' = rejected /\
    doc_rejectionReason d' = Some "typo"%string.
Proof.
  destruct (documents Scenario.w_sent !! 0%nat) as [d|] eqn:Hd; [|by vm_compute in Hd].
  assert (owns Scenario.alice d = true) as Ho.
  { vm_compute in Hd. injection Hd as <-. reflexivity. }
  assert (doc_status d = sent) as Hst.
  { vm_compute in Hd. injection Hd as <-. reflexivity. }
  destruct (handle Examples.env_nomail Scenario.ctx0
              (RejectDocument Scenario.alice 0 (Some "typo"%string)) Scenario.w_sent)
    as [r w'] eqn:Hh.
  destruct (rejectDocument_commits_before_mail Examples.env_nomail Scenario.ctx0 Scenario.alice 0%nat
              (Some "typo"%string) Scenario.w_sent d r w' Hd Ho Hst Hh)
    as (d' & Hdocs & Hrej & Hreason & _ & _ & [[Hr _]|(Hr & _)]).
  { apply (f_equal fst) in Hh. rewrite Hr in Hh. vm_compute in Hh. discriminate Hh. }
  exists d, d'. cbn [fst snd]. rewrite Hdocs, lookup_insert_eq.
  repeat (match goal with |- _ /\ _ => split end); assumption || reflexivity.
Defined.

(** X10. Deleting a draft removes the document and its file and leaves
    the token map and the audit trail as they were: a token minted for
    the document still verifies, and using it is answered 404. *)
Theorem deleteDocument_leaves_tokens env ctx user id w d r w' :
  documents w !! id = Some d ->
  owns user d = true ->
  doc_status d = draft ->
  handle env ctx (DeleteDocument user id) w = (r, w') ->
  r = Ok 200 PNull /\
  documents w' = delete id (documents w) /\
  files w' !! of_path (doc_originalFile d) = None /\
  tokenStore w' = tokenStore w /\
  auditLogs w' = auditLogs w /\
  forall env2 ctx2 token file body oid email,
    (TokenService.verifyToken (now env2) token (tokenStore w')).1 = Some (oid, email) ->
    oid_val oid = id ->
    is_Some file ->
    (handle env2 ctx2 (SignWithToken token file body) w').1
      = Err (AppError "Document not found." 404) /\
    (handle env2 ctx2 (GetSignatureInfo token) w').1
      = Err (AppError "Document not found." 404).
Proof.
  intros Hd Ho Hst. unfold handle at 1, owned, checkDocumentOwnership, findById.
  rewrite Hd, Ho. unfold documentController.deleteDocument. rewrite Hst. cbn [status_eqb negb].
  intros [= <- <-]. unfold log, AuditLog_log. cbn. wsimpl.
  repeat (match goal with |- _ /\ _ => split end); try done.
  - unfold documentController.unlinkFiles.
    destruct (files w !! of_path (doc_originalFile d)) eqn:E; [|done].
    destruct (doc_signedFile d) as [f|].
    + destruct (decide (sf_path f = of_path (doc_originalFile d))) as [->|Hne].
      * apply lookup_delete_eq.
      * rewrite lookup_delete_ne by done. apply lookup_delete_eq.
    + apply lookup_delete_eq.
  - intros env2 ctx2 token [f|] body oid email Hv Hid [f' Hf]; [|done].
    unfold handle, withSignatureUpload, signatureController.signWithToken,
      signatureController.getSignatureInfo. wsimpl.
    destruct (TokenService.verifyToken _ _ _) as [[[o e]|] st]; simpl in Hv; simplify_eq.
    unfold findById. wsimpl. rewrite lookup_delete_eq. done.
Qed.

Lemma deleteDocument_leaves_tokens_witness :
  exists d,
    documents Scenario.w_draft !! 0%nat = Some d /\
    owns Scenario.alice d = true /\ doc_status d = draft /\
    let w' := (handle Scenario.env0 Scenario.ctx0 (DeleteDocument Scenario.alice 0)
                 Scenario.w_draft).2 in
    tokenStore w' = tokenStore Scenario.w_draft /\
    (handle Scenario.env1 Scenario.ctx0 Scenario.bob_signs w').1
      = Err (AppError "Document not found." 404).
Proof.
  destruct (documents Scenario.w_draft !! 0%nat) as [d|] eqn:Hd; [|by vm_compute in Hd].
  assert (owns Scenario.alice d = true) as Ho.
  { vm_compute in Hd. injection Hd as <-. reflexivity. }
  assert (doc_status d = draft) as Hst.
  { vm_compute in Hd. injection Hd as <-. reflexivity. }
  destruct (handle Scenario.env0 Scenario.ctx0 (DeleteDocument Scenario.alice 0)
              Scenario.w_draft) as [r w'] eqn:Hh.
  destruct (deleteDocument_leaves_tokens Scenario.env0 Scenario.ctx0 Scenario.alice 0%nat
              Scenario.w_draft d r w' Hd Ho Hst Hh) as (_ & _ & _ & Htok & _ & Hlater).
  exists d. cbn [snd].
  repeat (match goal with |- _ /\ _ => split end); try assumption; try reflexivity.
  apply (proj1 (Hlater Scenario.env1 Scenario.ctx0 Scenario.token0 (Some "aGk="%string)
                  Scenario.body0 {| oid_ref := 0; oid_val := 0 |} "bob@example.org"%string
                  ltac:(rewrite Htok; vm_compute; reflexivity) eq_refl
                  ltac:(by eexists))).
Defined.

(** X11. An update, accepted or not, leaves the token map, the
    signatures, the files and the mail as they were; of the documents it
    changes at most the one it is aimed at, and never its status, owner,
    file, hash or signatures. *)
Theorem updateDocument_frame env ctx user id title description signers w :
  let w' := (handle env ctx (UpdateDocument user id title description signers) w).2 in
  tokenStore w' = tokenStore w /\ signatures w' = signatures w /\
  files w' = files w /\ outbox w' = outbox w /\
  forall id' d,
    documents w !! id' = Some d ->
    exists d',
      documents w' !! id' = Some d' /\
      (id' <> id -> d' = d) /\
      doc_status d' = doc_status d /\ doc_owner d' = doc_owner d /\
      doc_originalFile d' = doc_originalFile d /\ doc_metadata d' = doc_metadata d /\
      doc_signatures d' = doc_signatures d /\ doc_signedFile d' = doc_signedFile d.
Proof.
  unfold_routes; cbn zeta;
    repeat case_match; simplify_eq; world_inv; wsimpl;
    repeat (match goal with |- _ /\ _ => split end); try done;
    intros id' d0 Hd0; try (exists d0; by repeat split).
  all: destruct (decide (id = id')) as [<-|Hne];
       [ rewrite lookup_insert_eq; simplify_eq; eexists; split; [reflexivity|];
         repeat (match goal with |- _ /\ _ => split end); try congruence
       | rewrite lookup_insert_ne by done; exists d0; by repeat split ].
Qed.



(** ** The audit trail *)

Lemma AuditLog_log_inv t data coll :
  AuditLog_log t data coll = coll \/
  exists u d,
    ad_userId data = Some u /\ ad_documentId data = Some d /\
    ad_action data ∈ auditActions /\
    AuditLog_log t data coll
      = coll ++ [{| al_userId := u; al_documentId := d; al_action := ad_action data;
                    al_timestamp := t; al_status := default "success"%string (ad_status data) |}].
Proof.
  unfold AuditLog_log, AuditLog_create.
  destruct (ad_userId data) as [u|], (ad_documentId data) as [d|]; try by left.
  destruct (bool_decide (ad_action data ∈ auditActions)) eqn:E; [|by left].
  destruct (bool_decide (_ ∈ auditStatuses)); [|by left].
  right. exists u, d. apply bool_decide_eq_true in E. done.
Qed.

(** X13. A request adds at most one entry to the audit trail: upload,
    view, update, send, reject and the authenticated signature add one,
    under their own action, for the acting user, when they succeed;
    download, delete, the token routes, the verification and the sweep
    add none. *)
Theorem audit_trail_entries env ctx req w :
  let rw := handle env ctx req w in
  match rw.1, audit_action req, acting_user req with
  | Ok _ _, Some action, Some u =>
      exists id,
        auditLogs rw.2 = auditLogs w ++
          [{| al_userId := u; al_documentId := id; al_action := action;
              al_timestamp := now env; al_status := "success" |}]
  | _, _, _ => auditLogs rw.2 = auditLogs w
  end.
Proof.
  destruct req; unfold_routes; cbn [audit_action acting_user]; cbn zeta;
    repeat case_match; simplify_eq; world_inv; wsimpl; intros; simplify_eq; wsimpl;
    try done; try (eexists; reflexivity).
Qed.

(** ** A document out of draft *)

Lemma marked_trans a b c : marked a b -> marked b c -> marked a c.
Proof.
  induction 1 as [|l email t s l' Hf Hs _ IH]; [done|].
  intros Hc. eapply marked_step; [exact Hf|exact Hs|]. by apply IH.
Qed.

Lemma marked_once email t l s :
  find (has_email email) l = Some s -> signer_signed s = false ->
  marked l (update_first (has_email email) (mark_signed t) l).
Proof. intros Hf Hs. eapply marked_step; [exact Hf|exact Hs|apply marked_refl]. Qed.

Lemma frozen_refl d : frozen d d.
Proof. repeat split; try done. apply marked_refl. Qed.

Lemma frozen_trans a b c : frozen a b -> frozen b c -> frozen a c.
Proof.
  intros (? & ? & ? & ? & ? & Hab & Pab) (? & ? & ? & ? & ? & Hbc & Pbc).
  repeat split; try congruence.
  - by eapply marked_trans.
  - by etrans.
Qed.

(** An entry that has signed is left as it is. *)
Lemma update_first_keeps {A} (p : A -> bool) f (l : list A) s x :
  find p l = Some s -> x ∈ l -> x <> s -> x ∈ update_first p f l.
Proof.
  induction l as [|y l IH]; simpl; [done|].
  destruct (p y).
  - intros [= ->] [->|Hin]%elem_of_cons Hne; [done|]. apply elem_of_cons. by right.
  - intros Hf [->|Hin]%elem_of_cons Hne; apply elem_of_cons; [by left|right; by apply IH].
Qed.

Lemma marked_signed_kept l l' x :
  marked l l' -> x ∈ l -> signer_signed x = true -> x ∈ l'.
Proof.
  induction 1 as [|l email t s l' Hf Hs _ IH]; [done|].
  intros Hin Hx. apply IH; [|done]. eapply update_first_keeps; [exact Hf|exact Hin|].
  intros ->. congruence.
Qed.

(** An entry behind another entry with the same address is never
    reached. *)
Lemma update_first_shadowed email f (l : list Signer) i j si sj :
  (i < j)%nat -> l !! i = Some si -> l !! j = Some sj ->
  signer_email si = signer_email sj ->
  (forall s, signer_email (f s) = signer_email s) ->
  update_first (has_email email) f l !! j = Some sj /\
  exists si', update_first (has_email email) f l !! i = Some si' /\
              signer_email si' = signer_email sj.
Proof.
  intros Hij Hi Hj He Hf. revert i j Hij Hi Hj.
  induction l as [|x l IH]; intros i j Hij Hi Hj; [done|].
  simpl. destruct (has_email email x) eqn:E.
  - destruct j as [|j]; [lia|]. simpl in *. split; [done|].
    destruct i as [|i]; simpl in *; simplify_eq.
    + eexists. split; [done|]. by rewrite Hf.
    + by exists si.
  - destruct j as [|j]; [lia|]. destruct i as [|i]; simpl in *; simplify_eq.
    + split; [|by exists si].
      clear IH Hij. revert j Hj. induction l as [|y l IHl]; intros j Hj; [done|].
      simpl. destruct (has_email email y) eqn:Ey.
      * destruct j as [|j]; simpl in *; simplify_eq; [|done].
        unfold has_email in E, Ey. rewrite He in E. congruence.
      * destruct j as [|j]; simpl in *; [done|]. by apply IHl.
    + apply (IH i j); [lia|done|done].
Qed.

Lemma marked_shadowed l l' i j si sj :
  marked l l' ->
  (i < j)%nat -> l !! i = Some si -> l !! j = Some sj ->
  signer_email si = signer_email sj ->
  l' !! j = Some sj.
Proof.
  intros Hm. revert si. induction Hm as [|l email t s l' Hf Hs _ IH]; intros si Hij Hi Hj He;
    [done|].
  destruct (update_first_shadowed email (mark_signed t) l i j si sj Hij Hi Hj He)
    as (Hj' & si' & Hi' & He'); [done|].
  by apply (IH si').
Qed.

Lemma save_description t id d w d' w' :
  save t id d w = (d', w') -> doc_description d' = doc_description d.
Proof.
  unfold save. intros [= <- _]. unfold pre_save.
  repeat case_match; done.
Qed.

Ltac save_more :=
  repeat match goal with
  | H : save _ _ ?d _ = (?d', _) |- _ =>
      lazymatch goal with
      | _ : doc_description d' = doc_description d |- _ => fail
      | _ => pose proof (save_description _ _ _ _ _ _ H)
      end
  end.

Lemma frozen_step env ctx req w id d :
  wf w -> documents w !! id = Some d -> doc_status d <> draft ->
  exists d', documents (handle env ctx req w).2 !! id = Some d' /\
             doc_status d' <> draft /\ frozen d d'.
Proof.
  intros Hwf Hd Hst.
  assert (id <> next_oid w) as Hfresh by (specialize (Hwf id d Hd); simpl in Hwf; lia).
  destruct req; unfold_routes;
    repeat case_match; simplify_eq; save_more; world_inv; wsimpl;
    repeat match goal with
    | H : negb (status_eqb _ _) = false |- _ => apply negb_status_eqb_false in H
    | H4 : doc_signatures ?d = _ ++ [_],
      H : is_Some (mapM destructure (SigId <$> doc_signatures ?d)) |- _ =>
        rewrite H4, mapM_destructure_ids in H; [by destruct H | by intros [? ?]%app_eq_nil]
    end;
    rewrite ?insert_insert_eq;
    try (exists d; split; [done|split; [done|apply frozen_refl]]).
  all: match goal with
       | |- exists _, <[?i := _]> _ !! _ = _ /\ _ =>
           destruct (decide (i = id)) as [Heq|Hne];
           [ rewrite Heq, lookup_insert_eq; subst; simplify_eq
           | rewrite lookup_insert_ne by done; exists d; split; [done|split; [done|apply frozen_refl]] ]
       | |- exists _, delete ?i _ !! _ = _ /\ _ =>
           destruct (decide (i = id)) as [Heq|Hne];
           [ subst; simplify_eq; congruence
           | rewrite lookup_delete_ne by done; exists d; split; [done|split; [done|apply frozen_refl]] ]
       end.
  all: try congruence.
  all: eexists; split; [reflexivity|]; split; [congruence|].
  all: unfold frozen; repeat (match goal with |- _ /\ _ => split end); try congruence.
  all: repeat match goal with
       | H : doc_signers ?x = _ |- context [doc_signers ?x] => rewrite H
       | H : doc_signatures ?x = _ |- context [doc_signatures ?x] => rewrite H
       end; wsimpl.
  all: first [ apply marked_refl | done
             | eapply marked_once; eassumption
             | by apply prefix_app_r ].
Qed.

Lemma run_frozen reqs w id d :
  wf w -> documents w !! id = Some d -> doc_status d <> draft ->
  exists d', documents (run reqs w) !! id = Some d' /\ doc_status d' <> draft /\ frozen d d'.
Proof.
  revert w d. induction reqs as [|[[env ctx] req] reqs IH]; intros w d Hwf Hd Hst; simpl.
  - exists d. split; [done|]. split; [done|apply frozen_refl].
  - destruct (frozen_step env ctx req w id d Hwf Hd Hst) as (d1 & Hd1 & Hst1 & Hf1).
    destruct (IH _ d1 (handle_wf env ctx req w Hwf) Hd1 Hst1) as (d2 & Hd2 & Hst2 & Hf2).
    exists d2. split; [done|]. split; [done|]. by eapply frozen_trans.
Qed.

Lemma update_first_mark_names email t (l : list Signer) :
  signer_email <$> update_first (has_email email) (mark_signed t) l = signer_email <$> l /\
  signer_name <$> update_first (has_email email) (mark_signed t) l = signer_name <$> l.
Proof.
  induction l as [|x l [IHe IHn]]; [done|]. cbn [update_first].
  destruct (has_email email x); [done|]. rewrite !fmap_cons, IHe, IHn. done.
Qed.

Lemma marked_names l l' :
  marked l l' ->
  signer_email <$> l' = signer_email <$> l /\ signer_name <$> l' = signer_name <$> l.
Proof.
  induction 1 as [|l email t s l' _ _ _ [IHe IHn]]; [done|].
  destruct (update_first_mark_names email t l) as [He Hn]. split; congruence.
Qed.

(** X14. Once a document has left draft, no run of requests deletes it
    or brings it back to draft, and none changes its title, description,
    owner, file or hash; its signatures are only added to; and its
    signer entries change only by marking the first holder of an
    address, found unsigned, as signed: names and addresses stay, in
    their order, and an entry that has signed is kept as it is. *)
Theorem sent_document_is_frozen reqs w id d :
  wf w -> documents w !! id = Some d -> doc_status d <> draft ->
  exists d',
    documents (run reqs w) !! id = Some d' /\ doc_status d' <> draft /\
    doc_title d' = doc_title d /\ doc_description d' = doc_description d /\
    doc_owner d' = doc_owner d /\ doc_originalFile d' = doc_originalFile d /\
    doc_metadata d' = doc_metadata d /\
    doc_signatures d `prefix_of` doc_signatures d' /\
    marked (doc_signers d) (doc_signers d') /\
    signer_email <$> doc_signers d' = signer_email <$> doc_signers d /\
    signer_name <$> doc_signers d' = signer_name <$> doc_signers d /\
    forall s, s ∈ doc_signers d -> signer_signed s = true -> s ∈ doc_signers d'.
Proof.
  intros Hwf Hd Hst.
  destruct (run_frozen reqs w id d Hwf Hd Hst)
    as (d' & Hd' & Hst' & Ht & Hde & Ho & Hf & Hm & Hmk & Hsg).
  destruct (marked_names _ _ Hmk) as [He Hn].
  exists d'. repeat (match goal with |- _ /\ _ => split end); try done.
  intros s Hin Hs. by eapply marked_signed_kept.
Qed.

Lemma sent_document_is_frozen_witness :
  let reqs :=
    [(Scenario.env0, Scenario.ctx0, Scenario.bob_signs);
     (Scenario.env1, Scenario.ctx0,
      UpdateDocument Scenario.alice 0 (Some "Other"%string) None SignersAbsent)] in
  exists d d',
    wf Scenario.w_sent /\
    documents Scenario.w_sent !! 0%nat = Some d /\
    doc_status d <> draft /\
    documents (run reqs Scenario.w_sent) !! 0%nat = Some d' /\
    doc_status d' <> draft /\ doc_title d' = doc_title d /\
    signer_email <$> doc_signers d' = signer_email <$> doc_signers d.
Proof.
  intros reqs.
  assert (wf Scenario.w_sent) as Hwf
    by (apply (bool_decide_unpack (wf Scenario.w_sent)); vm_compute; exact I).
  destruct (documents Scenario.w_sent !! 0%nat) as [d|] eqn:Hd; [|by vm_compute in Hd].
  assert (doc_status d <> draft) as Hst.
  { vm_compute in Hd. injection Hd as <-. discriminate. }
  destruct (sent_document_is_frozen reqs Scenario.w_sent 0%nat d Hwf Hd Hst)
    as (d' & H1 & H2 & H3 & _ & _ & _ & _ & _ & _ & H4 & _).
  exists d, d'. repeat (match goal with |- _ /\ _ => split end); assumption || reflexivity.
Defined.

(** X15. A signer entry that stands behind another entry with the same
    address is never marked: if it has not signed when the document
    leaves draft, no run of requests makes it sign, so the document
    never has all its signers signed. *)
Theorem shadowed_signer_never_signs reqs w id d i j si sj :
  wf w -> documents w !! id = Some d -> doc_status d <> draft ->
  (i < j)%nat -> doc_signers d !! i = Some si -> doc_signers d !! j = Some sj ->
  signer_email si = signer_email sj -> signer_signed sj = false ->
  exists d',
    documents (run reqs w) !! id = Some d' /\
    doc_signers d' !! j = Some sj /\
    forallb signer_signed (doc_signers d') = false.
Proof.
  intros Hwf Hd Hst Hij Hi Hj He Hs.
  destruct (run_frozen reqs w id d Hwf Hd Hst)
    as (d' & Hd' & _ & (_ & _ & _ & _ & _ & Hm & _)).
  exists d'. split; [done|].
  pose proof (marked_shadowed _ _ i j si sj Hm Hij Hi Hj He) as Hj'.
  split; [done|].
  apply not_true_is_false. intros Hall. rewrite forallb_forall in Hall.
  specialize (Hall sj). rewrite Hs in Hall. discriminate Hall.
  apply list_elem_of_In. by eapply list_elem_of_lookup_2.
Qed.

Lemma shadowed_signer_never_signs_witness :
  let reqs := [(Scenario.env0, Scenario.ctx0, Scenario.bob_signs);
               (Scenario.env0, Scenario.ctx0, Scenario.carol_signs)] in
  exists d si d',
    wf Examples.w_twins /\ documents Examples.w_twins !! 0%nat = Some d /\ doc_status d <> draft /\
    doc_signers d !! 0%nat = Some si /\
    doc_signers d !! 1%nat = Some Examples.bob_again /\
    signer_email si = signer_email Examples.bob_again /\
    documents (run reqs Examples.w_twins) !! 0%nat = Some d' /\
    doc_signers d' !! 1%nat = Some Examples.bob_again /\
    forallb signer_signed (doc_signers d') = false.
Proof.
  intros reqs.
  assert (wf Examples.w_twins) as Hwf by (apply (bool_decide_unpack (wf Examples.w_twins)); vm_compute; exact I).
  destruct (documents Examples.w_twins !! 0%nat) as [d|] eqn:Hd; [|by vm_compute in Hd].
  destruct (doc_signers d !! 0%nat) as [si|] eqn:Hi;
    [|vm_compute in Hd; injection Hd as <-; by vm_compute in Hi].
  assert (doc_status d <> draft) as Hst.
  { vm_compute in Hd. injection Hd as <-. discriminate. }
  assert (doc_signers d !! 1%nat = Some Examples.bob_again) as Hj.
  { vm_compute in Hd. injection Hd as <-. reflexivity. }
  assert (signer_email si = signer_email Examples.bob_again) as He.
  { vm_compute in Hd. injection Hd as <-. vm_compute in Hi. injection Hi as <-. reflexivity. }
  destruct (shadowed_signer_never_signs reqs Examples.w_twins 0%nat d 0%nat 1%nat si Examples.bob_again
              Hwf Hd Hst ltac:(lia) Hi Hj He eq_refl) as (d' & H1 & H2 & H3).
  exists d, si, d'. repeat (match goal with |- _ /\ _ => split end); assumption || reflexivity.
Defined.

(** ** The time stamps of the life cycle *)

Lemma save_stamps t id d w d' w' :
  save t id d w = (d', w') ->
  doc_sentAt d'
    = (if save_modified id d w && status_eqb (doc_status d) sent
          && bool_decide (doc_sentAt d = None)
       then Some t else doc_sentAt d) /\
  doc_rejectedAt d'
    = (if save_modified id d w && status_eqb (doc_status d) rejected
          && bool_decide (doc_rejectedAt d = None)
       then Some t else doc_rejectedAt d).
Proof.
  unfold save. intros [= <- _].
  destruct (pre_save_stamps t (save_modified id d w) d) as (_ & _ & H1 & H2 & _).
  by split.
Qed.

Ltac save_stamp :=
  repeat match goal with
  | H : save ?t ?id ?d ?w = (?d', _) |- _ =>
      lazymatch goal with
      | _ : doc_sentAt d' = _ |- _ => fail
      | _ => destruct (save_stamps _ _ _ _ _ _ H)
      end
  end.

Lemma mintTokens_stamps env oid emails i d s :
  doc_sentAt (documentController.mintTokens env oid emails i d s).1 = doc_sentAt d /\
  doc_rejectedAt (documentController.mintTokens env oid emails i d s).1 = doc_rejectedAt d.
Proof.
  revert i d s. induction emails as [|e emails IH]; intros i d s; simpl; [done|].
  destruct (IH (S i) (set_signers
      (update_first (has_email e)
         (set_token (SHA256.hex_of_string (randomBytes env i)) (now env + seven_days_ms))
         (doc_signers d)) d)
      (JSMap.set (randomBytes env i)
         {| td_documentId := oid; td_email := e;
            td_expiresAt := now env + TokenService.default_expiry * 1000;
            td_used := false |} s)) as (-> & ->).
  done.
Qed.

Ltac mint_stamp :=
  repeat match goal with
  | H : documentController.mintTokens ?env ?oid ?emails ?i ?d ?s = (?d', _) |- _ =>
      lazymatch goal with
      | _ : doc_sentAt d' = doc_sentAt d |- _ => fail
      | _ =>
        let H1 := fresh in let H2 := fresh in
        destruct (mintTokens_stamps env oid emails i d s) as [H1 H2];
        rewrite H in H1, H2; cbn [fst] in H1, H2
      end
  end.

Ltac stamps_finish IH :=
  repeat match goal with
  | Hl : documents _ !! _ = Some ?d |- _ =>
      lazymatch goal with
      | _ : stamps_ok d |- _ => fail
      | _ => pose proof (IH _ _ Hl)
      end
  end;
  unfold stamps_ok, save_modified in *; wsimpl;
  rewrite ?lookup_insert_eq in *;
  repeat match goal with
  | Hl : documents ?w !! ?i = Some _, H : context [documents ?w !! ?i] |- _ =>
      rewrite Hl in H
  end;
  repeat match goal with
  | H : doc_status ?d = _ |- _ => progress (rewrite H in * )
  end;
  cbn [status_eqb negb andb] in *.

Lemma stamps_step env ctx req w :
  wf w ->
  (forall id d, documents w !! id = Some d -> stamps_ok d) ->
  forall id d, documents (handle env ctx req w).2 !! id = Some d -> stamps_ok d.
Proof.
  intros Hwf IH.
  destruct req; unfold_routes;
    repeat case_match; simplify_eq; save_stamp; mint_stamp; world_inv; wsimpl;
    repeat match goal with
    | H : negb (status_eqb _ _) = false |- _ => apply negb_status_eqb_false in H
    | H4 : doc_signatures ?d = _ ++ [_],
      H : is_Some (mapM destructure (SigId <$> doc_signatures ?d)) |- _ =>
        rewrite H4, mapM_destructure_ids in H; [by destruct H | by intros [? ?]%app_eq_nil]
    end;
    rewrite ?insert_insert_eq; try exact IH.
  all: intros id' d' Hd';
       match type of Hd' with
       | <[?i := _]> _ !! _ = _ =>
           destruct (decide (i = id')) as [Heq|Hne];
           [ rewrite Heq, lookup_insert_eq in Hd'; simplify_eq
           | rewrite lookup_insert_ne in Hd' by done; by eapply IH ]
       | delete ?i _ !! _ = _ =>
           destruct (decide (i = id')) as [Heq|Hne];
           [ rewrite Heq, lookup_delete_eq in Hd'; done
           | rewrite lookup_delete_ne in Hd' by done; by eapply IH ]
       end.
  all: stamps_finish IH.
  all: rewrite ?andb_false_r in *.
  all: repeat match goal with
       | H : doc_sentAt ?d = _ |- context [doc_sentAt ?d] => rewrite H
       | H : doc_rejectedAt ?d = _ |- context [doc_rejectedAt ?d] => rewrite H
       end.
  all: repeat match goal with
       | H : _ /\ _ |- _ => destruct H
       end.
  all: repeat case_bool_decide; try by (split; eauto).
  all: by (split; [by eexists|by eauto]).
Qed.

Lemma reachable_w_stuck : reachable Scenario.w_stuck.
Proof.
  unfold Scenario.w_stuck, Scenario.w_bob, Scenario.w_sent, Scenario.w_draft.
  repeat apply reach_step. apply reach_start.
Qed.

(** X16. In every state of a run, a draft has neither [sentAt] nor
    [rejectedAt], a sent document has its [sentAt] and no [rejectedAt],
    and a rejected document has both. *)
Theorem reachable_stamps w id d :
  reachable w -> documents w !! id = Some d -> stamps_ok d.
Proof.
  intros Hr. assert (wf w /\ forall id d, documents w !! id = Some d -> stamps_ok d)
    as [_ H]; [|by apply H].
  clear id d. induction Hr as [fs|env ctx req w _ [Hwf IH]].
  - split; [apply map_Forall_empty | intros id d Hd; simpl in Hd; by rewrite lookup_empty in Hd].
  - split; [by apply handle_wf|]. by apply stamps_step.
Qed.

Lemma reachable_stamps_witness :
  exists d,
    reachable Scenario.w_stuck /\
    documents Scenario.w_stuck !! 0%nat = Some d /\
    stamps_ok d.
Proof.
  destruct (documents Scenario.w_stuck !! 0%nat) as [d|] eqn:Hd; [|by vm_compute in Hd].
  exists d. split; [apply reachable_w_stuck|]. split; [reflexivity|].
  exact (reachable_stamps Scenario.w_stuck 0%nat d reachable_w_stuck Hd).
Defined.

(** ** The signatures of a document and its signer entries *)

Lemma validate_signature_fields t id coll i s :
  validate_signature t id coll i = inr s ->
  sig_documentId s = in_documentId i /\ sig_signerEmail s = toLowerCase (in_signerEmail i) /\
  sig_id s = id /\ sig_isVerified s = true /\ 1 <= sig_pageNumber s /\
  sig_signatureType s ∈ signatureTypes /\ sig_signedAt s = t.
Proof.
  unfold validate_signature. intros H. repeat case_match; simplify_eq. simpl.
  repeat (match goal with |- _ /\ _ => split end); try done.
  - lia.
  - match goal with H : negb (bool_decide _) = false |- _ =>
      apply negb_false_iff, bool_decide_eq_true in H; exact H end.
Qed.

Lemma update_first_marked email t l s :
  find (has_email email) l = Some s ->
  mark_signed t s ∈ update_first (has_email email) (mark_signed t) l /\
  signer_email s = email.
Proof.
  induction l as [|x l IH]; simpl; [done|].
  destruct (has_email email x) eqn:E.
  - intros [= ->]. split; [apply elem_of_cons; by left|]. by apply String.eqb_eq.
  - intros H. destruct (IH H). split; [apply elem_of_cons; by right|done].
Qed.

Lemma signature_backed_kept w w' s d d' :
  documents w !! sig_documentId s = Some d ->
  documents w' !! sig_documentId s = Some d' ->
  doc_status d' <> draft -> frozen d d' ->
  signature_backed w s -> signature_backed w' s.
Proof.
  intros Hd Hd' Hst (_ & _ & _ & _ & _ & Hsig & Hpre) (d0 & signer & Hd0 & _ & Hin & Hsin & He & Hs).
  simplify_eq. exists d', signer. repeat (match goal with |- _ /\ _ => split end); try done.
  - destruct Hpre as [k ->]. apply elem_of_app. by left.
  - by eapply marked_signed_kept.
Qed.

Lemma new_signature_backed env ctx req w s :
  wf w ->
  signatures (handle env ctx req w).2 = signatures w ++ [s] ->
  signature_backed (handle env ctx req w).2 s.
Proof.
  intros Hwf.
  destruct req; unfold_routes;
    repeat case_match; simplify_eq; world_inv; wsimpl;
    repeat match goal with
    | H : negb (status_eqb _ _) = false |- _ => apply negb_status_eqb_false in H
    | H4 : doc_signatures ?d = _ ++ [_],
      H : is_Some (mapM destructure (SigId <$> doc_signatures ?d)) |- _ =>
        rewrite H4, mapM_destructure_ids in H; [by destruct H | by intros [? ?]%app_eq_nil]
    end;
    rewrite ?insert_insert_eq; intros Hs;
    try (apply (f_equal length) in Hs; rewrite length_app in Hs; simpl in Hs; lia);
    apply app_inv_head in Hs; simplify_eq.
  all: match goal with
       | Hv : validate_signature _ _ _ _ = inr _ |- _ =>
           destruct (validate_signature_fields _ _ _ _ _ Hv) as (Hdoc & Hem & _);
           cbn in Hdoc, Hem
       end.
  all: match goal with
       | Hf : find (has_email _) _ = Some _ |- _ =>
           destruct (update_first_marked _ (now env) _ _ Hf) as [Hin He]
       end.
  all: eexists _, (mark_signed (now env) _); unfold signature_backed; wsimpl;
       rewrite Hdoc, lookup_insert_eq;
       repeat (match goal with |- _ /\ _ => split end);
       [ reflexivity | congruence
       | match goal with H : doc_signatures _ = _ ++ [_] |- _ => rewrite H end;
         apply elem_of_app; right; apply list_elem_of_singleton; reflexivity
       | match goal with H : doc_signers _ = update_first _ _ _ |- _ => rewrite H end;
         exact Hin
       | simpl; by rewrite He, Hem
       | reflexivity ].
Qed.

Lemma backed_step env ctx req w :
  wf w ->
  Forall (signature_backed w) (signatures w) ->
  Forall (signature_backed (handle env ctx req w).2) (signatures (handle env ctx req w).2).
Proof.
  intros Hwf IH.
  assert (Forall (signature_backed (handle env ctx req w).2) (signatures w)) as Hold.
  { eapply Forall_impl; [exact IH|]. intros s Hs. simpl in Hs.
    pose proof Hs as (d & signer & Hd & Hst & _).
    destruct (frozen_step env ctx req w _ d Hwf Hd Hst) as (d' & Hd' & Hst' & Hf).
    eapply (signature_backed_kept w _ s d d'); eassumption. }
  destruct (handle_signatures env ctx req w) as [->|(t & i & s & _ & Heq)]; [done|].
  rewrite Heq. apply Forall_app. split; [done|].
  constructor; [|constructor]. by apply new_signature_backed.
Qed.

Lemma reachable_backed w s :
  reachable w -> s ∈ signatures w -> signature_backed w s.
Proof.
  intros Hr. assert (wf w /\ Forall (signature_backed w) (signatures w)) as [_ H].
  { induction Hr as [fs|env ctx req w _ [Hwf IH]].
    - split; [apply map_Forall_empty|constructor].
    - split; [by apply handle_wf|by apply backed_step]. }
  rewrite Forall_forall in H. apply H.
Qed.

(** X17. In every state of a run, each stored Signature has its
    document: the document is in the collection, out of draft, lists the
    Signature, and has a signer entry marked signed whose address, in
    lower case, is the one on the Signature. *)
Theorem signatures_are_backed w s :
  reachable w -> s ∈ signatures w ->
  exists d signer,
    documents w !! sig_documentId s = Some d /\
    doc_status d <> draft /\
    sig_id s ∈ doc_signatures d /\
    signer ∈ doc_signers d /\
    toLowerCase (signer_email signer) = sig_signerEmail s /\
    signer_signed signer = true.
Proof.
  intros Hr Hin. destruct (reachable_backed w s Hr Hin) as (d & signer & H).
  exists d, signer. exact H.
Qed.

Lemma signatures_are_backed_witness :
  exists s d signer,
    reachable Scenario.w_stuck /\ s ∈ signatures Scenario.w_stuck /\
    documents Scenario.w_stuck !! sig_documentId s = Some d /\
    signer ∈ doc_signers d /\ signer_signed signer = true.
Proof.
  destruct (signatures Scenario.w_stuck) as [|s l] eqn:Hs; [by vm_compute in Hs|].
  assert (s ∈ signatures Scenario.w_stuck) as Hin by (rewrite Hs; apply elem_of_cons; by left).
  destruct (signatures_are_backed Scenario.w_stuck s reachable_w_stuck Hin)
    as (d & signer & Hd & _ & _ & Hsin & _ & Hsig).
  exists s, d, signer. rewrite <- Hs.
  repeat (match goal with |- _ /\ _ => split end); try assumption.
  apply reachable_w_stuck.
Defined.

Lemma no_signedFile_step env ctx req w :
  wf w ->
  (forall id d, documents w !! id = Some d -> doc_signedFile d = None) ->
  forall id d, documents (handle env ctx req w).2 !! id = Some d -> doc_signedFile d = None.
Proof.
  intros Hwf IH.
  destruct req; unfold_routes;
    repeat case_match; simplify_eq; world_inv; wsimpl;
    repeat match goal with
    | H : negb (status_eqb _ _) = false |- _ => apply negb_status_eqb_false in H
    | H4 : doc_signatures ?d = _ ++ [_],
      H : is_Some (mapM destructure (SigId <$> doc_signatures ?d)) |- _ =>
        rewrite H4, mapM_destructure_ids in H; [by destruct H | by intros [? ?]%app_eq_nil]
    end;
    rewrite ?insert_insert_eq; try exact IH.
  all: intros id' d' Hd';
       match type of Hd' with
       | <[?i := _]> _ !! _ = _ =>
           destruct (decide (i = id')) as [Heq|Hne];
           [ rewrite Heq, lookup_insert_eq in Hd'; simplify_eq
           | rewrite lookup_insert_ne in Hd' by done; by eapply IH ]
       | delete ?i _ !! _ = _ =>
           destruct (decide (i = id')) as [Heq|Hne];
           [ rewrite Heq, lookup_delete_eq in Hd'; done
           | rewrite lookup_delete_ne in Hd' by done; by eapply IH ]
       end.
  all: repeat match goal with
       | Hl : documents _ !! _ = Some ?d |- _ =>
           lazymatch goal with
           | _ : doc_signedFile d = None |- _ => fail
           | _ => pose proof (IH _ _ Hl)
           end
       end; congruence.
Qed.

Lemma reachable_no_signedFile w id d :
  reachable w -> documents w !! id = Some d -> doc_signedFile d = None.
Proof.
  intros Hr. assert (wf w /\ forall id d, documents w !! id = Some d -> doc_signedFile d = None)
    as [_ H]; [|by apply H].
  clear id d. induction Hr as [fs|env ctx req w _ [Hwf IH]].
  - split; [apply map_Forall_empty | intros id d Hd; simpl in Hd; by rewrite lookup_empty in Hd].
  - split; [by apply handle_wf|]. by apply no_signedFile_step.
Qed.

Lemma reachable_isVerified w :
  reachable w -> Forall (fun s => sig_isVerified s = true) (signatures w).
Proof.
  induction 1 as [fs|env ctx req w _ IH]; [constructor|].
  destruct (handle_signatures env ctx req w) as [->|(t & i & s & Hv & ->)]; [done|].
  apply Forall_app. split; [done|]. constructor; [|constructor].
  by apply validate_signature_fields in Hv as (_ & _ & _ & ? & _).
Qed.

(** X18. In every state of a run, the verification of a stored
    Signature answers 200 with [isValid] and [documentIntact] both true
    and changes nothing; the document of the Signature has no signed
    file, so that no file is hashed for the answer. *)
Theorem verifySignature_reachable env ctx user signatureId w s :
  reachable w ->
  find (fun s => Nat.eqb (sig_id s) signatureId) (signatures w) = Some s ->
  handle env ctx (VerifySignature user signatureId) w = (Ok 200 (PVerification s true true), w) /\
  exists d, documents w !! sig_documentId s = Some d /\ doc_signedFile d = None.
Proof.
  intros Hr Hf.
  assert (s ∈ signatures w) as Hin.
  { clear Hr. induction (signatures w) as [|x l IH]; simpl in Hf; [done|].
    destruct (Nat.eqb (sig_id x) signatureId); simplify_eq.
    - apply elem_of_cons; by left.
    - apply elem_of_cons; right; auto. }
  destruct (reachable_backed w s Hr Hin) as (d & _ & Hd & _).
  pose proof (reachable_no_signedFile w _ d Hr Hd) as Hnone.
  split; [|by exists d].
  unfold handle, signatureController.verifySignature. rewrite Hf.
  rewrite Hd. unfold signatureController.documentIntact. rewrite Hnone.
  pose proof (reachable_isVerified w Hr) as Hv. rewrite Forall_forall in Hv.
  by rewrite (Hv s Hin).
Qed.

Lemma verifySignature_reachable_witness :
  exists s,
    reachable Scenario.w_stuck /\
    find (fun s => Nat.eqb (sig_id s) 1) (signatures Scenario.w_stuck) = Some s /\
    handle Scenario.env1 Scenario.ctx0 (VerifySignature Scenario.alice 1) Scenario.w_stuck
      = (Ok 200 (PVerification s true true), Scenario.w_stuck).
Proof.
  destruct (find (fun s => Nat.eqb (sig_id s) 1) (signatures Scenario.w_stuck)) as [s|] eqn:Hf;
    [|by vm_compute in Hf].
  exists s. split; [apply reachable_w_stuck|]. split; [reflexivity|].
  exact (proj1 (verifySignature_reachable Scenario.env1 Scenario.ctx0 Scenario.alice 1
                  Scenario.w_stuck s reachable_w_stuck Hf)).
Defined.

(** ** Pages *)

Lemma ceil_div_bounds a b : 0 < b -> (ceil_div a b - 1) * b < a <= ceil_div a b * b.
Proof.
  intros Hb. unfold ceil_div.
  pose proof (Z.div_mod (- a) b ltac:(lia)) as Hdm.
  pose proof (Z.mod_pos_bound (- a) b Hb) as Hm.
  nia.
Qed.

(** X19. For a positive limit, [totalPages] is the least number of
    pages of that size that hold [total] items (none for no item),
    [hasNext] says that items remain beyond the page, and [hasPrev] that
    the page is not the first. *)
Theorem formatPaginated_pages {A} (data : list A) page limit total :
  0 < limit -> 0 <= total ->
  let p := (formatPaginated data page limit total).2 in
  (pg_totalPages p - 1) * limit < total <= pg_totalPages p * limit /\
  (pg_totalPages p = 0 <-> total = 0) /\
  (pg_hasNext p = true <-> page * limit < total) /\
  (pg_hasPrev p = true <-> 1 < page).
Proof.
  intros Hl Ht p. subst p. unfold formatPaginated. cbn [snd pg_totalPages pg_hasNext pg_hasPrev].
  pose proof (ceil_div_bounds total limit Hl) as Hb.
  split; [lia|]. split; [split; [nia|intros ->; nia]|].
  rewrite !Z.ltb_lt. split; [split; nia|done].
Qed.

Lemma formatPaginated_pages_witness :
  let p := (formatPaginated [1; 2; 3] 2 3 7).2 in
  0 < 3 /\ 0 <= 7 /\ pg_totalPages p = 3 /\ pg_hasNext p = true /\ pg_hasPrev p = true.
Proof.
  intros p. split; [lia|]. split; [lia|].
  destruct (formatPaginated_pages [1; 2; 3] 2 3 7 ltac:(lia) ltac:(lia))
    as (Hb & _ & Hn & Hp).
  fold p in Hb, Hn, Hp. split; [|split].
  - reflexivity.
  - apply Hn. lia.
  - apply Hp. lia.
Defined.

Lemma concat_slices {A} (l : list A) (n m : nat) :
  (0 < n)%nat ->
  concat ((fun k => take n (drop (k * n) l)) <$> seq 0 m) = take (m * n) l.
Proof.
  intros Hn. induction m as [|m IH]; [done|].
  rewrite seq_S, fmap_app, concat_app, IH. simpl. rewrite app_nil_r.
  replace (n + m * n)%nat with (m * n + n)%nat by lia.
  by rewrite take_take_drop.
Qed.

Lemma find_mine_owner user status w id d :
  (id, d) ∈ find_mine user status w ->
  documents w !! id = Some d /\ doc_owner d = user_id user /\
  forall s, status = Some s -> nonempty s = true -> status_name (doc_status d) = s.
Proof.
  unfold find_mine. intros H. apply list_elem_of_omap in H. destruct H as (i & _ & H).
  destruct (documents w !! i) as [d0|] eqn:E; [|done].
  destruct (Nat.eqb (doc_owner d0) (user_id user)) eqn:Eo; [|done].
  simpl in H. apply Nat.eqb_eq in Eo.
  destruct status as [s|].
  - destruct (nonempty s) eqn:En.
    + destruct (String.eqb _ s) eqn:Es; simplify_eq.
      apply String.eqb_eq in Es. split; [done|]. split; [done|]. by intros ? [= <-].
    + simplify_eq. split; [done|]. split; [done|]. intros ? [= <-]. congruence.
  - simplify_eq. done.
Qed.

Lemma find_mine_complete user w id d :
  wf w -> documents w !! id = Some d -> doc_owner d = user_id user ->
  (id, d) ∈ find_mine user None w.
Proof.
  intros Hwf Hd Ho. unfold find_mine. apply list_elem_of_omap. exists id. split.
  - apply elem_of_reverse, elem_of_seq. specialize (Hwf id d Hd). simpl in Hwf. lia.
  - rewrite Hd, Ho, Nat.eqb_refl. done.
Qed.

(** X20. For a positive page and limit, the listing holds only
    documents of the collection that the user owns, with the status
    asked for if one was asked for, and never more of them than the
    limit. *)
Theorem getMyDocuments_lists_own user qpage qlimit status w :
  0 < parseInt_or qpage 1 -> 0 < parseInt_or qlimit 10 ->
  let listing := (getMyDocuments user qpage qlimit status w).1 in
  (forall id d, (id, d) ∈ listing ->
     documents w !! id = Some d /\ doc_owner d = user_id user /\
     forall s, status = Some s -> nonempty s = true -> status_name (doc_status d) = s) /\
  Z.of_nat (length listing) <= parseInt_or qlimit 10.
Proof.
  intros Hp Hl listing. subst listing. unfold getMyDocuments, formatPaginated, skip_limit.
  cbn [fst]. split.
  - intros id d Hin. apply (find_mine_owner user status w id d).
    by eapply subseteq_drop, subseteq_take.
  - rewrite length_take. lia.
Qed.

Lemma getMyDocuments_lists_own_witness :
  0 < parseInt_or None 1 /\ 0 < parseInt_or (Some 0) 10 /\
  Z.of_nat (length (getMyDocuments Scenario.alice None (Some 0) (Some "sent"%string)
                      Scenario.w_stuck).1) <= 10.
Proof.
  split; [reflexivity|]. split; [reflexivity|].
  apply (getMyDocuments_lists_own Scenario.alice None (Some 0) (Some "sent"%string)
           Scenario.w_stuck); reflexivity.
Defined.

Lemma getMyDocuments_page user (k : nat) qlimit status w :
  0 < parseInt_or qlimit 10 ->
  (getMyDocuments user (Some (Z.of_nat (S k))) qlimit status w).1
    = take (Z.to_nat (parseInt_or qlimit 10))
        (drop (k * Z.to_nat (parseInt_or qlimit 10)) (find_mine user status w)).
Proof.
  intros Hl. unfold getMyDocuments, formatPaginated, skip_limit. cbn [fst].
  unfold parseInt_or at 1 2. destruct (Z.eqb_spec (Z.of_nat (S k)) 0) as [?|_]; [lia|].
  do 2 f_equal. lia.
Qed.

(** X21. For a positive limit, [total] counts the matching documents,
    the pages from the first to [totalPages], put end to end, are the
    matching documents, each once, and [hasNext] of a page is true
    exactly when the next page is not empty. *)
Theorem getMyDocuments_pages user qlimit status w :
  0 < parseInt_or qlimit 10 ->
  let p := (getMyDocuments user None qlimit status w).2 in
  pg_total p = Z.of_nat (length (find_mine user status w)) /\
  concat ((fun k => (getMyDocuments user (Some (Z.of_nat (S k))) qlimit status w).1)
            <$> seq 0 (Z.to_nat (pg_totalPages p)))
    = find_mine user status w /\
  (forall k : nat,
     pg_hasNext (getMyDocuments user (Some (Z.of_nat (S k))) qlimit status w).2 = true <->
     (getMyDocuments user (Some (Z.of_nat (S (S k)))) qlimit status w).1 <> []).
Proof.
  intros Hl p. subst p.
  set (limit := parseInt_or qlimit 10) in *.
  set (l := find_mine user status w).
  assert (pg_total (getMyDocuments user None qlimit status w).2 = Z.of_nat (length l))
    as Htot by reflexivity.
  assert (pg_totalPages (getMyDocuments user None qlimit status w).2
          = ceil_div (Z.of_nat (length l)) limit) as Hpages by reflexivity.
  pose proof (ceil_div_bounds (Z.of_nat (length l)) limit Hl) as Hb.
  split; [done|]. split.
  - rewrite Hpages.
    erewrite (list_fmap_ext _ (fun k => take (Z.to_nat limit) (drop (k * Z.to_nat limit) l)));
      [|intros i k _; by apply getMyDocuments_page].
    rewrite concat_slices by lia. apply take_ge. nia.
  - intros k. rewrite getMyDocuments_page by done. fold limit l.
    assert (pg_hasNext (getMyDocuments user (Some (Z.of_nat (S k))) qlimit status w).2
            = (Z.of_nat (S k) <? ceil_div (Z.of_nat (length l)) limit)) as ->.
    { unfold getMyDocuments, formatPaginated. cbn [snd pg_hasNext].
      unfold parseInt_or at 1. by destruct (Z.eqb_spec (Z.of_nat (S k)) 0) as [?|_]; [lia|]. }
    rewrite Z.ltb_lt.
    assert (take (Z.to_nat limit) (drop (S k * Z.to_nat limit) l) <> []
            <-> (S k * Z.to_nat limit < length l)%nat) as ->.
    { rewrite <- length_zero_iff_nil, length_take, length_drop. lia. }
    split; nia.
Qed.

Lemma getMyDocuments_pages_witness :
  let p := (getMyDocuments Scenario.alice None (Some 1) None Scenario.w_stuck).2 in
  0 < parseInt_or (Some 1) 10 /\
  pg_total p = 1 /\
  concat ((fun k => (getMyDocuments Scenario.alice (Some (Z.of_nat (S k))) (Some 1) None
                       Scenario.w_stuck).1)
            <$> seq 0 (Z.to_nat (pg_totalPages p)))
    = find_mine Scenario.alice None Scenario.w_stuck.
Proof.
  intros p. assert (0 < parseInt_or (Some 1) 10) as Hl by (vm_compute; reflexivity).
  split; [exact Hl|].
  destruct (getMyDocuments_pages Scenario.alice (Some 1) None Scenario.w_stuck Hl)
    as (Ht & Hc & _).
  split; [|exact Hc]. fold p in Ht. rewrite Ht. vm_compute. reflexivity.
Defined.

(** ** The signatures of a document, listed *)

Lemma newer_first_total : Total newer_first.
Proof. intros a b. unfold newer_first. lia. Qed.

Lemma newer_first_trans : Transitive newer_first.
Proof. intros a b c. unfold newer_first. lia. Qed.

(** X22. The listing holds exactly the Signatures of the document, as
    many as the collection has, and none of them before one that is
    newer. *)
Theorem getDocumentSignatures_newest_first documentId w :
  let l := getDocumentSignatures documentId w in
  (forall s, s ∈ l <-> s ∈ signatures w /\ sig_documentId s = documentId) /\
  length l = length (filter (fun s => sig_documentId s = documentId) (signatures w)) /\
  forall i j a b, (i < j)%nat -> l !! i = Some a -> l !! j = Some b ->
    sig_signedAt b <= sig_signedAt a.
Proof.
  intros l. subst l. unfold getDocumentSignatures.
  set (m := filter _ (signatures w)).
  pose proof (merge_sort_Permutation newer_first m) as Hp.
  split; [|split].
  - intros s. rewrite Hp. unfold m. rewrite list_elem_of_filter. tauto.
  - by rewrite Hp.
  - intros i j a b Hij Hi Hj.
    pose proof (@StronglySorted_merge_sort _ newer_first _ newer_first_trans
                  newer_first_total m) as Hs. clear Hp.
    revert i j Hij Hi Hj. induction Hs as [|x l _ IH Hall]; intros i j Hij Hi Hj; [done|].
    destruct j as [|j]; [lia|]. destruct i as [|i]; simpl in *; simplify_eq.
    + rewrite Forall_forall in Hall. apply (Hall b). by eapply list_elem_of_lookup_2.
    + apply (IH i j); [lia|done|done].
Qed.

(** ** Failed logins and the lock *)

Lemma login_wrong s t email password user logs :
  nonempty email = true -> nonempty password = true ->
  userSchema.isLocked t user = false ->
  bcrypt_compare s password (u_password user) = false ->
  authController.login s t (Some email) (Some password) (Some user) logs
    = (Refused (AppError "Incorrect email or password." 401),
       Some (userSchema.incLoginAttempts t user), logs).
Proof.
  intros He Hp Hl Hc. unfold authController.login. cbn [truthy]. rewrite He, Hp.
  cbn [negb orb default id]. by rewrite Hl, Hc.
Qed.

Lemma login_locked s t email password user logs :
  nonempty email = true -> nonempty password = true ->
  userSchema.isLocked t user = true ->
  authController.login s t (Some email) (Some password) (Some user) logs
    = (Refused (AppError
         (authController.lockedMessage
            (ceil_div (default 0 (u_lockUntil user) - t) (60 * 60 * 1000))) 401),
       Some user, logs).
Proof.
  intros He Hp Hl. unfold authController.login. cbn [truthy]. rewrite He, Hp.
  cbn [negb orb default id]. by rewrite Hl.
Qed.

(** Wrong passwords on an account without a lock: the counter goes up by
    one each time, and the attempt that brings it to five sets the
    lock. *)
Lemma logins_wrong s email attempts user :
  nonempty email = true ->
  u_lockUntil user = None ->
  0 <= u_loginAttempts user ->
  u_loginAttempts user + Z.of_nat (length attempts) <= 5 ->
  Forall (fun a => nonempty a.2 = true /\ bcrypt_compare s a.2 (u_password user) = false)
    attempts ->
  let user' := logins s email attempts user in
  u_password user' = u_password user /\
  u_loginAttempts user' = u_loginAttempts user + Z.of_nat (length attempts) /\
  u_lockUntil user' =
    match last attempts with
    | Some (t, _) =>
      if u_loginAttempts user' =? 5 then Some (t + userSchema.two_hours_ms) else None
    | None => None
    end.
Proof.
  intros He. revert user. induction attempts as [|[t pw] rest IH]; intros user Hl H0 Hle Hall.
  - simpl. split; [done|]. split; [lia|done].
  - apply Forall_cons in Hall. destruct Hall as [[Hpw Hc] Hall]. simpl in Hpw, Hc.
    cbn [logins]. rewrite login_wrong; [|done|done| |done].
    2:{ unfold userSchema.isLocked. by rewrite Hl. }
    cbn [fst snd default id].
    set (u1 := userSchema.incLoginAttempts t user).
    assert (u_password u1 = u_password user /\
            u_loginAttempts u1 = u_loginAttempts user + 1 /\
            u_lockUntil u1 = if u_loginAttempts user + 1 =? 5
                             then Some (t + userSchema.two_hours_ms) else None)
      as (Hp1 & Ha1 & Hl1).
    { unfold u1, userSchema.incLoginAttempts, userSchema.isLocked. rewrite Hl. simpl.
      unfold userSchema.maxAttempts. simpl length in Hle.
      destruct (Z.leb_spec 5 (u_loginAttempts user + 1)),
        (Z.eqb_spec (u_loginAttempts user + 1) 5); simpl; repeat split; done || lia. }
    simpl length in Hle.
    destruct rest as [|a rest].
    + cbn [logins last length]. rewrite Hp1, Ha1, Hl1. split; [done|]. split; [lia|done].
    + assert (u_loginAttempts user + 1 < 5) as Hlt by (simpl length in Hle; lia).
      destruct (Z.eqb_spec (u_loginAttempts user + 1) 5) as [?|_]; [lia|].
      destruct (IH u1) as (Hp & Ha & Hk); [done|lia|simpl length in *; lia| |].
      { eapply Forall_impl; [exact Hall|]. intros x. simpl. by rewrite Hp1. }
      cbv zeta in *. split; [congruence|]. split; [simpl length in *; lia|].
      rewrite Hk. reflexivity.
Qed.

(** X23. Five wrong passwords in a row on an account without failures
    set the lock, for two hours from the fifth, and fewer do not.  While
    the lock holds every login is refused, with the right password too,
    and leaves the account as it is; the message counts one or two
    hours. *)
Theorem five_wrong_passwords_lock s email attempts user t pw :
  nonempty email = true ->
  u_loginAttempts user = 0 -> u_lockUntil user = None ->
  length attempts = 5%nat ->
  Forall (fun a => nonempty a.2 = true /\ bcrypt_compare s a.2 (u_password user) = false)
    attempts ->
  last attempts = Some (t, pw) ->
  let user' := logins s email attempts user in
  u_loginAttempts user' = 5 /\
  u_lockUntil user' = Some (t + 7200000) /\
  (forall k, (k < 5)%nat -> u_lockUntil (logins s email (take k attempts) user) = None) /\
  forall now password logs,
    nonempty password = true -> now < t + 7200000 ->
    let hours := ceil_div (t + 7200000 - now) 3600000 in
    authController.login s now (Some email) (Some password) (Some user') logs
      = (Refused (AppError (authController.lockedMessage hours) 401), Some user', logs) /\
    (t <= now -> 1 <= hours <= 2).
Proof.
  intros He H0 Hl Hlen Hall Hlast user'.
  destruct (logins_wrong s email attempts user He Hl) as (Hp & Ha & Hk);
    [lia|rewrite Hlen; lia|done|].
  fold user' in Hp, Ha, Hk. rewrite Hlast, Ha, H0, Hlen in Hk.
  change (0 + Z.of_nat 5 =? 5) with true in Hk. cbv iota in Hk.
  change userSchema.two_hours_ms with 7200000 in Hk.
  split; [rewrite Ha, H0, Hlen; reflexivity|]. split; [exact Hk|]. split.
  - intros k Hk5.
    destruct (logins_wrong s email (take k attempts) user He Hl) as (_ & Ha' & Hk');
      [lia|rewrite length_take; lia|by apply Forall_take|].
    cbv zeta in Hk'. rewrite Hk', Ha', H0, length_take, Hlen.
    destruct (last (take k attempts)) as [[t' ?]|]; [|done].
    by destruct (Z.eqb_spec (0 + Z.of_nat (k `min` 5)) 5) as [?|_]; [lia|].
  - intros now password logs Hpw Hnow hours. split.
    + rewrite login_locked; [|done|done|].
      * by rewrite Hk.
      * unfold userSchema.isLocked. rewrite Hk. by apply Z.ltb_lt.
    + intros Hle. subst hours.
      pose proof (ceil_div_bounds (t + 7200000 - now) 3600000 ltac:(lia)). lia.
Qed.

Lemma five_wrong_passwords_lock_witness :
  let user' := logins Examples.secrets0 "alice@example.org" Examples.guesses Examples.account0 in
  nonempty "alice@example.org" = true /\
  u_loginAttempts Examples.account0 = 0 /\ u_lockUntil Examples.account0 = None /\
  length Examples.guesses = 5%nat /\
  Forall (fun a => nonempty a.2 = true /\
                   bcrypt_compare Examples.secrets0 a.2 (u_password Examples.account0) = false) Examples.guesses /\
  last Examples.guesses = Some (500, "e"%string) /\
  u_loginAttempts user' = 5 /\
  u_lockUntil user' = Some 7200500 /\
  authController.login Examples.secrets0 600 (Some "alice@example.org"%string)
    (Some "correct horse"%string) (Some user') []
    = (Refused (AppError "Account is locked. Please try again after 2 hours." 401),
       Some user', []).
Proof.
  intros user'.
  assert (Forall (fun a => nonempty a.2 = true /\
                   bcrypt_compare Examples.secrets0 a.2 (u_password Examples.account0) = false) Examples.guesses) as Hall.
  { repeat constructor. }
  destruct (five_wrong_passwords_lock Examples.secrets0 "alice@example.org" Examples.guesses Examples.account0 500 "e"
              eq_refl eq_refl eq_refl eq_refl Hall eq_refl) as (Ha & Hl & _ & Hlogin).
  fold user' in Ha, Hl, Hlogin.
  destruct (Hlogin 600 "correct horse"%string [] eq_refl ltac:(lia)) as [Hr _].
  repeat (match goal with |- _ /\ _ => split end); try assumption; try reflexivity.
Defined.

(** X24. Once the lock has run out, the right password logs in and
    clears the counter and the lock.  A wrong password starts the
    counter again at one; typed at the very instant the lock runs out,
    it counts on and locks the account for two more hours. *)
Theorem lock_runs_out s email password user now logs lockUntil :
  nonempty email = true -> nonempty password = true ->
  u_lockUntil user = Some lockUntil -> lockUntil <= now ->
  let '(response, stored, _) :=
    authController.login s now (Some email) (Some password) (Some user) logs in
  if bcrypt_compare s password (u_password user) then
    response = Authenticated 200 (u_id user) (jwt_sign_access s (u_id user) now)
                 (jwt_sign_refresh s (u_id user) now) /\
    exists user', stored = Some user' /\
      u_loginAttempts user' = 0 /\ u_lockUntil user' = None /\
      u_lastLogin user' = Some now
  else
    response = Refused (AppError "Incorrect email or password." 401) /\
    exists user', stored = Some user' /\
      if lockUntil <? now then u_loginAttempts user' = 1 /\ u_lockUntil user' = None
      else
        u_loginAttempts user' = u_loginAttempts user + 1 /\
        (4 <= u_loginAttempts user -> u_lockUntil user' = Some (now + 7200000)).
Proof.
  intros He Hp Hl Hle.
  assert (userSchema.isLocked now user = false) as Hnot.
  { unfold userSchema.isLocked. rewrite Hl. apply Z.ltb_ge. lia. }
  destruct (bcrypt_compare s password (u_password user)) eqn:Hc.
  - unfold authController.login. cbn [truthy]. rewrite He, Hp. cbn [negb orb default id].
    rewrite Hnot, Hc. cbn [negb]. rewrite Hl.
    rewrite bool_decide_true by by eexists. rewrite orb_true_r.
    cbn. split; [done|]. eexists. split; [done|]. done.
  - rewrite login_wrong by done. split; [done|]. eexists. split; [done|].
    unfold userSchema.incLoginAttempts. rewrite Hl, Hnot.
    destruct (Z.ltb_spec lockUntil now); [done|]. cbn. split; [done|].
    intros H4. unfold userSchema.maxAttempts.
    by destruct (Z.leb_spec 5 (u_loginAttempts user + 1)); [|lia].
Qed.

Lemma lock_runs_out_witness :
  let user := logins Examples.secrets0 "alice@example.org" Examples.guesses Examples.account0 in
  nonempty "alice@example.org" = true /\ nonempty "correct horse" = true /\
  u_lockUntil user = Some 7200500 /\ 7200500 <= 7200500 /\
  exists user',
    authController.login Examples.secrets0 7200500 (Some "alice@example.org"%string)
      (Some "wrong"%string) (Some user) []
      = (Refused (AppError "Incorrect email or password." 401), Some user', []) /\
    u_lockUntil user' = Some 14400500.
Proof.
  intros user.
  assert (u_lockUntil user = Some 7200500) as Hl by (vm_compute; reflexivity).
  repeat (match goal with |- _ /\ _ => split end); try assumption; try reflexivity; try lia.
  pose proof (lock_runs_out Examples.secrets0 "alice@example.org" "wrong" user 7200500 [] 7200500
                eq_refl eq_refl Hl ltac:(lia)) as H.
  destruct (authController.login Examples.secrets0 7200500 (Some "alice@example.org"%string)
              (Some "wrong"%string) (Some user) []) as [[r st] lg] eqn:E.
  assert (lg = []) as -> by (apply (f_equal snd) in E; vm_compute in E; congruence).
  assert (bcrypt_compare Examples.secrets0 "wrong" (u_password user) = false) as Hc
    by (vm_compute; reflexivity).
  rewrite Hc in H. destruct H as (-> & user' & -> & H).
  rewrite Z.ltb_irrefl in H. destruct H as [_ H].
  exists user'. split; [reflexivity|]. apply H. vm_compute. discriminate.
Defined.

Lemma login_lock_consistent s now email password user logs :
  lock_consistent user ->
  match (authController.login s now email password (Some user) logs).1.2 with
  | Some user' => lock_consistent user' /\ u_id user' = u_id user
  | None => False
  end.
Proof.
  intros [H0 Hl]. unfold authController.login.
  destruct (negb (truthy email) || negb (truthy password)); [done|].
  destruct (userSchema.isLocked now user) eqn:Hk; [done|].
  destruct (negb (bcrypt_compare s _ _)); cbn [fst snd].
  - split; [|by unfold userSchema.incLoginAttempts; repeat case_match].
    unfold lock_consistent, userSchema.incLoginAttempts, userSchema.isLocked,
      userSchema.maxAttempts in *.
    destruct (u_lockUntil user) as [l|] eqn:El.
    + assert (5 <= u_loginAttempts user) by (apply Hl; by eexists).
      destruct (Z.ltb_spec l now); cbn.
      * split; [lia|]. split; [lia|]. by intros [? ?].
      * rewrite Hk. destruct (Z.leb_spec 5 (u_loginAttempts user + 1)); [|lia].
        cbn. split; [lia|]. split; [by eexists|lia].
    + assert (~ 5 <= u_loginAttempts user) by (intros ?%Hl; by destruct H).
      cbn. destruct (Z.leb_spec 5 (u_loginAttempts user + 1)); cbn.
      * split; [lia|]. split; [by eexists|lia].
      * split; [lia|]. split; [lia|]. by intros [? ?].
  - split; [|by repeat case_match].
    unfold lock_consistent. destruct ((0 <? u_loginAttempts user) || _) eqn:E; cbn.
    + split; [lia|]. split; [lia|]. by intros [? ?].
    + apply orb_false_iff in E. destruct E as [E1 E2].
      apply Z.ltb_ge in E1. apply bool_decide_eq_false in E2.
      split; [lia|]. split; [lia|]. done.
Qed.

(** X25. Whatever the logins on an account that started without
    failures, right or wrong, at any times: the counter is never
    negative, and the lock is set exactly when the counter has reached
    five. *)
Theorem lock_matches_counter s email attempts user :
  u_loginAttempts user = 0 -> u_lockUntil user = None ->
  lock_consistent (logins s email attempts user).
Proof.
  intros H0 Hl. assert (lock_consistent user) as Hc.
  { unfold lock_consistent. rewrite H0, Hl. split; [lia|]. split; [lia|]. by intros [? ?]. }
  clear H0 Hl. revert user Hc.
  induction attempts as [|[t pw] rest IH]; intros user Hc; [done|].
  cbn [logins]. pose proof (login_lock_consistent s t (Some email) (Some pw) user [] Hc) as H.
  destruct (authController.login s t (Some email) (Some pw) (Some user) []).1.2 as [u1|];
    [|done].
  apply IH. by destruct H.
Qed.

Lemma lock_matches_counter_witness :
  u_loginAttempts Examples.account0 = 0 /\ u_lockUntil Examples.account0 = None /\
  lock_consistent
    (logins Examples.secrets0 "alice@example.org"
       [(1, "a"); (2, "b"); (3, "correct horse"); (4, "c")]%string Examples.account0).
Proof.
  split; [reflexivity|]. split; [reflexivity|].
  apply (lock_matches_counter Examples.secrets0); reflexivity.
Defined.

(** ** The password and the tokens signed before it changed *)

Lemma User_findById_save id user' users user :
  User_findById id users = Some user -> u_id user' = id ->
  User_findById id (User_save user' users) = Some user'.
Proof.
  unfold User_findById, User_save. intros Hf Hid. rewrite Hid.
  induction users as [|x l IH]; simpl in *; [done|].
  destruct (Nat.eqb (u_id x) id) eqn:E; simpl.
  - by rewrite Hid, Nat.eqb_refl.
  - rewrite E. by apply IH.
Qed.

(** X26. A change of password is answered 200 with new tokens.  Unless
    the new password is the very string that is stored, the stored
    password becomes the hash of the new one, and [protect] then refuses
    the access tokens signed two seconds or more before the change and
    lets the later ones through, the one of the response among them.  A
    new password equal to the stored string modifies nothing: the hooks
    return at once, and the password and [passwordChangedAt] stay as
    they were. *)
Theorem password_change_and_old_tokens s now currentPassword newPassword password
    user users logs jwt_verify token iat :
  1000 <= now ->
  User_findById (u_id user) users = Some user ->
  bcrypt_compare s currentPassword (u_password user) = true ->
  userSchema.validate_password newPassword = inr password ->
  nonempty token = true ->
  jwt_verify token = Decoded (u_id user) iat ->
  let '(response, users', _) :=
    authController.updatePassword s now (u_id user) currentPassword newPassword users logs in
  response = Authenticated 200 (u_id user) (jwt_sign_access s (u_id user) now)
               (jwt_sign_refresh s (u_id user) now) /\
  exists user',
    User_findById (u_id user) users' = Some user' /\
    if String.eqb (u_password user) password then
      u_password user' = u_password user /\
      u_passwordChangedAt user' = u_passwordChangedAt user
    else
      u_password user' = bcrypt_hash s password /\
      u_passwordChangedAt user' = Some (now - 1000) /\
      protect jwt_verify (Some token) users' =
        if iat <? now / 1000 - 1 then
          inl (AppError "User recently changed password. Please log in again." 401)
        else if u_isActive user then inr user'
        else inl (AppError "Your account has been deactivated. Please contact support." 401).
Proof.
  intros Hnow Hf Hc Hv Ht Hj. unfold authController.updatePassword.
  rewrite Hf, Hc, Hv. cbn [negb authController.createSendToken].
  set (u1 := userSchema.pre_save s now (Some (u_password user)) password user).
  assert (u_id u1 = u_id user) as Hid.
  { unfold u1, userSchema.pre_save. by destruct (negb _). }
  rewrite Hid. split; [done|].
  set (u2 := set_refreshToken _ u1).
  assert (User_findById (u_id user) (User_save u2 (User_save u1 users)) = Some u2) as Hf2.
  { eapply User_findById_save; [|done]. by eapply User_findById_save. }
  exists u2. split; [done|].
  unfold u2, u1, userSchema.pre_save, userSchema.isModified_password in *.
  destruct (String.eqb (u_password user) password) eqn:E; cbn [negb] in *; [done|].
  split; [done|]. split; [done|].
  unfold protect. rewrite Ht, Hj. cbn [negb]. rewrite Hf2.
  unfold userSchema.changedPasswordAfter. cbn.
  assert (Z.quot (now - 1000) 1000 = now / 1000 - 1) as ->.
  { rewrite Z.quot_div_nonneg by lia.
    replace (now - 1000) with (now + (-1) * 1000) by lia. rewrite Z.div_add by lia. lia. }
  destruct (iat <? now / 1000 - 1); [done|]. by destruct (u_isActive user).
Qed.

Lemma password_change_and_old_tokens_witness :
  1000 <= 200000 /\
  User_findById 7 [Examples.account1; Examples.account0] = Some Examples.account0 /\
  bcrypt_compare Examples.secrets0 "correct horse" (u_password Examples.account0) = true /\
  userSchema.validate_password (Some "new password"%string) = inr "new password"%string /\
  Examples.verify0 "old" = Decoded 7 100 /\
  let users' :=
    (authController.updatePassword Examples.secrets0 200000 7 "correct horse"
       (Some "new password"%string) [Examples.account1; Examples.account0] []).1.2 in
  protect Examples.verify0 (Some "old"%string) users'
    = inl (AppError "User recently changed password. Please log in again." 401) /\
  is_Some (User_findById 7 users').
Proof.
  pose proof (password_change_and_old_tokens Examples.secrets0 200000 "correct horse"
                (Some "new password"%string) "new password" Examples.account0 [Examples.account1; Examples.account0] []
                Examples.verify0 "old" 100 ltac:(lia) eq_refl eq_refl eq_refl eq_refl eq_refl) as H.
  split; [lia|]. do 4 (split; [reflexivity|]). intros users'. subst users'.
  change 7%nat with (u_id Examples.account0).
  destruct (authController.updatePassword _ _ _ _ _ _ _) as [[r us] lg].
  destruct H as (_ & user' & Hf & Hp). cbn [fst snd].
  change (String.eqb (u_password Examples.account0) "new password") with false in Hp.
  destruct Hp as (_ & _ & Hp). split.
  - rewrite Hp. reflexivity.
  - rewrite Hf. by eexists.
Defined.

(** ** The password reset token *)

Lemma User_save_ids user' users :
  u_id <$> User_save user' users = u_id <$> users.
Proof.
  unfold User_save. induction users as [|x l IH]; simpl; [done|].
  destruct (Nat.eqb (u_id x) (u_id user')) eqn:E; simpl.
  - apply Nat.eqb_eq in E. by rewrite E.
  - f_equal. exact IH.
Qed.

Lemma find_after_save (q : UserDoc -> bool) user' users user :
  NoDup (u_id <$> users) ->
  (forall v, v ∈ users -> u_id v <> u_id user' -> q v = false) ->
  User_findById (u_id user') users = Some user ->
  find q (User_save user' users) = if q user' then Some user' else None.
Proof.
  unfold User_findById, User_save. induction users as [|x l IH]; simpl; [done|].
  intros [Hx Hnd]%NoDup_cons Hq Hf.
  destruct (Nat.eqb (u_id x) (u_id user')) eqn:E; simpl.
  - destruct (q user'); [done|]. apply Nat.eqb_eq in E.
    clear IH Hf. induction l as [|y l IHl]; simpl; [done|].
    rewrite Hq.
    + apply IHl.
      * intros Hin. apply Hx. simpl. apply elem_of_cons. by right.
      * by apply NoDup_cons in Hnd as [_ ?].
      * intros v Hv. apply Hq. apply elem_of_cons in Hv as [->|Hv].
        -- apply elem_of_cons. by left.
        -- apply elem_of_cons. right. apply elem_of_cons. by right.
    + apply elem_of_cons. right. apply elem_of_cons. by left.
    + intros Hy. apply Hx. rewrite E, <- Hy. simpl. apply elem_of_cons. by left.
  - rewrite Hq.
    + apply IH; [done| |done]. intros v Hv. apply Hq. apply elem_of_cons. by right.
    + apply elem_of_cons. by left.
    + by apply Nat.eqb_neq.
Qed.

Lemma User_save_others (q : UserDoc -> bool) user' users :
  (forall v, v ∈ users -> u_id v <> u_id user' -> q v = false) ->
  forall v, v ∈ User_save user' users -> u_id v <> u_id user' -> q v = false.
Proof.
  intros Hq v Hv Hne. unfold User_save in Hv.
  apply elem_of_update_first in Hv as [Hv|(y & _ & ->)]; [by apply Hq|done].
Qed.

(** X27. The token that [forgotPassword] draws resets the password of
    that user for ten minutes and not after; a password that fails the
    schema leaves the token usable; and once it has reset the password
    the token is refused for ever. *)
Theorem reset_token_works_once s t resetToken user users logs :
  NoDup (u_id <$> users) ->
  User_findById (u_id user) users = Some user ->
  (forall v, v ∈ users -> u_id v <> u_id user ->
     u_passwordResetToken v <> Some (SHA256.hex_of_string resetToken)) ->
  let '(_, sentToken, users1, _) :=
    authController.forgotPassword t resetToken (Some user) users logs in
  sentToken = Some resetToken /\
  forall now password,
    let '(response, users2, _) :=
      authController.resetPassword s now resetToken password users1 logs in
    if now <? t + 600000 then
      match userSchema.validate_password password with
      | inl e => response = Refused e /\ users2 = users1
      | inr pw =>
        response = Authenticated 200 (u_id user) (jwt_sign_access s (u_id user) now)
                     (jwt_sign_refresh s (u_id user) now) /\
        (exists user2,
           User_findById (u_id user) users2 = Some user2 /\
           u_password user2 = bcrypt_hash s pw /\
           u_passwordResetToken user2 = None) /\
        forall now' password',
          authController.resetPassword s now' resetToken password' users2 logs
            = (Refused (AppError "Token is invalid or has expired." 400), users2, logs)
      end
    else
      response = Refused (AppError "Token is invalid or has expired." 400) /\
      users2 = users1.
Proof.
  intros Hnd Hf Hothers.
  unfold authController.forgotPassword, userSchema.createPasswordResetToken.
  cbn [fst snd]. split; [done|]. intros now password.
  set (h := SHA256.hex_of_string resetToken) in *.
  set (u1 := set_reset (Some h) (Some (t + userSchema.ten_minutes_ms)) user).
  assert (forall n v, v ∈ users -> u_id v <> u_id user -> holds_reset n h v = false) as Hq.
  { intros n v Hv Hne. unfold holds_reset. rewrite bool_decide_false; [done|]. by apply Hothers. }
  unfold authController.resetPassword. fold h. fold (holds_reset now h).
  rewrite (find_after_save (holds_reset now h) u1 users user Hnd (Hq now) Hf).
  unfold holds_reset at 1. cbn [u1 set_reset u_passwordResetToken u_passwordResetExpires].
  rewrite bool_decide_true by done. cbn [andb].
  change (t + userSchema.ten_minutes_ms) with (t + 600000).
  destruct (now <? t + 600000); [|done].
  destruct (userSchema.validate_password password) as [e|pw]; [done|].
  cbn [authController.createSendToken].
  set (u2 := set_reset None None (userSchema.pre_save s now None pw u1)).
  set (u3 := set_refreshToken _ u2).
  set (users1 := User_save u1 users).
  assert (User_findById (u_id user) users1 = Some u1) as Hf1
    by (by eapply User_findById_save).
  assert (User_findById (u_id user) (User_save u2 users1) = Some u2) as Hf2
    by (by eapply User_findById_save).
  split; [done|]. split.
  - exists u3. split; [by eapply User_findById_save|]. done.
  - intros now' password'. fold h. fold (holds_reset now' h).
    rewrite (find_after_save (holds_reset now' h) u3 (User_save u2 users1) u2).
    + done.
    + unfold users1. by rewrite !User_save_ids.
    + apply (User_save_others _ u2), (User_save_others _ u1). apply Hq.
    + exact Hf2.
Qed.

Lemma reset_token_works_once_witness :
  NoDup (u_id <$> [Examples.account1; Examples.account0]) /\
  User_findById 7 [Examples.account1; Examples.account0] = Some Examples.account0 /\
  (forall v, v ∈ [Examples.account1; Examples.account0] -> u_id v <> 7%nat ->
     u_passwordResetToken v <> Some (SHA256.hex_of_string "feed")) /\
  let users1 := (authController.forgotPassword 1000 "feed" (Some Examples.account0)
                   [Examples.account1; Examples.account0] []).1.2 in
  let users2 := (authController.resetPassword Examples.secrets0 2000 "feed"
                   (Some "new password"%string) users1 []).1.2 in
  (authController.resetPassword Examples.secrets0 2000 "feed" (Some "new password"%string) users1 []).1.1
    = Authenticated 200 7 "access.2000" "refresh.2000" /\
  (authController.resetPassword Examples.secrets0 3000 "feed" (Some "again, again"%string) users2 []).1.1
    = Refused (AppError "Token is invalid or has expired." 400).
Proof.
  assert (NoDup (u_id <$> [Examples.account1; Examples.account0])) as Hnd.
  { apply (bool_decide_unpack (NoDup (u_id <$> [Examples.account1; Examples.account0]))). vm_compute. exact I. }
  assert (forall v, v ∈ [Examples.account1; Examples.account0] -> u_id v <> 7%nat ->
            u_passwordResetToken v <> Some (SHA256.hex_of_string "feed")) as Hothers.
  { intros v [->|[->|[]%elem_of_nil]%elem_of_cons]%elem_of_cons _; discriminate. }
  split; [exact Hnd|]. split; [reflexivity|]. split; [exact Hothers|].
  pose proof (reset_token_works_once Examples.secrets0 1000 "feed" Examples.account0 [Examples.account1; Examples.account0] []
                Hnd eq_refl Hothers) as H.
  destruct (authController.forgotPassword 1000 "feed" (Some Examples.account0) [Examples.account1; Examples.account0] [])
    as [[[r0 tk] users1] lg0].
  destruct H as [_ H]. specialize (H 2000 (Some "new password"%string)).
  cbn [fst snd].
  destruct (authController.resetPassword Examples.secrets0 2000 "feed" (Some "new password"%string)
              users1 []) as [[r users2] lg].
  change (2000 <? 1000 + 600000) with true in H. cbv iota in H.
  change (userSchema.validate_password (Some "new password"%string))
    with (@inr Exn string "new password"%string) in H. cbv iota in H.
  destruct H as (Hr & _ & Hagain). cbn [fst snd]. split; [exact Hr|].
  by rewrite (Hagain 3000 (Some "again, again"%string)).
Defined.

(** ** The audit trail of the accounts *)

(** X28. Login, password change, reset request and reset write
    nothing to the audit trail: none of their entries names a
    document. *)
Theorem authentication_is_not_audited s now email password user userId currentPassword
    newPassword users resetToken token logs :
  (authController.login s now email password user logs).2 = logs /\
  (authController.updatePassword s now userId currentPassword newPassword users logs).2
    = logs /\
  (authController.forgotPassword now resetToken user users logs).2 = logs /\
  (authController.resetPassword s now token newPassword users logs).2 = logs.
Proof.
  unfold authController.login, authController.updatePassword, authController.forgotPassword,
    authController.resetPassword.
  repeat split; repeat case_match; simplify_eq; done.
Qed.
